(** * Research-assistant toolkit: citation validator, fact checker, search scorer

    A shallow embedding of the deterministic text-analysis helpers of
    [src/tools/citation_validator_tool.py], [src/tools/fact_checker_tool.py]
    and [src/tools/search_tool.py], and the properties the specification
    states about them.

    Conventions of the embedding.
    - A Python [str] is a [string]: a sequence of 8-bit characters read as the
      code points U+0000..U+00FF, classified as Python classifies them.
    - A Python [dict] with string keys is a [gmap string _]; a [set] of
      strings is a [gset string].
    - A Python [float] score is a rational [Q]: every decimal constant of the
      code is the rational it spells. The running total and the mean of
      [fact_checker], where rounding shows, are computed as the machine does,
      in binary64 (module [Binary64]): each constant, each sum and each
      quotient is rounded to the nearest double.
    - A call that can raise yields a value of [SearchTool.exn]: the result,
      or the exception. *)

From Stdlib Require Import String Ascii List Bool NArith ZArith QArith Qminmax Qround Qpower Lqa Lia
  Permutation Sorted.
From stdpp Require Import base option gmap strings list sorting.

Local Open Scope string_scope.

(** ** Python string primitives *)

Module PyStr.

Definition code (c : ascii) : N := N_of_ascii c.

Definition between (lo hi : N) (c : ascii) : bool :=
  ((lo <=? code c) && (code c <=? hi))%N.

(** [str.isspace] on one character, which is also the class [\s]. *)
Definition isspace (c : ascii) : bool :=
  between 9 13 c || between 28 32 c || (code c =? 133)%N || (code c =? 160)%N.

(** The class [\d]. *)
Definition isdigit (c : ascii) : bool := between 48 57 c.

(** The class [\w]. *)
Definition isword (c : ascii) : bool :=
  between 48 57 c || between 65 90 c || (code c =? 95)%N || between 97 122 c
  || (code c =? 170)%N || between 178 179 c || (code c =? 181)%N
  || between 185 186 c || between 188 190 c || between 192 214 c
  || between 216 246 c || between 248 255 c.

Definition lower_char (c : ascii) : ascii :=
  if between 65 90 c || between 192 214 c || between 216 222 c
  then ascii_of_N (code c + 32) else c.

(** [s.lower()] on the characters of the embedding, U+0000..U+00FF, where it
    works character by character. Above U+00FF the lower case of a character
    can depend on its neighbours (a capital sigma at the end of a word):
    such text has no image here, and no property below takes the lower case
    of a concatenation apart. *)
Fixpoint lower (s : string) : string :=
  match s with
  | EmptyString => EmptyString
  | String c t => String (lower_char c) (lower t)
  end.

(** [s.upper()]. The sharp s becomes [SS]; the upper-case forms of U+00B5
    and U+00FF lie outside the 8-bit alphabet and those two characters are
    kept: like their true images they differ from every ASCII letter. *)
Definition upper_char (c : ascii) : string :=
  if (code c =? 223)%N then "SS"
  else if between 97 122 c || between 224 246 c || between 248 254 c
  then String (ascii_of_N (code c - 32)) EmptyString
  else String c EmptyString.

Fixpoint upper (s : string) : string :=
  match s with
  | EmptyString => EmptyString
  | String c t => String.append (upper_char c) (upper t)
  end.

(** The longest prefix of [s] made of characters in [p], and what follows:
    a greedy [[class]*]. *)
Fixpoint span (p : ascii -> bool) (s : string) : string * string :=
  match s with
  | EmptyString => (EmptyString, EmptyString)
  | String c t =>
      if p c then let (run, rest) := span p t in (String c run, rest)
      else (EmptyString, s)
  end.

Fixpoint rev_onto (s acc : string) : string :=
  match s with
  | EmptyString => acc
  | String c t => rev_onto t (String c acc)
  end.

Definition reverse (s : string) : string := rev_onto s EmptyString.

Definition lstrip (s : string) : string := snd (span isspace s).

(** [s.strip()] *)
Definition strip (s : string) : string := reverse (lstrip (reverse (lstrip s))).

(** [s.startswith(p)] *)
Definition startswith (s p : string) : bool := String.prefix p s.

(** [s[len(p):]] when [s] starts with [p]. *)
Fixpoint drop_prefix (p s : string) : option string :=
  match p, s with
  | EmptyString, _ => Some s
  | String a p', String b s' => if Ascii.eqb a b then drop_prefix p' s' else None
  | String _ _, EmptyString => None
  end.

(** [kw in s] on strings: [kw] occurs in [s] as a contiguous substring. *)
Fixpoint contains (s kw : string) : bool :=
  String.prefix kw s
  || match s with
     | EmptyString => false
     | String _ t => contains t kw
     end.

(** [s.split()]: the maximal runs of non-space characters. [cur] is the
    run being read, reversed. *)
Fixpoint split_from (cur : string) (s : string) : list string :=
  match s with
  | EmptyString =>
      match cur with EmptyString => [] | _ => [reverse cur] end
  | String c t =>
      if isspace c
      then match cur with
           | EmptyString => split_from EmptyString t
           | _ => reverse cur :: split_from EmptyString t
           end
      else split_from (String c cur) t
  end.

Definition split (s : string) : list string := split_from EmptyString s.

(** Truthiness of [d.get(k)]: present and not the empty string. *)
Definition truthy (o : option string) : bool :=
  match o with
  | Some (String _ _) => true
  | _ => false
  end.

(** [re.search]/[re.findall(...)[0]] for a pattern that needs no look-behind:
    the match at the leftmost position where [m] succeeds. *)
Fixpoint search {A : Type} (m : string -> option A) (s : string) : option A :=
  match m s with
  | Some x => Some x
  | None =>
      match s with
      | EmptyString => None
      | String _ t => search m t
      end
  end.

(** [re.findall(r'\b\w+\b', s)]: the maximal runs of word characters. *)
Fixpoint words_from (cur : string) (s : string) : list string :=
  match s with
  | EmptyString =>
      match cur with EmptyString => [] | _ => [reverse cur] end
  | String c t =>
      if isword c then words_from (String c cur) t
      else match cur with
           | EmptyString => words_from EmptyString t
           | _ => reverse cur :: words_from EmptyString t
           end
  end.

Definition findall_words (s : string) : list string := words_from EmptyString s.

End PyStr.

(** ** Python floats *)

(** The arithmetic of binary64, on the rationals: a double is the rational
    it stands for, and an operation gives the double nearest to the exact
    result, the one with the even significand when two are as near. The
    values met here lie in the normal range of the format, between 2^-1022
    and 2^1024, where a double is an integer below 2^53 times a power of
    two; infinities and subnormal numbers are not represented. *)
Module Binary64.

Definition pow2 (e : Z) : Q := (2 ^ e)%Q.

(** The nearest integer, the even one for a half. *)
Definition round_half_even (q : Q) : Z :=
  let f := Qfloor q in
  match Qcompare (q - inject_Z f) (1 # 2) with
  | Lt => f
  | Gt => (f + 1)%Z
  | Eq => if Z.even f then f else (f + 1)%Z
  end.

(** For [0 < q], the exponent [e] of the unit in the last place of [q]:
    [2^52 <= q / 2^e < 2^53]. *)
Definition ulp_exponent (q : Q) : Z :=
  let e0 := (Z.log2 (Qnum q) - Z.log2 (Z.pos (Qden q)) - 52)%Z in
  if Qle_bool (pow2 (e0 + 52)) q then e0 else (e0 - 1)%Z.

Definition round_positive (q : Q) : Q :=
  let e := ulp_exponent q in
  (inject_Z (round_half_even (q * pow2 (- e))) * pow2 e)%Q.

(** The double nearest to [q]: what [float] makes of a decimal constant or
    of an [int], and what an operation makes of its exact result. *)
Definition round64 (q : Q) : Q :=
  match Qcompare q 0 with
  | Eq => 0%Q
  | Gt => round_positive q
  | Lt => (- round_positive (- q))%Q
  end.

(** [a + b] and [a / b] on floats. *)
Definition add64 (a b : Q) : Q := round64 (a + b).
Definition div64 (a b : Q) : Q := round64 (a / b).

(** The rationals that are doubles. *)
Definition representable (q : Q) : Prop :=
  exists m e : Z, (Z.abs m < 2 ^ 53)%Z /\ (q == inject_Z m * pow2 e)%Q.

End Binary64.

(** ** [citation_validator_tool.py] *)

Module CitationValidator.
Import PyStr.

(** *** The regular expressions of [_extract_citation_components] *)

Definition is_char (a : ascii) (c : ascii) : bool := Ascii.eqb a c.

Fixpoint mem_char (c : ascii) (cls : string) : bool :=
  match cls with
  | EmptyString => false
  | String a t => Ascii.eqb a c || mem_char c t
  end.

(** The double quote character. *)
Definition dquote : ascii := ascii_of_N 34.

(** The class of the URL pattern: anything but white space, the double
    quote and the characters [<>{}|\^`[]]. *)
Definition url_char (c : ascii) : bool :=
  negb (isspace c || is_char dquote c || mem_char c "<>{}|\^`[]").

(** The URL pattern, [https?://] and one or more characters of the class,
    matched at the start of [s]. The optional [s] is tried first and given
    back when [://] does not follow. *)
Definition match_url (s : string) : option string :=
  match drop_prefix "http" s with
  | None => None
  | Some r =>
      let tail (scheme r' : string) : option string :=
        match drop_prefix "://" r' with
        | None => None
        | Some body =>
            match fst (span url_char body) with
            | EmptyString => None
            | run => Some (String.append scheme (String.append "://" run))
            end
        end in
      match drop_prefix "s" r with
      | Some r' =>
          match tail "https" r' with
          | Some u => Some u
          | None => tail "http" r
          end
      | None => tail "http" r
      end
  end.

(** [\b(19|20)\d{2}\b] matched at the start of [s], the word boundary on
    the left being the caller's: the value is group 1. *)
Definition match_year (s : string) : option string :=
  match s with
  | String c1 (String c2 (String d1 (String d2 rest))) =>
      let g := String c1 (String c2 EmptyString) in
      if (String.eqb g "19" || String.eqb g "20")
         && isdigit d1 && isdigit d2
         && match rest with
            | EmptyString => true
            | String c _ => negb (isword c)
            end
      then Some g else None
  | _ => None
  end.

(** [re.findall(r'\b(19|20)\d{2}\b', s)]. The pattern has one capturing
    group, so [findall] lists what the group matched. [prev_word] tells
    whether the character before [s] is a word character; [skip] counts
    the characters of [s] still inside the previous match. *)
Fixpoint findall_year_from (prev_word : bool) (skip : nat) (s : string) : list string :=
  match s with
  | EmptyString => []
  | String c t =>
      match skip with
      | S k => findall_year_from (isword c) k t
      | O =>
          match (if prev_word then None else match_year s) with
          | Some g => g :: findall_year_from (isword c) 3 t
          | None => findall_year_from (isword c) 0 t
          end
      end
  end.

Definition findall_year (s : string) : list string := findall_year_from false 0 s.

(** [10\.\d{4,}/[^\s]+] matched at the start of [s]. *)
Definition match_doi (s : string) : option string :=
  match drop_prefix "10." s with
  | None => None
  | Some r =>
      let (digits, r2) := span isdigit r in
      if (4 <=? String.length digits)%nat then
        match drop_prefix "/" r2 with
        | None => None
        | Some r3 =>
            match fst (span (fun c => negb (isspace c)) r3) with
            | EmptyString => None
            | run => Some (String.append "10." (String.append digits (String.append "/" run)))
            end
        end
      else None
  end.

(** [D([^D]+)D] matched at the start of [s], for a delimiter class [d]:
    the value is group 1. The greedy run stops at the first delimiter or at
    the end of the text; a shorter run is never followed by a delimiter. *)
Definition match_delimited (d : ascii -> bool) (s : string) : option string :=
  match s with
  | EmptyString => None
  | String c t =>
      if d c then
        match span (fun x => negb (d x)) t with
        | (String a inner, String _ _) => Some (String a inner)
        | _ => None
        end
      else None
  end.

(** [\s*\(YEAR\)] matched at the start of [s]. *)
Definition match_year_paren (year : string) (s : string) : bool :=
  String.prefix (String.append "(" (String.append year ")")) (snd (span isspace s)).

(** [([^.]+?)\s*\(YEAR\)] matched at the start of [s]: the lazy group grows
    one character at a time until the rest matches. [year] is taken
    literally; the code splices it into the pattern, and it is made of
    digits. *)
Fixpoint match_author (year : string) (s : string) : option string :=
  match s with
  | EmptyString => None
  | String c t =>
      if is_char "." c then None
      else if match_year_paren year t then Some (String c EmptyString)
      else option_map (String c) (match_author year t)
  end.

(** The first pattern of the list with a match gives the value. *)
Fixpoint first_match (patterns : list (string -> option string)) (s : string) : option string :=
  match patterns with
  | [] => None
  | p :: ps =>
      match search p s with
      | Some x => Some x
      | None => first_match ps s
      end
  end.

Definition set_if (k : string) (v : option string) (d : gmap string string) : gmap string string :=
  match v with
  | Some x => <[k := x]> d
  | None => d
  end.

Definition title_patterns : list (string -> option string) :=
  [match_delimited (is_char dquote);
   match_delimited (fun c => mem_char c (String dquote (String dquote (String dquote EmptyString))))].

Definition journal_patterns : list (string -> option string) :=
  [match_delimited (is_char "*"); match_delimited (is_char "_")].

Definition _extract_citation_components (citation : string) : gmap string string :=
  let components : gmap string string := ∅ in
  let components := set_if "url" (search match_url citation) components in
  let components := set_if "year" (last (findall_year citation)) components in
  let components := set_if "doi" (search match_doi citation) components in
  let components := set_if "title" (first_match title_patterns citation) components in
  let components :=
    if truthy (components !! "year") then
      match components !! "year" with
      | Some year => set_if "author" (option_map strip (search (match_author year) citation)) components
      | None => components
      end
    else components in
  let components := set_if "journal" (first_match journal_patterns citation) components in
  components.

(** *** Scoring *)

Definition common_required : list string := ["author"; "title"; "year"].

Definition style_requirements : gmap string (list string) :=
  <["Chicago" := (common_required ++ ["source"])%list]>
    (<["MLA" := (common_required ++ ["source"])%list]>
       (<["APA" := (common_required ++ ["source"])%list]> ∅)).

(** [style_requirements.get(style.upper(), common_required)] *)
Definition _get_required_components (style : string) : list string :=
  default common_required (style_requirements !! upper style).

(** What [requests.head] reports for a URL, as far as the validator reads
    it. *)
Record url_check := {
  is_accessible : bool;
  error : option string
}.

(** The validation record of one citation. The field [formatted_citation]
    is left out: nothing below reads it, and for two styles it prints the
    current date. *)
Record validation_result := {
  citation_number : nat;
  original_citation : string;
  is_valid : bool;
  quality_score : Q;
  issues : list string;
  strengths : list string;
  metadata : gmap string string;
  url_validation : option url_check
}.

(** The assignments of the code to one entry of the record. *)
Definition add_issue (msg : string) (r : validation_result) : validation_result :=
  {| citation_number := citation_number r; original_citation := original_citation r;
     is_valid := is_valid r; quality_score := quality_score r;
     issues := (issues r ++ [msg])%list; strengths := strengths r;
     metadata := metadata r; url_validation := url_validation r |}.

Definition add_strength (msg : string) (r : validation_result) : validation_result :=
  {| citation_number := citation_number r; original_citation := original_citation r;
     is_valid := is_valid r; quality_score := quality_score r;
     issues := issues r; strengths := (strengths r ++ [msg])%list;
     metadata := metadata r; url_validation := url_validation r |}.

Definition set_metadata (components : gmap string string) (r : validation_result)
    : validation_result :=
  {| citation_number := citation_number r; original_citation := original_citation r;
     is_valid := is_valid r; quality_score := quality_score r;
     issues := issues r; strengths := strengths r;
     metadata := components; url_validation := url_validation r |}.

Definition set_url_validation (check : url_check) (r : validation_result)
    : validation_result :=
  {| citation_number := citation_number r; original_citation := original_citation r;
     is_valid := is_valid r; quality_score := quality_score r;
     issues := issues r; strengths := strengths r;
     metadata := metadata r; url_validation := Some check |}.

Definition set_quality (score : Q) (valid : bool) (r : validation_result)
    : validation_result :=
  {| citation_number := citation_number r; original_citation := original_citation r;
     is_valid := valid; quality_score := score;
     issues := issues r; strengths := strengths r;
     metadata := metadata r; url_validation := url_validation r |}.

(** [len(xs)] as a score. *)
Definition len_Q {A : Type} (xs : list A) : Q := inject_Z (Z.of_nat (length xs)).

(** One turn of the loop over the required components. *)
Definition required_step (components : gmap string string) (total_required : Q)
    (st : Q * validation_result) (component : string) : Q * validation_result :=
  let (score, r) := st in
  if truthy (components !! component)
  then ((score + 1 / total_required)%Q, add_strength (String.append "Has " component) r)
  else (score, add_issue (String.append "Missing " component) r).

(** The score, and the validation record with the issues and strengths the
    call appended to it. *)
Definition _validate_components (components : gmap string string) (required : list string)
    (r : validation_result) : Q * validation_result :=
  let total_required := len_Q required in
  let (score, r) := fold_left (required_step components total_required) required (0%Q, r) in
  let (score, r) :=
    if truthy (components !! "doi")
    then ((score + (1 # 10))%Q, add_strength "Includes DOI" r) else (score, r) in
  let (score, r) :=
    if truthy (components !! "url")
    then ((score + (5 # 100))%Q, add_strength "Includes URL" r) else (score, r) in
  (score, r).

Definition show_error (e : option string) : string :=
  match e with
  | Some msg => msg
  | None => "None"
  end.

Section Validation.

(** The network check of a URL is the caller's world: any function from
    URLs to reports. *)
Variable _validate_url_accessibility : string -> url_check.

Definition _validate_single_citation (citation style : string) (number : nat)
    : validation_result :=
  let r := {| citation_number := number; original_citation := citation;
              is_valid := false; quality_score := 0; issues := []; strengths := [];
              metadata := ∅; url_validation := None |} in
  let components := _extract_citation_components citation in
  let r := set_metadata components r in
  let required_components := _get_required_components style in
  let (component_score, r) := _validate_components components required_components r in
  let (component_score, r) :=
    if truthy (components !! "url") then
      let check := _validate_url_accessibility (default EmptyString (components !! "url")) in
      let r := set_url_validation check r in
      if is_accessible check
      then ((component_score + (1 # 10))%Q, add_strength "URL is accessible" r)
      else (component_score,
            add_issue (String.append "URL not accessible: " (show_error (error check))) r)
    else (component_score, r) in
  let score := Qmin component_score 1 in
  set_quality score (Qle_bool (7 # 10) score) r.

End Validation.

(** [sum(c.get(quality_score, 0) for c in validated_citations)] *)
Definition total_quality (validated_citations : list validation_result) : Q :=
  fold_left (fun acc c => (acc + quality_score c)%Q) validated_citations 0%Q.

Definition _calculate_overall_quality (validated_citations : list validation_result) : Q :=
  match validated_citations with
  | [] => 0%Q
  | _ => (total_quality validated_citations / len_Q validated_citations)%Q
  end.

End CitationValidator.

(** ** [fact_checker_tool.py] *)

Module FactChecker.
Import PyStr Binary64.

Inductive sep_kind := NoSep | Punct | Newline.

Definition sep_of (c : ascii) : sep_kind :=
  if Ascii.eqb c "." || Ascii.eqb c "!" || Ascii.eqb c "?" then Punct
  else if (code c =? 10)%N then Newline
  else NoSep.

Definition same_sep (a b : sep_kind) : bool :=
  match a, b with
  | Punct, Punct | Newline, Newline => true
  | _, _ => false
  end.

(** [re.split(r'[.!?]+|\n+', s)]: a run of sentence marks is one separator,
    a run of line feeds is one separator, and the pieces between two
    separators are kept even when empty. [inside] is the kind of the
    separator being read, [cur] the piece being read, reversed. *)
Fixpoint re_split_from (inside : sep_kind) (cur : string) (s : string) : list string :=
  match s with
  | EmptyString => [reverse cur]
  | String c t =>
      match sep_of c with
      | NoSep => re_split_from NoSep (String c cur) t
      | k =>
          if same_sep inside k then re_split_from k cur t
          else reverse cur :: re_split_from k EmptyString t
      end
  end.

Definition re_split (s : string) : list string := re_split_from NoSep EmptyString s.

Definition keep_claim (sentence : string) : bool :=
  (10 <? String.length sentence)%nat
  && negb (startswith sentence "http" || startswith sentence "www").

Definition _parse_claims (claims_text : string) : list string :=
  List.filter keep_claim (List.map strip (re_split claims_text)).

Inductive status :=
| unverified
| strongly_supported
| partially_supported
| insufficient_evidence.

Record verification := {
  claim_number : nat;
  claim_text : string;
  confidence_score : Q;
  verification_status : status;
  analysis : string
}.

(** [set(re.findall(r'\b\w+\b', claim.lower()))] *)
Definition claim_keywords (claim : string) : gset string :=
  list_to_set (findall_words (lower claim)).

(** [[kw for kw in claim_keywords if kw in source_text]] *)
Definition matching_keywords (claim sources : string) : list string :=
  let source_text := lower sources in
  List.filter (fun kw => contains source_text kw) (elements (claim_keywords claim)).

Definition keyword_overlap (claim sources : string) : Q :=
  if bool_decide (claim_keywords claim = ∅) then 0%Q
  else (inject_Z (Z.of_nat (length (matching_keywords claim sources)))
        / inject_Z (Z.of_nat (size (claim_keywords claim))))%Q.

Definition _verify_claim_against_sources (claim sources : string) (number : nat)
    : verification :=
  let overlap := keyword_overlap claim sources in
  if Qle_bool (7 # 10) overlap then
    {| claim_number := number; claim_text := claim;
       confidence_score := 9 # 10; verification_status := strongly_supported;
       analysis := "High keyword overlap with sources suggests strong support" |}
  else if Qle_bool (4 # 10) overlap then
    {| claim_number := number; claim_text := claim;
       confidence_score := 6 # 10; verification_status := partially_supported;
       analysis := "Moderate keyword overlap suggests partial support" |}
  else
    {| claim_number := number; claim_text := claim;
       confidence_score := 3 # 10; verification_status := insufficient_evidence;
       analysis := "Low keyword overlap suggests insufficient supporting evidence" |}.

Record fact_check_results := {
  total_claims : nat;
  verification_results : list verification;
  overall_reliability : Q
}.

(** One turn of the loop over the claims: the index, the verifications so
    far and the running total of the confidences, a float to which the
    float of the confidence is added. *)
Definition check_step (sources : string) (st : nat * list verification * Q) (claim : string)
    : nat * list verification * Q :=
  let '(idx, results, total_confidence) := st in
  let v := _verify_claim_against_sources claim sources (idx + 1) in
  (S idx, (results ++ [v])%list, add64 total_confidence (round64 (confidence_score v))).

(** The body of [fact_checker] once the claims are parsed. The total starts
    at [0.0]; the mean is the float quotient of the total by the number of
    claims, an [int] that the division turns into a float. *)
Definition check_claims (claim_list : list string) (sources : string) : fact_check_results :=
  let '(_, results, total_confidence) :=
    fold_left (check_step sources) claim_list (O, [], 0%Q) in
  {| total_claims := length claim_list;
     verification_results := results;
     overall_reliability :=
       if (0 <? length claim_list)%nat
       then div64 total_confidence (round64 (inject_Z (Z.of_nat (length claim_list))))
       else 0%Q |}.

Definition fact_checker (claims sources : string) : fact_check_results :=
  check_claims (_parse_claims claims) sources.

End FactChecker.

(** ** [search_tool.py] *)

Module SearchTool.
Import PyStr.

Inductive py_error := ZeroDivisionError.

(** What a call yields: a value, or the exception it raises. *)
Inductive exn (A : Type) :=
| Ok (a : A)
| Raise (e : py_error).
Arguments Ok {A} a.
Arguments Raise {A} e.

(** One hit of the search provider. *)
Record hit := {
  title : string;
  body : string;
  href : string
}.

(** [set(query.lower().split())] *)
Definition query_terms (query : string) : gset string :=
  list_to_set (split (lower query)).

(** [len([term for term in terms if term in text])] *)
Definition count_matches (terms : gset string) (text : string) : nat :=
  length (List.filter (fun term => contains text term) (elements terms)).

Definition nat_Q (n : nat) : Q := inject_Z (Z.of_nat n).

Definition _calculate_relevance (query : string) (result : hit) : exn Q :=
  let terms := query_terms query in
  let title := lower (title result) in
  let body := lower (body result) in
  let title_matches := count_matches terms title in
  let body_matches := count_matches terms body in
  if (size terms =? 0)%nat then Raise ZeroDivisionError
  else
    let relevance :=
      ((nat_Q title_matches * (7 # 10) + nat_Q body_matches * (3 # 10))
       / nat_Q (size terms))%Q in
    Ok (Qmin relevance 1).

(** [any(d in url for d in ds)] *)
Definition any_in (url : string) (ds : list string) : bool :=
  existsb (fun d => contains url d) ds.

Definition _assess_content_quality (result : hit) : Q :=
  let quality_score := (5 # 10)%Q in
  let quality_score :=
    if (100 <? String.length (body result))%nat
    then (quality_score + (2 # 10))%Q else quality_score in
  let quality_score :=
    if (20 <? String.length (title result))%nat
    then (quality_score + (1 # 10))%Q else quality_score in
  let quality_score :=
    if any_in (href result) [".edu"; ".gov"; ".org"]
    then (quality_score + (3 # 10))%Q
    else if any_in (href result) ["wikipedia"; "arxiv"; "scholar"]
    then (quality_score + (2 # 10))%Q
    else quality_score in
  Qmin quality_score 1.

Definition _identify_source_type (url : string) : string :=
  if contains url ".edu" then "academic"
  else if contains url ".gov" then "government"
  else if contains url ".org" then "organization"
  else if contains url "wikipedia" then "encyclopedia"
  else if contains url "arxiv" then "preprint"
  else if any_in url ["bbc"; "cnn"; "reuters"; "ap"; "news"] then "news"
  else "general".

(** One processed search result. *)
Record search_result := {
  result_title : string;
  snippet : string;
  url : string;
  relevance_score : Q;
  content_quality : Q;
  source_type : string
}.

Definition process_result (query : string) (result : hit) : exn search_result :=
  match _calculate_relevance query result with
  | Raise e => Raise e
  | Ok relevance =>
      Ok {| result_title := title result; snippet := body result; url := href result;
            relevance_score := relevance;
            content_quality := _assess_content_quality result;
            source_type := _identify_source_type (href result) |}
  end.

(** The loop that fills [results]; the first exception ends it. *)
Fixpoint process_results (query : string) (hits : list hit) : exn (list search_result) :=
  match hits with
  | [] => Ok []
  | h :: rest =>
      match process_result query h with
      | Raise e => Raise e
      | Ok r =>
          match process_results query rest with
          | Raise e => Raise e
          | Ok rs => Ok (r :: rs)
          end
      end
  end.

(** *** [list.sort(key=..., reverse=True)]

    The sort of Python lists compares keys with [<] only and is stable;
    with [reverse=True] the list is reversed, sorted in ascending order and
    reversed again, which keeps hits of equal key in their input order.
    The ascending sort is written as an insertion sort. *)
Section Sort.
Context {A : Type}.
Variable key : A -> Q.

Definition key_lt (x y : A) : bool := negb (Qle_bool (key y) (key x)).

Fixpoint insert (x : A) (l : list A) : list A :=
  match l with
  | [] => [x]
  | y :: l' => if key_lt y x then y :: insert x l' else x :: y :: l'
  end.

Fixpoint sort_ascending (l : list A) : list A :=
  match l with
  | [] => []
  | x :: l' => insert x (sort_ascending l')
  end.

Definition sort_reverse (l : list A) : list A :=
  rev (sort_ascending (rev l)).

(** The two orders on elements that the keys give, and the test that an
    element has a given key. *)
Definition ascending (x y : A) : Prop := (key x <= key y)%Q.
Definition descending (x y : A) : Prop := (key y <= key x)%Q.
Definition has_key (k : Q) (x : A) : bool := Qeq_bool (key x) k.
End Sort.

(** The key of the sort in [advanced_web_search]. *)
Definition combined_score (x : search_result) : Q :=
  ((relevance_score x + content_quality x) / 2)%Q.

Definition rank (results : list search_result) : list search_result :=
  sort_reverse combined_score results.

(** [l[:n]] for an [int] [n]: the first [n] items of [l], and for a negative
    [n] all items but the last [-n]. *)
Definition slice_to {A : Type} (n : Z) (l : list A) : list A :=
  if (0 <=? n)%Z then firstn (Z.to_nat n) l
  else firstn (length l - Z.to_nat (- n)) l.

(** The results of [advanced_web_search] for the hits the provider
    returned. *)
Definition ranked_results (query : string) (search_results : list hit) (max_results : Z)
    : exn (list search_result) :=
  match process_results query (slice_to max_results search_results) with
  | Raise e => Raise e
  | Ok results => Ok (rank results)
  end.

End SearchTool.

(** ** The rest of [citation_validator_tool.py] *)

Module CitationReport.
Import PyStr CitationValidator.

Definition line_feed : string := String (ascii_of_N 10) EmptyString.

(** [s.split(sep)] for a separator that is not empty: the pieces between the
    occurrences of [sep], found from the left and not overlapping. [cur] is
    the piece being read, reversed; [skip] counts the characters of [s]
    still inside the occurrence just found. *)
Fixpoint split_on_from (sep cur : string) (skip : nat) (s : string) : list string :=
  match s with
  | EmptyString => [reverse cur]
  | String c t =>
      match skip with
      | S k => split_on_from sep cur k t
      | O =>
          if String.prefix sep s
          then reverse cur :: split_on_from sep EmptyString (String.length sep - 1) t
          else split_on_from sep (String c cur) 0 t
      end
  end.

Definition split_on (sep s : string) : list string := split_on_from sep EmptyString 0 s.

(** The separators of [_parse_citations]. The second one of the code, a line
    feed and the bullet U+2022, has a character outside the 8-bit alphabet:
    it occurs in no text here and splitting on it changes nothing, so it is
    not listed. *)
Definition separators : list string :=
  [String.append line_feed line_feed; String.append line_feed "-";
   String.append line_feed "1."; String.append line_feed "2.";
   String.append line_feed "3."].

(** One turn of the loop over the separators. *)
Definition split_all (citations : list string) (sep : string) : list string :=
  flat_map (split_on sep) citations.

Definition keep_citation (c : string) : bool :=
  truthy (Some (strip c)) && (20 <? String.length (strip c))%nat.

Definition _parse_citations (citations_text : string) : list string :=
  let citations := fold_left split_all separators [citations_text] in
  List.map strip (List.filter keep_citation citations).

(** *** Formatting *)

Definition part_if (components : gmap string string) (k : string) (f : string -> string)
    : list string :=
  if truthy (components !! k) then [f (default EmptyString (components !! k))] else [].

Definition quoted_title (t : string) : string :=
  String dquote (String.append t (String dquote EmptyString)).

Definition starred (j : string) : string :=
  String.append "*" (String.append j "*").

Definition parenthesized (y : string) : string :=
  String.append "(" (String.append y ")").

Definition _format_apa_citation (components : gmap string string) : string :=
  let parts :=
    (part_if components "author" (fun a => a)
     ++ part_if components "year" parenthesized
     ++ part_if components "title" (fun t => t)
     ++ part_if components "journal" starred
     ++ part_if components "url" (fun u => String.append "Retrieved from " u))%list in
  String.append (String.concat ". " parts) ".".

Section Formatting.

(** What [datetime.now().strftime] prints at the time of the call, in the
    format of each of the two styles that show the date. *)
Variable today_mla : string.
Variable today_chicago : string.

Definition _format_mla_citation (components : gmap string string) : string :=
  let parts :=
    (part_if components "author" (fun a => a)
     ++ part_if components "title" quoted_title
     ++ part_if components "journal" starred
     ++ part_if components "year" (fun y => y)
     ++ part_if components "url" (fun _ => String.append "Web. " today_mla))%list in
  String.append (String.concat ", " parts) ".".

Definition _format_chicago_citation (components : gmap string string) : string :=
  let parts :=
    (part_if components "author" (fun a => a)
     ++ part_if components "title" quoted_title
     ++ part_if components "journal" starred
     ++ part_if components "year" parenthesized
     ++ part_if components "url"
          (fun u => String.append "accessed "
                      (String.append today_chicago (String.append ", " u))))%list in
  String.append (String.concat ", " parts) ".".

Definition _format_citation (components : gmap string string) (style : string) : string :=
  if String.eqb (upper style) "APA" then _format_apa_citation components
  else if String.eqb (upper style) "MLA" then _format_mla_citation components
  else if String.eqb (upper style) "CHICAGO" then _format_chicago_citation components
  else _format_apa_citation components.

End Formatting.

(** *** Recommendations and the report *)

(** [any(pattern in issue for issue in issues)] *)
Definition any_issue (pattern : string) (issues : list string) : bool :=
  existsb (fun issue => contains issue pattern) issues.

(** [_generate_recommendations], on the three entries of the results it
    reads: the issues found, the overall quality score and the style. *)
Definition _generate_recommendations (issues : list string) (quality_score : Q)
    (style : string) : list string :=
  ((if any_issue "Missing author" issues
    then ["Add author information for incomplete citations"] else [])
   ++ (if any_issue "Missing year" issues
       then ["Include publication years for all sources"] else [])
   ++ (if any_issue "Missing title" issues
       then ["Provide complete titles for all cited works"] else [])
   ++ (if any_issue "URL not accessible" issues
       then ["Verify all URLs are accessible and current"] else [])
   ++ (if negb (Qle_bool (7 # 10) quality_score)
       then ["Review citations for completeness and accuracy"] else [])
   ++ (if negb (Qle_bool (5 # 10) quality_score)
       then ["Consider using more authoritative sources"] else [])
   ++ [String.append "Ensure all citations follow "
         (String.append style " formatting guidelines")])%list.

Record validation_summary := {
  total_citations : nat;
  valid_citations : nat;
  validation_rate : Q;
  overall_quality_score : Q;
  needs_improvement : bool
}.

Record validation_report := {
  citation_style : string;
  input_citations : string;
  summary : validation_summary;
  validated_citations : list validation_result;
  issues_found : list string;
  recommendations : list string
}.

Section Report.

Variable _validate_url_accessibility : string -> url_check.

(** One turn of the loop over the citations: the index, the records so far,
    the count of the valid ones and the issues collected. *)
Definition validate_step (style : string)
    (st : nat * list validation_result * nat * list string) (citation : string)
    : nat * list validation_result * nat * list string :=
  let '(idx, validated, valid, found) := st in
  let r := _validate_single_citation _validate_url_accessibility citation style (idx + 1) in
  (S idx, (validated ++ [r])%list, if is_valid r then S valid else valid,
   (found ++ issues r)%list).

(** The body of [citation_validator] once the citations are parsed. *)
Definition validate_all (citation_list : list string) (citations style : string)
    : validation_report :=
  let '(_, validated, valid, found) :=
    fold_left (validate_step style) citation_list (O, [], O, []) in
  let total := length citation_list in
  let quality := _calculate_overall_quality validated in
  {| citation_style := style;
     input_citations := citations;
     summary :=
       {| total_citations := total;
          valid_citations := valid;
          validation_rate :=
            if (0 <? total)%nat
            then (inject_Z (Z.of_nat valid) / inject_Z (Z.of_nat total))%Q else 0%Q;
          overall_quality_score := quality;
          needs_improvement := (valid <? total)%nat |};
     validated_citations := validated;
     issues_found := found;
     recommendations := _generate_recommendations found quality style |}.

Definition citation_validator (citations style : string) : validation_report :=
  validate_all (_parse_citations citations) citations style.

End Report.

(** *** [validate_doi] *)

(** [re.match(r'^10\.\d{4,}/[^\s]+$', doi)]: the end anchor also holds
    before a line feed that ends the text. *)
Definition doi_format (doi : string) : bool :=
  match drop_prefix "10." doi with
  | None => false
  | Some r =>
      let (digits, r2) := span isdigit r in
      (4 <=? String.length digits)%nat
      && match drop_prefix "/" r2 with
         | None => false
         | Some r3 =>
             let (run, rest) := span (fun c => negb (isspace c)) r3 in
             match run with
             | EmptyString => false
             | _ => String.eqb rest EmptyString || String.eqb rest line_feed
             end
         end
  end.

Section Doi.

(** The status code [requests.head] reports for a URL, or nothing when the
    request raises. *)
Variable head_status : string -> option nat.

Definition validate_doi (doi : string) : bool :=
  if doi_format doi then
    match head_status (String.append "https://doi.org/" doi) with
    | Some code => (code =? 200)%nat || (code =? 302)%nat
    | None => false
    end
  else false.

End Doi.

End CitationReport.

(** ** The rest of [advanced_web_search] *)

Module SearchReport.
Import PyStr SearchTool.

Record search_metadata := {
  total_results : nat;
  avg_relevance : Q
}.

(** [sum(r[relevance_score] for r in results) / len(results) if results
    else 0] *)
Definition average_relevance (results : list search_result) : Q :=
  match results with
  | [] => 0%Q
  | _ =>
      (fold_left (fun acc r => (acc + relevance_score r)%Q) results 0%Q
       / nat_Q (length results))%Q
  end.

(** What [advanced_web_search] returns for the hits of the provider: the
    ranked results and the metadata computed from them, or the exception its
    handler reports. *)
Definition search_output (query : string) (search_results : list hit) (max_results : Z)
    : exn (search_metadata * list search_result) :=
  match ranked_results query search_results max_results with
  | Raise e => Raise e
  | Ok results =>
      Ok ({| total_results := length results;
             avg_relevance := average_relevance results |}, results)
  end.

End SearchReport.

(** ** The formulas of the specification, and the inputs of the examples *)

Module Spec.
Import PyStr.

(** The overlap ratio as the specification words it: the claim tokens that
    are also word tokens of the lower-cased source text, over the claim
    tokens. *)
Definition token_overlap_ratio (claim sources : string) : Q :=
  let claim_tokens : gset string := list_to_set (findall_words (lower claim)) in
  let source_tokens : gset string := list_to_set (findall_words (lower sources)) in
  if bool_decide (claim_tokens = ∅) then 0%Q
  else (inject_Z (Z.of_nat (size (claim_tokens ∩ source_tokens)))
        / inject_Z (Z.of_nat (size claim_tokens)))%Q.

(** The overlap ratio over the claim tokens in their order of first
    occurrence, a token counting when it occurs anywhere in the lower-cased
    source text. *)
Definition substring_overlap_ratio (claim sources : string) : Q :=
  let tokens := remove_dups (findall_words (lower claim)) in
  match tokens with
  | [] => 0%Q
  | _ =>
      (inject_Z (Z.of_nat (length (List.filter (fun t => contains (lower sources) t) tokens)))
       / inject_Z (Z.of_nat (length tokens)))%Q
  end.

End Spec.

Module Examples.
Import PyStr CitationValidator FactChecker SearchTool.

Definition quoted (s : string) : string :=
  String dquote (String.append s (String dquote EmptyString)).

Definition vol_12_2020 : string := "Vol. 12 (2020)".

(** Author, year in parentheses, quoted title, journal between asterisks
    and a URL. *)
Definition full_citation : string :=
  String.append "Smith (2020). "
    (String.append (quoted "Deep Learning") ". *Nature*. https://example.org/paper").

(** A title, a journal and a URL. *)
Definition sourced_citation : string :=
  String.append (quoted "Deep Learning") ". *Nature*. https://example.org/paper".

(** The components read from this text are an author, a title and a
    year. *)
Definition author_title_year : string :=
  String.append "Smith (20) " (String.append (quoted "Deep Learning") " 2020").

(** The components read from this text are an author and a year. *)
Definition author_year : string := "Smith (20) wrote this in 2020".

Definition unreachable (u : string) : url_check :=
  {| is_accessible := false; error := Some "Connection failed" |}.

(** The first [n] of the tokens [xy], [xiy], [xiiy], ..., each after a
    space: a token has its number of letters [i] between [x] and [y], so
    none occurs inside another. *)
Fixpoint unary (k : nat) : string :=
  match k with
  | O => EmptyString
  | S j => String "i" (unary j)
  end.

Fixpoint numbered_tokens (n : nat) : string :=
  match n with
  | O => EmptyString
  | S k =>
      String.append (numbered_tokens k)
        (String.append " x" (String.append (unary k) "y"))
  end.

(** Three results; the first and the last have the same combined score. *)
Definition scored (name : string) (relevance quality : Q) : search_result :=
  {| result_title := name; snippet := EmptyString; url := EmptyString;
     relevance_score := relevance; content_quality := quality;
     source_type := "general" |}.

Definition three_results : list search_result :=
  [scored "first" (1 # 2) (7 # 10); scored "second" (9 # 10) (9 # 10);
   scored "third" (7 # 10) (1 # 2)].

(** Ten claims, and seven, as one text each. *)
Definition ten_claims : string :=
  String.concat " " (repeat "The moon is made of cheese." 10).

Definition seven_claims : string :=
  String.concat " " (repeat "The cat sat on the mat." 7).

(** Three hits of a provider. *)
Definition three_hits : list SearchTool.hit :=
  [{| SearchTool.title := "Cooking at home"; SearchTool.body := "Recipes for every day";
      SearchTool.href := "https://food.example.com/home" |};
   {| SearchTool.title := "Deep Learning for Vision";
      SearchTool.body := "A survey of learning methods";
      SearchTool.href := "https://example.edu/survey" |};
   {| SearchTool.title := "Learning to rank"; SearchTool.body := "Deep models for ranking";
      SearchTool.href := "https://arxiv.org/abs/0000" |}].

End Examples.

(** ** The vocabulary of the properties *)

Module Notions.
Import PyStr CitationValidator FactChecker SearchTool CitationReport SearchReport.

(** [x] occurs in [s] as a contiguous piece. *)
Definition occurs_in (x s : string) : Prop :=
  exists pre post, s = String.append pre (String.append x post).

(** The characters of a text. *)
Definition chars (s : string) : list ascii := list_ascii_of_string s.

(** A text that is empty or begins with a character that is no white
    space. *)
Definition starts_clean (s : string) : Prop :=
  match s with
  | EmptyString => True
  | String c _ => isspace c = false
  end.

(** A character on which [_parse_claims] splits. *)
Definition is_separator (c : ascii) : bool :=
  match sep_of c with
  | NoSep => false
  | _ => true
  end.

(** Status and confidence go together. *)
Definition consistent (v : verification) : Prop :=
  (verification_status v = strongly_supported /\ confidence_score v = 9 # 10)
  \/ (verification_status v = partially_supported /\ confidence_score v = 6 # 10)
  \/ (verification_status v = insufficient_evidence /\ confidence_score v = 3 # 10).

(** A match that is a prefix of the text it is found in. *)
Definition matches_prefix (m : string -> option string) : Prop :=
  forall s x, m s = Some x -> exists rest, s = String.append x rest.

(** The test [components.get(k)] of the scoring and of the formatters. *)
Definition present (components : gmap string string) (k : string) : bool :=
  truthy (components !! k).

(** A share of the score that is earned on a condition. *)
Definition bonus (b : bool) (q : Q) : Q := if b then q else 0%Q.

(** A message that is recorded on a condition. *)
Definition note (b : bool) (msg : string) : list string := if b then [msg] else [].

(** What the loop over the citations keeps. *)
Definition loop_invariant (st : nat * list validation_result * nat * list string) : Prop :=
  let '(idx, validated, valid, found) := st in
  idx = length validated
  /\ valid = length (List.filter is_valid validated)
  /\ found = flat_map issues validated
  /\ Forall (fun r => (0 <= quality_score r <= 1)%Q) validated.

(** The last recommendation of every report. *)
Definition style_reminder (style : string) : string :=
  String.append "Ensure all citations follow " (String.append style " formatting guidelines").

(** The processed results follow the hits one by one. *)
Definition processed_from (query : string) (h : hit) (r : search_result) : Prop :=
  result_title r = title h /\ snippet r = body h /\ url r = href h
  /\ _calculate_relevance query h = Ok (relevance_score r)
  /\ content_quality r = _assess_content_quality h
  /\ source_type r = _identify_source_type (href h).

(** The line feed. *)
Definition new_line : ascii := ascii_of_N 10.

(** A line that joins well: it is not empty, holds no line feed and does
    not begin like a list item. *)
Definition joinable (c : string) : Prop :=
  c <> EmptyString
  /\ Forall (fun a => is_char new_line a = false) (chars c)
  /\ Forall (fun p => startswith c p = false) ["-"; "1."; "2."; "3."].

(** What may follow a citation in the joined text. *)
Definition at_line_end (tail : string) : Prop :=
  tail = EmptyString \/ exists rest, tail = String new_line rest.

End Notions.

(** * Properties *)

Import PyStr CitationValidator FactChecker SearchTool.

(** ** The patterns on sample texts *)

Example url_first_match :
  search match_url "see http://a.org/x, and https://b.org" = Some "http://a.org/x,".
Proof. reflexivity. Qed.

Example url_needs_a_body :
  search match_url "httpss://a https:// http://<x" = None.
Proof. reflexivity. Qed.

Example year_groups :
  findall_year "12020 2020a _2020 v2020 (2020)1999" = ["20"; "19"].
Proof. reflexivity. Qed.

Example doi_first_match :
  search match_doi "doi:10.1234/abc.def rest" = Some "10.1234/abc.def"
  /\ search match_doi "10.123/abc" = None.
Proof. split; reflexivity. Qed.

Example journal_first_match :
  first_match journal_patterns "a **b* c* _d_" = Some "b".
Proof. reflexivity. Qed.

Example author_group :
  search (match_author "20") "J. Smith and A. Doe   (20) x" = Some " Doe"
  /\ option_map strip (search (match_author "20") " (20)") = Some EmptyString.
Proof. split; reflexivity. Qed.

Example words_of_text :
  findall_words (lower "It's a_b, c-d") = ["it"; "s"; "a_b"; "c"; "d"]
  /\ split (lower "  Hello   World ") = ["hello"; "world"].
Proof. split; reflexivity. Qed.

Example sentences_of_text :
  re_split "One. Two!?Three.." = ["One"; " Two"; "Three"; EmptyString]
  /\ _parse_claims "The cat sat on the mat. Short. www.example.org is a site! Dogs are loyal"
     = ["The cat sat on the mat"; "org is a site"; "Dogs are loyal"].
Proof. split; reflexivity. Qed.

(** ** Lookups in the components *)

Lemma lookup_set_if_ne (k k' : string) (v : option string) (d : gmap string string) :
  k ≠ k' -> set_if k v d !! k' = d !! k'.
Proof.
  intros Hne. destruct v as [x|]; simpl; [|reflexivity].
  by rewrite lookup_insert_ne.
Qed.

Lemma lookup_set_if_eq (k : string) (v : option string) (d : gmap string string) :
  set_if k v d !! k = match v with Some x => Some x | None => d !! k end.
Proof.
  destruct v as [x|]; simpl; [|reflexivity].
  by rewrite lookup_insert_eq.
Qed.

(** The author is set only under a year, and no step touches another key. *)
Lemma lookup_author_step (k : string) (c : string) (d : gmap string string) :
  k ≠ "author" ->
  (if truthy (d !! "year") then
     match d !! "year" with
     | Some year => set_if "author" (option_map strip (search (match_author year) c)) d
     | None => d
     end
   else d) !! k = d !! k.
Proof.
  intros Hne. destruct (truthy (d !! "year")); [|reflexivity].
  destruct (d !! "year"); [|reflexivity].
  by rewrite lookup_set_if_ne.
Qed.

Lemma extracted_year (citation : string) :
  _extract_citation_components citation !! "year" = last (findall_year citation).
Proof.
  unfold _extract_citation_components.
  rewrite lookup_set_if_ne by discriminate.
  rewrite lookup_author_step by discriminate.
  rewrite !lookup_set_if_ne by discriminate.
  rewrite lookup_set_if_eq.
  destruct (last (findall_year citation)); [reflexivity|].
  by rewrite lookup_set_if_ne.
Qed.

Lemma extracted_source (citation : string) :
  _extract_citation_components citation !! "source" = None.
Proof.
  unfold _extract_citation_components.
  rewrite lookup_set_if_ne by discriminate.
  rewrite lookup_author_step by discriminate.
  by rewrite !lookup_set_if_ne by discriminate.
Qed.

(** ** The year group *)

Lemma match_year_group (s g : string) :
  match_year s = Some g -> g = "19" \/ g = "20".
Proof.
  unfold match_year.
  destruct s as [|c1 [|c2 [|d1 [|d2 rest]]]]; try discriminate.
  destruct (String.eqb (String c1 (String c2 EmptyString)) "19") eqn:E19.
  - apply String.eqb_eq in E19. intros H.
    destruct (_ && _) in H; [|discriminate]. left. congruence.
  - destruct (String.eqb (String c1 (String c2 EmptyString)) "20") eqn:E20.
    + apply String.eqb_eq in E20. intros H.
      destruct (_ && _) in H; [|discriminate]. right. congruence.
    + simpl. discriminate.
Qed.

Lemma findall_year_groups (s : string) :
  forall (prev_word : bool) (skip : nat),
    Forall (fun g => g = "19" \/ g = "20") (findall_year_from prev_word skip s).
Proof.
  induction s as [|c t IH]; intros prev_word skip; cbn [findall_year_from]; [constructor|].
  destruct skip as [|k]; [|apply IH].
  destruct (if prev_word then None else match_year (String c t)) as [g|] eqn:E.
  - constructor; [|apply IH].
    destruct prev_word; [discriminate|]. by apply match_year_group in E.
  - apply IH.
Qed.

Lemma year_is_a_two_digit_group (citation : string) :
  _extract_citation_components citation !! "year" = None
  \/ _extract_citation_components citation !! "year" = Some "19"
  \/ _extract_citation_components citation !! "year" = Some "20".
Proof.
  rewrite extracted_year.
  destruct (last (findall_year citation)) as [y|] eqn:E; [right|by left].
  apply last_Some in E as [l' E].
  pose proof (findall_year_groups citation false 0) as H.
  fold (findall_year citation) in H. rewrite E in H.
  apply Forall_app in H as [_ H]. inversion H as [|? ? [-> | ->] _]; auto.
Qed.

(** C1. On the text [Vol. 12 (2020)] the specification expects the year
    [2020]; the code stores [20], what the capturing group [(19|20)] of the
    year pattern matched. Whatever the citation, the year component is absent
    or one of the two groups, never a four-character string. *)
Theorem year_of_vol_12_2020_is_the_century :
  _extract_citation_components Examples.vol_12_2020 !! "year" = Some "20"
  /\ _extract_citation_components Examples.vol_12_2020 !! "year" <> Some "2020"
  /\ forall citation,
       _extract_citation_components citation !! "year" = None
       \/ _extract_citation_components citation !! "year" = Some "19"
       \/ _extract_citation_components citation !! "year" = Some "20".
Proof.
  split; [|split].
  - vm_compute. reflexivity.
  - vm_compute. discriminate.
  - apply year_is_a_two_digit_group.
Qed.

(** C2. On a citation made of an author, a year in parentheses, a quoted
    title, a journal between asterisks and a URL, the code returns four
    fields: the year is the two-character group [20], and no author is found,
    because the author pattern looks for [(20)]. *)
Theorem full_citation_components :
  _extract_citation_components Examples.full_citation
  = <["url" := "https://example.org/paper"]>
      (<["year" := "20"]>
         (<["title" := "Deep Learning"]>
            (<["journal" := "Nature"]> ∅)))
  /\ _extract_citation_components Examples.full_citation !! "author" = None
  /\ _extract_citation_components Examples.full_citation !! "year" <> Some "2020".
Proof.
  split; [|split].
  - vm_cast_no_check (eq_refl (_extract_citation_components Examples.full_citation)).
  - vm_compute. reflexivity.
  - vm_compute. discriminate.
Qed.

(** ** Scoring a citation *)

Lemma required_apa_mla (style : string) :
  upper style = "APA" \/ upper style = "MLA" ->
  _get_required_components style = ["author"; "title"; "year"; "source"].
Proof.
  unfold _get_required_components. by intros [-> | ->].
Qed.

(** The key [Chicago] of the table is never the upper-cased style. *)
Lemma required_chicago :
  _get_required_components "Chicago" = ["author"; "title"; "year"].
Proof. reflexivity. Qed.

(** C3. A citation whose components hold a journal and a URL, validated in
    APA style: the validator looks the source up under the name [source],
    which the extraction never fills, reports the source as missing, records
    no strength for it and gives no share of the score for it: the title
    earns a quarter and the URL its bonus. And for the style [Chicago] the
    required components are author, title and year only: the entry of the
    table is keyed [Chicago] and looked up with the upper-cased style. *)
Theorem sourced_citation_misses_source :
  let components := _extract_citation_components Examples.sourced_citation in
  let r := _validate_single_citation Examples.unreachable Examples.sourced_citation "APA" 1 in
  (components !! "journal" = Some "Nature"
   /\ components !! "url" = Some "https://example.org/paper"
   /\ components !! "source" = None
   /\ issues r = ["Missing author"; "Missing year"; "Missing source";
                  "URL not accessible: Connection failed"]
   /\ strengths r = ["Has title"; "Includes URL"]
   /\ quality_score r == 3 # 10)
  /\ _get_required_components "APA" = ["author"; "title"; "year"; "source"]
  /\ _get_required_components "Chicago" = ["author"; "title"; "year"]
  /\ ~ In "Missing source"
         (issues (_validate_single_citation Examples.unreachable
                    Examples.sourced_citation "Chicago" 1)).
Proof.
  cbv zeta. split; [by vm_compute|]. split; [reflexivity|]. split; [reflexivity|].
  vm_compute. intuition discriminate.
Qed.

(** The cases of a score: each presence test is replaced by its value. *)
Ltac score_cases :=
  repeat match goal with
    | |- context [truthy ?o] =>
        let b := fresh "present" in
        generalize (truthy o); intros b; destruct b
    | |- context [is_accessible ?c] =>
        let b := fresh "reachable" in
        generalize (is_accessible c); intros b; destruct b
    end.

(** How far the defect goes. For the styles APA and MLA, in any letter case,
    the required components are author, title, year and source. The source
    is looked up under its own name, which the extraction never fills: for
    every citation a [Missing source] issue is recorded, no [Has source]
    strength is, and the score is the quarters earned by author, title and
    year plus the bonuses, capped at one, whatever the journal or the URL. *)
Lemma source_share_is_never_earned
    (check : string -> url_check) (citation style : string) (number : nat) :
  upper style = "APA" \/ upper style = "MLA" ->
  let components := _extract_citation_components citation in
  let r := _validate_single_citation check citation style number in
  let share (k : string) : Q := if truthy (components !! k) then 1 # 4 else 0%Q in
  let bonus (b : bool) (q : Q) : Q := if b then q else 0%Q in
  _get_required_components style = ["author"; "title"; "year"; "source"]
  /\ In "Missing source" (issues r)
  /\ ~ In "Has source" (strengths r)
  /\ quality_score r ==
       Qmin (share "author" + share "title" + share "year"
             + bonus (truthy (components !! "doi")) (1 # 10)
             + bonus (truthy (components !! "url")) (5 # 100)
             + bonus (truthy (components !! "url")
                      && is_accessible (check (default EmptyString (components !! "url"))))
                 (1 # 10)) 1.
Proof.
  intros Hstyle components r share bonus.
  pose proof (required_apa_mla style Hstyle) as Hreq.
  split; [exact Hreq|].
  subst r share bonus. unfold _validate_single_citation.
  rewrite Hreq. unfold _validate_components, required_step. cbn [fold_left].
  fold components. replace (components !! "source") with (@None string)
    by (symmetry; apply extracted_source).
  cbn [truthy].
  score_cases; cbn;
    (split; [tauto | split; [intuition discriminate | by vm_compute]]).
Qed.

Lemma source_share_is_never_earned_witness :
  upper "apa" = "APA"
  /\ In "Missing source"
       (issues (_validate_single_citation Examples.unreachable Examples.sourced_citation "apa" 1)).
Proof.
  split; [reflexivity|].
  exact (proj1 (proj2 (source_share_is_never_earned Examples.unreachable
                         Examples.sourced_citation "apa" 1 (or_introl eq_refl)))).
Defined.

(** C4, the claim on a concrete citation: the components are an author and
    a year, the style is APA, and the score is two quarters, one half, which
    is not 0.67 to two decimals. *)
Lemma author_and_year_score_one_half :
  let components := _extract_citation_components Examples.author_year in
  let r := _validate_single_citation Examples.unreachable Examples.author_year "APA" 1 in
  components = <["author" := "Smith"]> (<["year" := "20"]> ∅)
  /\ _get_required_components "APA" = ["author"; "title"; "year"; "source"]
  /\ quality_score r == 1 # 2
  /\ ~ (665 # 1000 <= quality_score r <= 675 # 1000)%Q
  /\ is_valid r = false.
Proof.
  cbv zeta. split; [|split; [|split; [|split]]].
  - vm_cast_no_check (eq_refl (_extract_citation_components Examples.author_year)).
  - reflexivity.
  - vm_compute. reflexivity.
  - vm_compute. intros [H _]. by apply H.
  - vm_compute. reflexivity.
Qed.

(** C4, as the code has it. Under APA a citation whose components are an
    author, a title and a year, without DOI and without URL, scores three
    quarters and is valid; with an author and a year only it scores one half
    and is not valid. *)
Theorem apa_boundary_scores
    (check : string -> url_check) (citation : string) (number : nat) :
  let components := _extract_citation_components citation in
  let r := _validate_single_citation check citation "APA" number in
  truthy (components !! "author") = true ->
  truthy (components !! "year") = true ->
  truthy (components !! "doi") = false ->
  truthy (components !! "url") = false ->
  (truthy (components !! "title") = true -> quality_score r == 3 # 4 /\ is_valid r = true)
  /\ (truthy (components !! "title") = false -> quality_score r == 1 # 2 /\ is_valid r = false).
Proof.
  intros components r Hauthor Hyear Hdoi Hurl.
  subst r. unfold _validate_single_citation.
  rewrite (required_apa_mla "APA") by (by left).
  unfold _validate_components, required_step. cbn [fold_left].
  fold components. rewrite Hauthor, Hyear, Hdoi, Hurl.
  replace (components !! "source") with (@None string)
    by (symmetry; apply extracted_source).
  cbn [truthy].
  split; intros ->; by vm_compute.
Qed.

Lemma apa_boundary_scores_witness :
  (quality_score (_validate_single_citation Examples.unreachable Examples.author_title_year "APA" 1)
     == 3 # 4
   /\ is_valid (_validate_single_citation Examples.unreachable Examples.author_title_year "APA" 1)
      = true)
  /\ (quality_score (_validate_single_citation Examples.unreachable Examples.author_year "APA" 1)
        == 1 # 2
      /\ is_valid (_validate_single_citation Examples.unreachable Examples.author_year "APA" 1)
         = false).
Proof.
  split.
  - apply (apa_boundary_scores Examples.unreachable Examples.author_title_year 1);
      reflexivity.
  - apply (apa_boundary_scores Examples.unreachable Examples.author_year 1);
      reflexivity.
Defined.

(** ** The overlap ratio *)

Lemma filter_length_Permutation {A : Type} (f : A -> bool) (l l' : list A) :
  Permutation l l' -> length (List.filter f l) = length (List.filter f l').
Proof.
  induction 1 as [|x l l' _ IH|x y l|l l' l'' _ IH1 _ IH2]; simpl.
  - reflexivity.
  - destruct (f x); simpl; congruence.
  - destruct (f x), (f y); reflexivity.
  - congruence.
Qed.

Lemma list_to_set_remove_dups (l : list string) :
  list_to_set (C := gset string) l = list_to_set (remove_dups l).
Proof.
  apply set_eq. intros x. by rewrite !elem_of_list_to_set, elem_of_remove_dups.
Qed.

(** The set of the claim tokens lists the tokens without repetition, in some
    order. *)
Lemma elements_claim_keywords (claim : string) :
  Permutation (elements (claim_keywords claim)) (remove_dups (findall_words (lower claim))).
Proof.
  unfold claim_keywords. rewrite list_to_set_remove_dups.
  apply elements_list_to_set, NoDup_remove_dups.
Qed.

Lemma size_claim_keywords (claim : string) :
  size (claim_keywords claim) = length (remove_dups (findall_words (lower claim))).
Proof.
  unfold claim_keywords. rewrite list_to_set_remove_dups.
  apply size_list_to_set, NoDup_remove_dups.
Qed.

(** C5, the claim on a concrete input. The three tokens of the claim are no
    word of the source, so the ratio of the specification is zero; each of
    them occurs inside a word of the source, and the code computes one. *)
Lemma substrings_count_as_matches :
  keyword_overlap "cat and dog" "concatenate brandy dogma" == 1
  /\ Spec.token_overlap_ratio "cat and dog" "concatenate brandy dogma" == 0
  /\ ~ keyword_overlap "cat and dog" "concatenate brandy dogma"
       == Spec.token_overlap_ratio "cat and dog" "concatenate brandy dogma".
Proof. by vm_compute. Qed.

(** C5, as the code has it. The overlap ratio is the number of distinct
    lower-case word tokens of the claim that occur somewhere in the
    lower-cased source text, as substrings, over the number of distinct claim
    tokens, and zero when the claim has no token. The order in which the set
    of tokens is enumerated plays no part. *)
Theorem keyword_overlap_counts_substrings (claim sources : string) :
  keyword_overlap claim sources = Spec.substring_overlap_ratio claim sources.
Proof.
  unfold keyword_overlap, Spec.substring_overlap_ratio, matching_keywords.
  pose proof (size_claim_keywords claim) as Hsize.
  pose proof (elements_claim_keywords claim) as Hperm.
  rewrite (filter_length_Permutation _ _ _ Hperm), Hsize.
  case_bool_decide as Hempty.
  - rewrite Hempty, size_empty in Hsize.
    by destruct (remove_dups (findall_words (lower claim))).
  - destruct (remove_dups (findall_words (lower claim))) eqn:E; [|reflexivity].
    destruct Hempty. apply size_empty_iff in Hsize. by apply leibniz_equiv.
Qed.

(** ** The three buckets of a verification *)

(** C6. The status and the confidence of a verification are decided by the
    overlap ratio alone, in three buckets: from 0.7 on, strongly supported
    with confidence 0.9; from 0.4 on and below 0.7, partially supported with
    confidence 0.6; below 0.4, insufficient evidence with confidence 0.3. *)
Theorem verification_buckets (claim sources : string) (number : nat) :
  let r := keyword_overlap claim sources in
  let v := _verify_claim_against_sources claim sources number in
  ((7 # 10 <= r)%Q ->
   verification_status v = strongly_supported /\ confidence_score v = 9 # 10)
  /\ ((4 # 10 <= r)%Q /\ (r < 7 # 10)%Q ->
      verification_status v = partially_supported /\ confidence_score v = 6 # 10)
  /\ ((r < 4 # 10)%Q ->
      verification_status v = insufficient_evidence /\ confidence_score v = 3 # 10).
Proof.
  intros r v. subst v. unfold _verify_claim_against_sources. fold r.
  destruct (Qle_bool (7 # 10) r) eqn:H7; [|destruct (Qle_bool (4 # 10) r) eqn:H4].
  - apply Qle_bool_iff in H7. repeat split; intros; lra.
  - apply Qle_bool_iff in H4.
    assert (~ (7 # 10 <= r)%Q) by (rewrite <- Qle_bool_iff; congruence).
    repeat split; intros; lra.
  - assert (~ (7 # 10 <= r)%Q) by (rewrite <- Qle_bool_iff; congruence).
    assert (~ (4 # 10 <= r)%Q) by (rewrite <- Qle_bool_iff; congruence).
    repeat split; intros; lra.
Qed.

(** The boundary values of C6: ten claim tokens of which seven occur in the
    sources, ten of which four occur, and a hundred of which thirty-nine
    occur. *)
Lemma verification_buckets_witness :
  let v7 := _verify_claim_against_sources
              (Examples.numbered_tokens 10) (Examples.numbered_tokens 7) 1 in
  let v4 := _verify_claim_against_sources
              (Examples.numbered_tokens 10) (Examples.numbered_tokens 4) 1 in
  let v39 := _verify_claim_against_sources
               (Examples.numbered_tokens 100) (Examples.numbered_tokens 39) 1 in
  (keyword_overlap (Examples.numbered_tokens 10) (Examples.numbered_tokens 7) == 7 # 10
   /\ verification_status v7 = strongly_supported /\ confidence_score v7 = 9 # 10)
  /\ (keyword_overlap (Examples.numbered_tokens 10) (Examples.numbered_tokens 4) == 4 # 10
      /\ verification_status v4 = partially_supported /\ confidence_score v4 = 6 # 10)
  /\ (keyword_overlap (Examples.numbered_tokens 100) (Examples.numbered_tokens 39) == 39 # 100
      /\ verification_status v39 = insufficient_evidence /\ confidence_score v39 = 3 # 10).
Proof.
  split; [|split].
  - split; [by vm_compute|].
    apply (verification_buckets (Examples.numbered_tokens 10) (Examples.numbered_tokens 7) 1).
    by vm_compute.
  - split; [by vm_compute|].
    apply (verification_buckets (Examples.numbered_tokens 10) (Examples.numbered_tokens 4) 1).
    split; by vm_compute.
  - split; [by vm_compute|].
    apply (verification_buckets (Examples.numbered_tokens 100) (Examples.numbered_tokens 39) 1).
    by vm_compute.
Defined.

(** ** Relevance of a query without terms *)

Lemma query_terms_of_blank :
  query_terms EmptyString = ∅ /\ query_terms "   " = ∅.
Proof. split; vm_compute; reflexivity. Qed.

(** C7. For a query that splits into no term, the empty query or a blank
    one, the division by the number of terms raises [ZeroDivisionError]; no
    fallback value is returned, and the call of [advanced_web_search] that
    scores a hit for such a query fails with it. The method of the same name
    in [main.py] returns 0.5 there. *)
Theorem relevance_of_blank_query_raises (result : hit) :
  _calculate_relevance EmptyString result = Raise ZeroDivisionError
  /\ _calculate_relevance "   " result = Raise ZeroDivisionError
  /\ ranked_results "   " [result] 5 = Raise ZeroDivisionError.
Proof.
  assert (H : forall q, query_terms q = ∅ -> _calculate_relevance q result = Raise ZeroDivisionError).
  { intros q Hq. unfold _calculate_relevance. by rewrite Hq, size_empty. }
  destruct query_terms_of_blank as [H0 H3].
  split; [by apply H|]. split; [by apply H|].
  unfold ranked_results. change (slice_to 5 [result]) with [result].
  cbn [process_results]. unfold process_result.
  by rewrite (H _ H3).
Qed.

(** With at least one term the relevance is the weighted count of the
    matches over the number of terms, capped at one. *)
Lemma relevance_of_terms (query : string) (result : hit) :
  size (query_terms query) <> 0%nat ->
  _calculate_relevance query result
  = Ok (Qmin ((nat_Q (count_matches (query_terms query) (lower (title result))) * (7 # 10)
               + nat_Q (count_matches (query_terms query) (lower (body result))) * (3 # 10))
              / nat_Q (size (query_terms query))) 1).
Proof.
  intros Hsize. unfold _calculate_relevance.
  destruct (Nat.eqb_spec (size (query_terms query)) 0); [contradiction|reflexivity].
Qed.

(** ** Empty batches *)

(** C9. The overall quality of no citation record is zero, and the overall
    reliability of no claim is zero: for the empty list of claims, and for a
    text in which no claim is found. Both are values, not errors. *)
Theorem empty_batches_score_zero :
  _calculate_overall_quality [] = 0%Q
  /\ (forall sources, overall_reliability (check_claims [] sources) = 0%Q)
  /\ (forall sources,
        total_claims (fact_checker EmptyString sources) = 0%nat
        /\ overall_reliability (fact_checker EmptyString sources) = 0%Q).
Proof.
  split; [reflexivity|]. split; [reflexivity|]. intros sources. split; reflexivity.
Qed.

(** ** Confidence levels and the overall reliability *)

Lemma confidence_levels (claim sources : string) (number : nat) :
  confidence_score (_verify_claim_against_sources claim sources number) = 3 # 10
  \/ confidence_score (_verify_claim_against_sources claim sources number) = 6 # 10
  \/ confidence_score (_verify_claim_against_sources claim sources number) = 9 # 10.
Proof.
  unfold _verify_claim_against_sources.
  destruct (Qle_bool (7 # 10) _); [|destruct (Qle_bool (4 # 10) _)]; simpl; auto.
Qed.

(** A claim none of whose tokens occurs in the sources is in the lowest
    bucket. *)
Lemma confidence_without_match (claim sources : string) (number : nat) :
  matching_keywords claim sources = [] ->
  confidence_score (_verify_claim_against_sources claim sources number) = 3 # 10.
Proof.
  intros Hnone. unfold _verify_claim_against_sources.
  assert (Hzero : keyword_overlap claim sources == 0).
  { unfold keyword_overlap. rewrite Hnone. destruct (bool_decide _); [reflexivity|].
    unfold Qdiv. simpl inject_Z. apply Qmult_0_l. }
  assert (H7 : Qle_bool (7 # 10) (keyword_overlap claim sources) = false).
  { apply not_true_is_false. rewrite Qle_bool_iff. lra. }
  assert (H4 : Qle_bool (4 # 10) (keyword_overlap claim sources) = false).
  { apply not_true_is_false. rewrite Qle_bool_iff. lra. }
  by rewrite H7, H4.
Qed.

Lemma len_succ (n : nat) :
  inject_Z (Z.of_nat (S n)) == inject_Z (Z.of_nat n) + 1.
Proof. rewrite Nat2Z.inj_succ. unfold Z.succ. by rewrite inject_Z_plus. Qed.

Lemma len_positive {A : Type} (l : list A) :
  l <> [] -> (0 < inject_Z (Z.of_nat (length l)))%Q.
Proof.
  intros Hne. destruct l; [contradiction|].
  change 0%Q with (inject_Z 0). rewrite <- Zlt_Qlt. simpl length. lia.
Qed.

(** *** Rounding to binary64 *)

Section Rounding.
Import Binary64.
Local Open Scope Q_scope.

Lemma pow2_pos (e : Z) : 0 < pow2 e.
Proof. unfold pow2. apply Qpower_0_lt. reflexivity. Qed.

Lemma pow2_add (a b : Z) : pow2 (a + b) == pow2 a * pow2 b.
Proof. unfold pow2. apply Qpower_plus. discriminate. Qed.

Lemma pow2_le (a b : Z) : (a <= b)%Z -> pow2 a <= pow2 b.
Proof. intros H. unfold pow2. apply Qpower_le_compat_l; [exact H|]. discriminate. Qed.

Lemma pow2_nonneg_exponent (e : Z) : (0 <= e)%Z -> pow2 e == inject_Z (2 ^ e).
Proof. intros H. unfold pow2. symmetry. apply (Zpower_Qpower 2 e H). Qed.

Lemma pow2_cancel (e : Z) : pow2 (- e) * pow2 e == 1.
Proof. rewrite <- pow2_add. replace (- e + e)%Z with 0%Z by lia. reflexivity. Qed.

Lemma round_half_even_floor (q : Q) :
  (Qfloor q <= round_half_even q <= Qfloor q + 1)%Z.
Proof.
  unfold round_half_even.
  destruct (Qcompare (q - inject_Z (Qfloor q)) (1 # 2)); [destruct (Z.even (Qfloor q))| |]; lia.
Qed.

Lemma round_half_even_ge (z : Z) (q : Q) :
  inject_Z z <= q -> (z <= round_half_even q)%Z.
Proof.
  intros H. apply Qfloor_resp_le in H. rewrite Qfloor_Z in H.
  pose proof (round_half_even_floor q). lia.
Qed.

Lemma round_half_even_le (z : Z) (q : Q) :
  q <= inject_Z z -> (round_half_even q <= z)%Z.
Proof.
  intros H. pose proof (Qfloor_resp_le _ _ H) as Hf. rewrite Qfloor_Z in Hf.
  pose proof (round_half_even_floor q) as Hr.
  destruct (Z.eq_dec (Qfloor q) z) as [E|E]; [|lia].
  unfold round_half_even. pose proof (Qfloor_le q) as Hq. rewrite E in *.
  destruct (Qcompare_spec (q - inject_Z z) (1 # 2)) as [H1|H1|H1]; [lra|lia|lra].
Qed.

(** The exponent is the one of the binade of [q]. *)
Lemma ulp_exponent_low (q : Q) : 0 < q -> pow2 (ulp_exponent q + 52) <= q.
Proof.
  intros Hq. unfold ulp_exponent.
  set (e0 := (Z.log2 (Qnum q) - Z.log2 (Z.pos (Qden q)) - 52)%Z).
  destruct (Qle_bool (pow2 (e0 + 52)) q) eqn:E; [by apply Qle_bool_iff|].
  destruct q as [p d].
  assert (Hp0 : (0 < p)%Z) by (unfold Qlt in Hq; cbn in Hq; lia).
  cbn [Qnum Qden] in e0.
  destruct (Z.log2_spec p Hp0) as [Hp _].
  destruct (Z.log2_spec (Z.pos d) (Pos2Z.is_pos d)) as [_ Hd].
  set (lp := Z.log2 p) in *. set (ld := Z.log2 (Z.pos d)) in *.
  assert (Hlp : (0 <= lp)%Z) by apply Z.log2_nonneg.
  assert (Hld : (0 <= ld)%Z) by apply Z.log2_nonneg.
  replace (e0 - 1 + 52)%Z with (lp + - (ld + 1))%Z by (unfold e0, lp, ld; lia).
  assert (Hmul : pow2 (lp + - (ld + 1)) * pow2 (ld + 1) == pow2 lp).
  { rewrite <- pow2_add. replace (lp + - (ld + 1) + (ld + 1))%Z with lp by lia. reflexivity. }
  assert (Hd' : inject_Z (Z.pos d) <= pow2 (ld + 1)).
  { rewrite pow2_nonneg_exponent by lia. rewrite <- Zle_Qle. unfold Z.succ in Hd. lia. }
  assert (Hp' : pow2 lp <= inject_Z p).
  { rewrite pow2_nonneg_exponent by lia. rewrite <- Zle_Qle. lia. }
  assert (Hpd : p # d == inject_Z p / inject_Z (Z.pos d)) by apply Qmake_Qdiv.
  rewrite Hpd. apply Qle_shift_div_l.
  - change 0 with (inject_Z 0). rewrite <- Zlt_Qlt. lia.
  - pose proof (pow2_pos (lp + - (ld + 1))) as Hpos.
    apply Qle_trans with (pow2 (lp + - (ld + 1)) * pow2 (ld + 1)); [|by rewrite Hmul].
    apply Qmult_le_l; assumption.
Qed.

Lemma ulp_exponent_high (q : Q) : 0 < q -> q < pow2 (ulp_exponent q + 53).
Proof.
  intros Hq. unfold ulp_exponent.
  set (e0 := (Z.log2 (Qnum q) - Z.log2 (Z.pos (Qden q)) - 52)%Z).
  destruct (Qle_bool (pow2 (e0 + 52)) q) eqn:E.
  - destruct q as [p d].
    assert (Hp0 : (0 < p)%Z) by (unfold Qlt in Hq; cbn in Hq; lia).
    cbn [Qnum Qden] in e0.
    destruct (Z.log2_spec p Hp0) as [_ Hp].
    destruct (Z.log2_spec (Z.pos d) (Pos2Z.is_pos d)) as [Hd _].
    set (lp := Z.log2 p) in *. set (ld := Z.log2 (Z.pos d)) in *.
    assert (Hlp : (0 <= lp)%Z) by apply Z.log2_nonneg.
    assert (Hld : (0 <= ld)%Z) by apply Z.log2_nonneg.
    replace (e0 + 53)%Z with (lp + 1 + - ld)%Z by (unfold e0, lp, ld; lia).
    assert (Hmul : pow2 (lp + 1 + - ld) * pow2 ld == pow2 (lp + 1)).
    { rewrite <- pow2_add. replace (lp + 1 + - ld + ld)%Z with (lp + 1)%Z by lia. reflexivity. }
    assert (Hd' : pow2 ld <= inject_Z (Z.pos d)).
    { rewrite pow2_nonneg_exponent by lia. rewrite <- Zle_Qle. lia. }
    assert (Hp' : inject_Z p < pow2 (lp + 1)).
    { rewrite pow2_nonneg_exponent by lia. rewrite <- Zlt_Qlt. unfold Z.succ in Hp. lia. }
    assert (Hpd : p # d == inject_Z p / inject_Z (Z.pos d)) by apply Qmake_Qdiv.
    rewrite Hpd. apply Qlt_shift_div_r.
    + change 0 with (inject_Z 0). rewrite <- Zlt_Qlt. lia.
    + pose proof (pow2_pos (lp + 1 + - ld)) as Hpos.
      apply Qlt_le_trans with (pow2 (lp + 1)); [exact Hp'|].
      rewrite <- Hmul. apply Qmult_le_l; assumption.
  - replace (e0 - 1 + 53)%Z with (e0 + 52)%Z by lia.
    apply Qnot_le_lt. intros H. apply Qle_bool_iff in H. congruence.
Qed.

Lemma scaled_back (q : Q) (e : Z) : q * pow2 (- e) * pow2 e == q.
Proof. rewrite <- Qmult_assoc, pow2_cancel. apply Qmult_1_r. Qed.

(** The multiples of [pow2 eL] are on the grid of every finer exponent. *)
Lemma on_the_grid (m eL e : Z) :
  (e <= eL)%Z ->
  inject_Z m * pow2 eL * pow2 (- e) == inject_Z (m * 2 ^ (eL - e)).
Proof.
  intros H. rewrite <- Qmult_assoc, <- pow2_add.
  replace (eL + - e)%Z with (eL - e)%Z by lia.
  rewrite pow2_nonneg_exponent by lia. by rewrite inject_Z_mult.
Qed.

(** A double of a coarser exponent lies below the binade. *)
Lemma below_the_binade (m eL e : Z) :
  (Z.abs m < 2 ^ 53)%Z -> (eL < e)%Z -> inject_Z m * pow2 eL < pow2 (e + 52).
Proof.
  intros Hm He. pose proof (pow2_pos eL) as HeL.
  apply Qlt_le_trans with (inject_Z (2 ^ 53) * pow2 eL).
  - apply Qmult_lt_compat_r; [exact HeL|]. rewrite <- Zlt_Qlt. lia.
  - rewrite <- (pow2_nonneg_exponent 53) by lia. rewrite <- pow2_add.
    apply pow2_le. lia.
Qed.

Lemma round_positive_low (q : Q) :
  0 < q -> pow2 (ulp_exponent q + 52) <= round_positive q.
Proof.
  intros Hq. pose proof (ulp_exponent_low q Hq) as Hlow.
  unfold round_positive. set (e := ulp_exponent q) in *.
  pose proof (pow2_pos e) as He. pose proof (pow2_pos (- e)) as Hne.
  assert (H52 : (2 ^ 52 <= round_half_even (q * pow2 (- e)))%Z).
  { apply round_half_even_ge. rewrite <- (pow2_nonneg_exponent 52) by lia.
    apply Qle_trans with (pow2 (e + 52) * pow2 (- e)).
    - rewrite <- pow2_add. apply pow2_le. lia.
    - apply Qmult_le_compat_r; lra. }
  rewrite Z.add_comm, pow2_add, (pow2_nonneg_exponent 52) by lia.
  apply Qmult_le_compat_r; [|lra]. by rewrite <- Zle_Qle.
Qed.

(** The rounded value is on the grid of the binade and as near to [q] as
    the grid allows: within half a unit in the last place. *)
Lemma round_half_even_near (q : Q) :
  - (1 # 2) <= inject_Z (round_half_even q) - q <= 1 # 2.
Proof.
  unfold round_half_even.
  pose proof (Qfloor_le q) as Hlow. pose proof (Qlt_floor q) as Hhigh.
  rewrite inject_Z_plus in Hhigh. change (inject_Z 1) with 1 in Hhigh.
  destruct (Qcompare_spec (q - inject_Z (Qfloor q)) (1 # 2)) as [H|H|H].
  - destruct (Z.even (Qfloor q)); [lra|].
    rewrite inject_Z_plus. change (inject_Z 1) with 1. lra.
  - lra.
  - rewrite inject_Z_plus. change (inject_Z 1) with 1. lra.
Qed.

Lemma round_positive_nearest (q : Q) :
  - (pow2 (ulp_exponent q) / 2) <= round_positive q - q <= pow2 (ulp_exponent q) / 2.
Proof.
  unfold round_positive. set (e := ulp_exponent q).
  pose proof (pow2_pos e) as He.
  pose proof (round_half_even_near (q * pow2 (- e))) as [Hlow Hhigh].
  pose proof (scaled_back q e) as Hback.
  set (m := inject_Z (round_half_even (q * pow2 (- e)))) in *.
  set (s := q * pow2 (- e)) in *.
  assert (Hl : (- (1 # 2)) * pow2 e <= (m - s) * pow2 e)
    by (apply Qmult_le_compat_r; lra).
  assert (Hh : (m - s) * pow2 e <= (1 # 2) * pow2 e)
    by (apply Qmult_le_compat_r; lra).
  assert (Hd : (m - s) * pow2 e == m * pow2 e - q) by (rewrite <- Hback; ring).
  rewrite Hd in Hl, Hh.
  assert (Hhalf : pow2 e / 2 == (1 # 2) * pow2 e)
    by (unfold Qdiv; change (/ 2) with (1 # 2); apply Qmult_comm).
  rewrite Hhalf. clearbody m s e. lra.
Qed.

(** Rounding never crosses a double. *)
Lemma round_positive_ge (L q : Q) :
  0 < q -> representable L -> L <= q -> L <= round_positive q.
Proof.
  intros Hq (m & eL & Hm & HL) Hle.
  destruct (Z_le_gt_dec (ulp_exponent q) eL) as [He|He].
  - unfold round_positive. set (e := ulp_exponent q) in *.
    pose proof (pow2_pos e) as Hpe. pose proof (pow2_pos (- e)) as Hne.
    assert (Hr : (m * 2 ^ (eL - e) <= round_half_even (q * pow2 (- e)))%Z).
    { apply round_half_even_ge. rewrite <- (on_the_grid m eL e He), <- HL.
      apply Qmult_le_compat_r; lra. }
    apply Qle_trans with (inject_Z (m * 2 ^ (eL - e)) * pow2 e).
    + rewrite <- (on_the_grid m eL e He), <- HL, scaled_back. apply Qle_refl.
    + apply Qmult_le_compat_r; [|lra]. by rewrite <- Zle_Qle.
  - apply Qle_trans with (pow2 (ulp_exponent q + 52)); [|by apply round_positive_low].
    rewrite HL. apply Qlt_le_weak, below_the_binade; [exact Hm|lia].
Qed.

Lemma round_positive_le (U q : Q) :
  0 < q -> representable U -> q <= U -> round_positive q <= U.
Proof.
  intros Hq (m & eU & Hm & HU) Hle.
  destruct (Z_le_gt_dec (ulp_exponent q) eU) as [He|He].
  - unfold round_positive. set (e := ulp_exponent q) in *.
    pose proof (pow2_pos e) as Hpe. pose proof (pow2_pos (- e)) as Hne.
    assert (Hr : (round_half_even (q * pow2 (- e)) <= m * 2 ^ (eU - e))%Z).
    { apply round_half_even_le. rewrite <- (on_the_grid m eU e He), <- HU.
      apply Qmult_le_compat_r; lra. }
    apply Qle_trans with (inject_Z (m * 2 ^ (eU - e)) * pow2 e).
    + apply Qmult_le_compat_r; [|lra]. by rewrite <- Zle_Qle.
    + rewrite <- (on_the_grid m eU e He), <- HU, scaled_back. apply Qle_refl.
  - exfalso. pose proof (ulp_exponent_low q Hq) as Hlow.
    pose proof (below_the_binade m eU (ulp_exponent q) Hm ltac:(lia)) as Hb.
    rewrite <- HU in Hb. lra.
Qed.

Lemma round64_ge (L q : Q) :
  0 <= q -> representable L -> L <= q -> L <= round64 q.
Proof.
  intros Hq HL Hle. unfold round64.
  destruct (Qcompare_spec q 0) as [E|E|E]; [lra|lra|].
  by apply round_positive_ge.
Qed.

Lemma round64_le (U q : Q) :
  0 <= q -> representable U -> q <= U -> round64 q <= U.
Proof.
  intros Hq HU Hle. unfold round64.
  destruct (Qcompare_spec q 0) as [E|E|E]; [lra|lra|].
  by apply round_positive_le.
Qed.

(** A small multiple of a grid point is a double. *)
Lemma multiple_representable (k m e : Z) :
  (0 <= k)%Z -> (0 <= m)%Z -> (k * m < 2 ^ 53)%Z ->
  representable (inject_Z k * (inject_Z m * pow2 e)).
Proof.
  intros Hk Hm Hkm. exists (k * m)%Z, e. split; [lia|].
  rewrite inject_Z_mult. apply Qmult_assoc.
Qed.

(** A count below [2^53] is its own float. *)
Lemma round64_count (n : Z) :
  (0 <= n < 2 ^ 53)%Z -> round64 (inject_Z n) == inject_Z n.
Proof.
  intros Hn.
  assert (Hrep : representable (inject_Z n)).
  { exists n, 0%Z. split; [lia|]. unfold pow2. simpl. by rewrite Qmult_1_r. }
  assert (H0 : 0 <= inject_Z n) by (change 0 with (inject_Z 0); rewrite <- Zle_Qle; lia).
  apply Qle_antisym.
  - apply round64_le; [done|done|apply Qle_refl].
  - apply round64_ge; [done|done|apply Qle_refl].
Qed.

(** The constants of the code and the sample values, as Python prints them:
    [0.3], [0.9], the sum of ten [0.3] and its tenth. *)
Example doubles_of_the_constants :
  round64 (3 # 10) == 5404319552844595 # 18014398509481984
  /\ round64 (9 # 10) == 8106479329266893 # 9007199254740992
  /\ fold_left add64 (repeat (round64 (3 # 10)) 10) 0
     == 6755399441055743 # 2251799813685248
  /\ div64 (fold_left add64 (repeat (round64 (3 # 10)) 10) 0) (round64 10)
     == 2702159776422297 # 9007199254740992.
Proof. repeat split; vm_compute; reflexivity. Qed.

(** *** The running total *)

(** The running total stays between the multiples of two grid points that
    enclose the floats of the confidences. *)
Lemma total_confidence_bounds (sources : string) (mx my e : Z) (claim_list : list string) :
  (0 <= mx)%Z -> (0 <= my)%Z ->
  (forall c, c = 3 # 10 \/ c = 6 # 10 \/ c = 9 # 10 ->
             inject_Z mx * pow2 e <= round64 c <= inject_Z my * pow2 e) ->
  forall (idx : nat) (results : list verification) (total : Q) (k : Z),
    (0 <= k)%Z ->
    ((k + Z.of_nat (length claim_list)) * mx < 2 ^ 53)%Z ->
    ((k + Z.of_nat (length claim_list)) * my < 2 ^ 53)%Z ->
    inject_Z k * (inject_Z mx * pow2 e) <= total <= inject_Z k * (inject_Z my * pow2 e) ->
    inject_Z (k + Z.of_nat (length claim_list)) * (inject_Z mx * pow2 e)
    <= snd (fold_left (check_step sources) claim_list (idx, results, total))
    <= inject_Z (k + Z.of_nat (length claim_list)) * (inject_Z my * pow2 e).
Proof.
  intros Hmx Hmy Hlevels.
  set (x := inject_Z mx * pow2 e) in *. set (y := inject_Z my * pow2 e) in *.
  assert (Hx : 0 <= x).
  { apply Qmult_le_0_compat; [|apply Qlt_le_weak, pow2_pos].
    change 0 with (inject_Z 0). by rewrite <- Zle_Qle. }
  induction claim_list as [|claim rest IH]; intros idx results total k Hk Hkx Hky Htotal.
  - cbn [fold_left length snd]. by rewrite Z.add_0_r.
  - cbn [fold_left check_step]. cbn [length] in Hkx, Hky |- *.
    replace (k + Z.of_nat (S (length rest)))%Z with (k + 1 + Z.of_nat (length rest))%Z
      in Hkx, Hky |- * by lia.
    set (v := _verify_claim_against_sources claim sources (idx + 1)).
    destruct (Hlevels (confidence_score v) (confidence_levels claim sources (idx + 1)))
      as [Hlow Hhigh].
    assert (Hkq : 0 <= inject_Z k)
      by (change 0 with (inject_Z 0); rewrite <- Zle_Qle; lia).
    assert (Hnext : inject_Z (k + 1) == inject_Z k + 1) by (by rewrite inject_Z_plus).
    assert (Hsum : 0 <= total + round64 (confidence_score v)).
    { assert (0 <= inject_Z k * x) by (by apply Qmult_le_0_compat). lra. }
    apply IH; [lia|exact Hkx|exact Hky|].
    unfold add64. split.
    + apply round64_ge; [exact Hsum| |rewrite Hnext; lra].
      apply multiple_representable; [lia|lia|nia].
    + apply round64_le; [exact Hsum| |rewrite Hnext; lra].
      apply multiple_representable; [lia|lia|nia].
Qed.

Lemma reliability_is_the_mean (claim_list : list string) (sources : string) :
  claim_list <> [] ->
  overall_reliability (check_claims claim_list sources)
  = div64 (snd (fold_left (check_step sources) claim_list (O, [], 0)))
      (round64 (inject_Z (Z.of_nat (length claim_list)))).
Proof.
  intros Hne. unfold check_claims.
  destruct (fold_left _ _ _) as [[idx results] total]. simpl.
  destruct claim_list; [contradiction|reflexivity].
Qed.

(** The mean stays between two grid points that enclose the floats of the
    confidences, as long as the multiples of the grid points by the number
    of claims are doubles. *)
Lemma reliability_on_a_grid (mx my e : Z) (claim_list : list string) (sources : string) :
  (0 <= mx)%Z -> (0 <= my)%Z ->
  (forall c, c = 3 # 10 \/ c = 6 # 10 \/ c = 9 # 10 ->
             inject_Z mx * pow2 e <= round64 c <= inject_Z my * pow2 e) ->
  claim_list <> [] ->
  (Z.of_nat (length claim_list) * mx < 2 ^ 53)%Z ->
  (Z.of_nat (length claim_list) * my < 2 ^ 53)%Z ->
  (Z.of_nat (length claim_list) < 2 ^ 53)%Z ->
  inject_Z mx * pow2 e
  <= overall_reliability (check_claims claim_list sources)
  <= inject_Z my * pow2 e.
Proof.
  intros Hmx Hmy Hlevels Hne Hnx Hny Hn53.
  rewrite reliability_is_the_mean by done.
  set (n := Z.of_nat (length claim_list)) in *.
  assert (Hn : (0 < n)%Z) by (subst n; destruct claim_list; [done|simpl; lia]).
  assert (Hnq : 0 < inject_Z n) by (change 0 with (inject_Z 0); by rewrite <- Zlt_Qlt).
  pose proof (total_confidence_bounds sources mx my e claim_list Hmx Hmy Hlevels
                O [] 0 0%Z ltac:(lia) ltac:(fold n; lia) ltac:(fold n; lia)) as Htotal.
  rewrite !Z.add_0_l in Htotal.
  specialize (Htotal ltac:(change (inject_Z 0) with 0; lra)).
  set (total := snd (fold_left (check_step sources) claim_list (O, [], 0))) in *.
  set (x := inject_Z mx * pow2 e) in *. set (y := inject_Z my * pow2 e) in *.
  assert (Hx : 0 <= x).
  { apply Qmult_le_0_compat; [|apply Qlt_le_weak, pow2_pos].
    change 0 with (inject_Z 0). by rewrite <- Zle_Qle. }
  pose proof (round64_count n ltac:(lia)) as Hcount.
  assert (Hpos : 0 < round64 (inject_Z n)) by (by rewrite Hcount).
  assert (Hlow : x <= total / round64 (inject_Z n)).
  { apply Qle_shift_div_l; [exact Hpos|]. rewrite Hcount, Qmult_comm. apply Htotal. }
  assert (Hhigh : total / round64 (inject_Z n) <= y).
  { apply Qle_shift_div_r; [exact Hpos|]. rewrite Hcount, Qmult_comm. apply Htotal. }
  unfold div64. split.
  - apply round64_ge; [lra| |exact Hlow].
    exists mx, e. split; [nia|reflexivity].
  - apply round64_le; [lra| |exact Hhigh].
    exists my, e. split; [nia|reflexivity].
Qed.

(** C10. The confidence of a verification is one of 0.3, 0.6 and 0.9. The
    overall reliability of a list of claims that is not empty is the mean of
    their floats as the machine computes it, each sum and the quotient
    rounded to the nearest double: for at most 2^33 claims it lies between
    0.299999 and 0.900001, also when no token of any claim occurs in the
    sources. *)
Theorem reliability_within_rounding_of_the_confidence_levels :
  (forall claim sources number,
      confidence_score (_verify_claim_against_sources claim sources number) = 3 # 10
      \/ confidence_score (_verify_claim_against_sources claim sources number) = 6 # 10
      \/ confidence_score (_verify_claim_against_sources claim sources number) = 9 # 10)
  /\ (forall claim_list sources,
        claim_list <> [] ->
        (Z.of_nat (length claim_list) <= 2 ^ 33)%Z ->
        299999 # 1000000
        <= overall_reliability (check_claims claim_list sources)
        <= 900001 # 1000000).
Proof.
  split; [apply confidence_levels|].
  intros claim_list sources Hne Hlen.
  assert (Hgrid : inject_Z 314572 * pow2 (-20)
                  <= overall_reliability (check_claims claim_list sources)
                  <= inject_Z 943719 * pow2 (-20)).
  { apply reliability_on_a_grid; try done; try lia.
    intros c [-> | [-> | ->]]; split; apply Qle_bool_iff; by vm_compute. }
  assert (Hlow : 299999 # 1000000 <= inject_Z 314572 * pow2 (-20))
    by (apply Qle_bool_iff; by vm_compute).
  assert (Hhigh : inject_Z 943719 * pow2 (-20) <= 900001 # 1000000)
    by (apply Qle_bool_iff; by vm_compute).
  lra.
Qed.

End Rounding.

Lemma reliability_within_rounding_of_the_confidence_levels_witness :
  (299999 # 1000000
   <= overall_reliability
        (check_claims ["The cat sat on the mat"; "Dogs are very loyal animals"]
           "the cat is on a mat")
   <= 900001 # 1000000)%Q.
Proof.
  apply (proj2 reliability_within_rounding_of_the_confidence_levels);
    [discriminate|vm_compute; discriminate].
Defined.

(** The claim as it was stated fails for the floats of the code: ten claims
    without support have the reliability 0.29999999999999993, below 0.3, and
    seven claims with full support 0.9000000000000001, above 0.9. *)
Lemma means_leave_the_confidence_levels :
  (let report := fact_checker Examples.ten_claims EmptyString in
   total_claims report = 10%nat
   /\ Forall (fun v => confidence_score v = 3 # 10) (verification_results report)
   /\ (overall_reliability report == 2702159776422297 # 9007199254740992)%Q
   /\ (overall_reliability report < 3 # 10)%Q)
  /\ (let report := fact_checker Examples.seven_claims "the cat sat on the mat" in
      total_claims report = 7%nat
      /\ Forall (fun v => confidence_score v = 9 # 10) (verification_results report)
      /\ (overall_reliability report == 4053239664633447 # 4503599627370496)%Q
      /\ (9 # 10 < overall_reliability report)%Q).
Proof.
  assert (Hten : (overall_reliability (fact_checker Examples.ten_claims EmptyString)
                  == 2702159776422297 # 9007199254740992)%Q)
    by (vm_compute; reflexivity).
  assert (Hseven : (overall_reliability
                      (fact_checker Examples.seven_claims "the cat sat on the mat")
                    == 4053239664633447 # 4503599627370496)%Q)
    by (vm_compute; reflexivity).
  split; cbv zeta.
  - split; [by vm_compute|]. split; [|split; [exact Hten|]].
    + vm_compute. repeat constructor.
    + rewrite Hten. reflexivity.
  - split; [by vm_compute|]. split; [|split; [exact Hseven|]].
    + vm_compute. repeat constructor.
    + rewrite Hseven. reflexivity.
Qed.

(** ** Ranking *)

Section SortFacts.
Context {A : Type}.
Variable key : A -> Q.

Lemma key_lt_iff (x y : A) : key_lt key x y = true <-> (key x < key y)%Q.
Proof.
  unfold key_lt. rewrite negb_true_iff. split.
  - intros H. apply Qnot_le_lt. rewrite <- Qle_bool_iff. congruence.
  - intros H. apply not_true_is_false. rewrite Qle_bool_iff. lra.
Qed.

Lemma key_lt_false (x y : A) : key_lt key x y = false -> (key y <= key x)%Q.
Proof.
  unfold key_lt. rewrite negb_false_iff. apply Qle_bool_iff.
Qed.

Lemma insert_Permutation (x : A) (l : list A) :
  Permutation (x :: l) (insert key x l).
Proof.
  induction l as [|y l IH]; simpl; [reflexivity|].
  destruct (key_lt key y x); [|reflexivity].
  rewrite perm_swap. by apply perm_skip.
Qed.

Lemma sort_ascending_Permutation (l : list A) :
  Permutation l (sort_ascending key l).
Proof.
  induction l as [|x l IH]; simpl; [reflexivity|].
  rewrite <- insert_Permutation. by apply perm_skip.
Qed.

Lemma insert_sorted (x : A) (l : list A) :
  StronglySorted (ascending key) l -> StronglySorted (ascending key) (insert key x l).
Proof.
  induction l as [|y l IH]; simpl; intros Hl.
  - repeat constructor.
  - apply StronglySorted_cons in Hl as [Hy Hl].
    destruct (key_lt key y x) eqn:E.
    + apply StronglySorted_cons. split; [|by apply IH].
      apply (Permutation_Forall (insert_Permutation x l)).
      constructor; [|done]. apply key_lt_iff in E. unfold ascending in *. lra.
    + apply key_lt_false in E.
      apply StronglySorted_cons. split; [|by apply StronglySorted_cons].
      constructor; [done|].
      eapply Forall_impl; [exact Hy|]. unfold ascending in *. intros z Hz. lra.
Qed.

Lemma sort_ascending_sorted (l : list A) :
  StronglySorted (ascending key) (sort_ascending key l).
Proof.
  induction l as [|x l IH]; simpl; [constructor|]. by apply insert_sorted.
Qed.

Lemma rev_sorted (l : list A) :
  StronglySorted (ascending key) l -> StronglySorted (descending key) (rev l).
Proof.
  induction l as [|x l IH]; simpl; intros Hl; [constructor|].
  apply StronglySorted_cons in Hl as [Hx Hl].
  apply StronglySorted_app. split; [|split].
  - intros y z Hy Hz. apply list_elem_of_singleton in Hz as ->.
    apply list_elem_of_In, in_rev, list_elem_of_In in Hy.
    rewrite Forall_forall in Hx. by apply (Hx y).
  - by apply IH.
  - repeat constructor.
Qed.

(** The new element goes before the first element whose key is not below
    its own, so before every element of the same key. *)
Lemma filter_insert (k : Q) (x : A) (l : list A) :
  List.filter (has_key key k) (insert key x l)
  = if has_key key k x then x :: List.filter (has_key key k) l else List.filter (has_key key k) l.
Proof.
  induction l as [|y l IH]; simpl; [reflexivity|].
  destruct (key_lt key y x) eqn:E; simpl; [|reflexivity].
  rewrite IH. apply key_lt_iff in E.
  destruct (has_key key k y) eqn:Ey, (has_key key k x) eqn:Ex; try reflexivity.
  unfold has_key in Ey, Ex. apply Qeq_bool_iff in Ey, Ex. lra.
Qed.

Lemma filter_sort_ascending (k : Q) (l : list A) :
  List.filter (has_key key k) (sort_ascending key l) = List.filter (has_key key k) l.
Proof.
  induction l as [|x l IH]; simpl; [reflexivity|].
  rewrite filter_insert, IH. reflexivity.
Qed.

Lemma sort_reverse_Permutation (l : list A) :
  Permutation l (sort_reverse key l).
Proof.
  unfold sort_reverse.
  rewrite <- Permutation_rev, <- sort_ascending_Permutation.
  apply Permutation_rev.
Qed.

Lemma sort_reverse_sorted (l : list A) :
  StronglySorted (descending key) (sort_reverse key l).
Proof. apply rev_sorted, sort_ascending_sorted. Qed.

Lemma sort_reverse_stable (k : Q) (l : list A) :
  List.filter (has_key key k) (sort_reverse key l) = List.filter (has_key key k) l.
Proof.
  unfold sort_reverse.
  by rewrite List.filter_rev, filter_sort_ascending, List.filter_rev, rev_involutive.
Qed.

Lemma filter_sublist (f : A -> bool) (l : list A) :
  sublist (List.filter f l) l.
Proof.
  induction l as [|x l IH]; simpl; [constructor|].
  destruct (f x); by constructor.
Qed.

Lemma sublist_filter (f : A -> bool) (l1 l2 : list A) :
  sublist l1 l2 -> sublist (List.filter f l1) (List.filter f l2).
Proof.
  induction 1 as [|x l1 l2 _ IH|x l1 l2 _ IH]; simpl.
  - constructor.
  - destruct (f x); [by constructor|done].
  - destruct (f x); [by constructor|done].
Qed.

(** Two elements of equal key that follow one another in the list, not
    necessarily side by side, still do after the sort. *)
Lemma sort_reverse_keeps_order (a b : A) (l : list A) :
  sublist [a; b] l -> key a == key b -> sublist [a; b] (sort_reverse key l).
Proof.
  intros Hab Hkey.
  assert (Ha : has_key key (key a) a = true) by (apply Qeq_bool_iff; reflexivity).
  assert (Hb : has_key key (key a) b = true) by (apply Qeq_bool_iff; by symmetry).
  apply (sublist_filter (has_key key (key a))) in Hab.
  simpl in Hab. rewrite Ha, Hb in Hab.
  rewrite <- (sort_reverse_stable (key a) l) in Hab.
  etransitivity; [exact Hab|apply filter_sublist].
Qed.

End SortFacts.

(** C8. [rank] rearranges the hits in descending order of the combined score
    [(relevance_score + content_quality) / 2], and it is stable: for every
    score, the hits of that score come out in the order in which they came
    in; so two hits of equal score, one before the other in the input, come
    out one before the other. *)
Theorem rank_is_a_stable_descending_sort (results : list search_result) :
  Permutation results (rank results)
  /\ StronglySorted (fun a b => (combined_score b <= combined_score a)%Q) (rank results)
  /\ (forall k : Q,
        List.filter (fun x => Qeq_bool (combined_score x) k) (rank results)
        = List.filter (fun x => Qeq_bool (combined_score x) k) results)
  /\ (forall a b : search_result,
        sublist [a; b] results ->
        combined_score a == combined_score b ->
        sublist [a; b] (rank results)).
Proof.
  split; [apply sort_reverse_Permutation|].
  split; [apply (sort_reverse_sorted combined_score)|].
  split; [intros k; apply (sort_reverse_stable combined_score)|].
  intros a b. apply sort_reverse_keeps_order.
Qed.

Lemma rank_is_a_stable_descending_sort_witness :
  rank Examples.three_results
  = [Examples.scored "second" (9 # 10) (9 # 10); Examples.scored "first" (1 # 2) (7 # 10);
     Examples.scored "third" (7 # 10) (1 # 2)]
  /\ sublist [Examples.scored "first" (1 # 2) (7 # 10); Examples.scored "third" (7 # 10) (1 # 2)]
       (rank Examples.three_results).
Proof.
  split; [reflexivity|].
  apply (proj2 (proj2 (proj2 (rank_is_a_stable_descending_sort Examples.three_results)))).
  - unfold Examples.three_results. by repeat constructor.
  - reflexivity.
Defined.


(** * Further properties of the code *)

Import CitationReport SearchReport Notions.

Local Arguments String.append !_ _ / : simpl nomatch.

(** ** Texts *)

Lemma append_empty_r (s : string) : String.append s EmptyString = s.
Proof. induction s as [|c s IH]; simpl; congruence. Qed.

Lemma append_assoc (a b c : string) :
  String.append (String.append a b) c = String.append a (String.append b c).
Proof. induction a as [|x a IH]; simpl; congruence. Qed.

Lemma length_append (a b : string) :
  String.length (String.append a b) = (String.length a + String.length b)%nat.
Proof. induction a as [|x a IH]; simpl; congruence. Qed.

Lemma prefix_spec (p s : string) :
  String.prefix p s = true <-> exists t, s = String.append p t.
Proof.
  revert s. induction p as [|a p IH]; intros s.
  - destruct s; simpl; split; eauto.
  - destruct s as [|b s]; simpl.
    + split; [discriminate|]. intros [t Ht]. discriminate.
    + destruct (ascii_dec a b) as [->|Hne].
      * rewrite IH. split; intros [t Ht]; exists t; congruence.
      * split; [discriminate|]. intros [t Ht]. congruence.
Qed.

Lemma contains_spec (s x : string) :
  contains s x = true <-> occurs_in x s.
Proof.
  induction s as [|c s IH].
  - cbn [contains]. rewrite orb_false_r, prefix_spec. split.
    + intros [t Ht]. by exists EmptyString, t.
    + intros [[|a pre] [post H]]; [by exists post|discriminate].
  - cbn [contains]. rewrite orb_true_iff, prefix_spec, IH. split.
    + intros [[t Ht] | [pre [post H]]].
      * by exists EmptyString, t.
      * exists (String c pre), post. simpl. congruence.
    + intros [[|a pre] [post H]].
      * left. by exists post.
      * right. exists pre, post. simpl in H. congruence.
Qed.

Lemma occurs_in_refl (s : string) : occurs_in s s.
Proof. exists EmptyString, EmptyString. simpl. by rewrite append_empty_r. Qed.

Lemma occurs_in_trans (a b c : string) :
  occurs_in a b -> occurs_in b c -> occurs_in a c.
Proof.
  intros [p1 [q1 ->]] [p2 [q2 ->]].
  exists (String.append p2 p1), (String.append q1 q2).
  by rewrite !append_assoc.
Qed.

Lemma occurs_in_append_l (x a b : string) :
  occurs_in x a -> occurs_in x (String.append a b).
Proof.
  intros [p [q ->]]. exists p, (String.append q b). by rewrite !append_assoc.
Qed.

Lemma occurs_in_append_r (x a b : string) :
  occurs_in x b -> occurs_in x (String.append a b).
Proof.
  intros [p [q ->]]. exists (String.append a p), q. by rewrite !append_assoc.
Qed.

Lemma occurs_in_cons (x : string) (c : ascii) (s : string) :
  occurs_in x s -> occurs_in x (String c s).
Proof. apply (occurs_in_append_r x (String c EmptyString) s). Qed.

Lemma rev_onto_append (s acc : string) :
  rev_onto s acc = String.append (reverse s) acc.
Proof.
  unfold reverse. revert acc. induction s as [|c s IH]; intros acc; simpl; [reflexivity|].
  rewrite (IH (String c acc)), (IH (String c EmptyString)).
  by rewrite append_assoc.
Qed.

Lemma reverse_cons (c : ascii) (s : string) :
  reverse (String c s) = String.append (reverse s) (String c EmptyString).
Proof. unfold reverse at 1. simpl. apply rev_onto_append. Qed.

Lemma reverse_append (a b : string) :
  reverse (String.append a b) = String.append (reverse b) (reverse a).
Proof.
  induction a as [|c a IH]; simpl.
  - by rewrite append_empty_r.
  - by rewrite !reverse_cons, IH, append_assoc.
Qed.

Lemma reverse_involutive (s : string) : reverse (reverse s) = s.
Proof.
  induction s as [|c s IH]; [reflexivity|].
  by rewrite reverse_cons, reverse_append, IH.
Qed.

Lemma chars_append (a b : string) :
  chars (String.append a b) = (chars a ++ chars b)%list.
Proof. unfold chars. induction a as [|c a IH]; simpl; [reflexivity|by rewrite IH]. Qed.

Lemma chars_occurs_in (x s : string) (c : ascii) :
  occurs_in x s -> In c (chars x) -> In c (chars s).
Proof.
  intros [p [q ->]] Hc. rewrite !chars_append. apply in_or_app. right.
  apply in_or_app. by left.
Qed.

Lemma span_spec (p : ascii -> bool) (s : string) :
  s = String.append (fst (span p s)) (snd (span p s))
  /\ Forall (fun c => p c = true) (chars (fst (span p s)))
  /\ match snd (span p s) with
     | EmptyString => True
     | String c _ => p c = false
     end.
Proof.
  induction s as [|c s (Hs & Hrun & Hrest)]; simpl.
  - repeat split. constructor.
  - destruct (p c) eqn:Hc.
    + destruct (span p s) as [run rest]. simpl in *. repeat split; try done.
      * congruence.
      * by constructor.
    + simpl. repeat split; [constructor|done].
Qed.

(** ** The fact checker *)

Lemma filter_length_mono {A : Type} (f g : A -> bool) (l : list A) :
  (forall x, In x l -> f x = true -> g x = true) ->
  (length (List.filter f l) <= length (List.filter g l))%nat.
Proof.
  induction l as [|x l IH]; intros Hfg; simpl; [lia|].
  assert (IH' : (length (List.filter f l) <= length (List.filter g l))%nat)
    by (apply IH; intros y Hy; apply Hfg; by right).
  pose proof (Hfg x (or_introl eq_refl)) as Hx.
  destruct (f x) eqn:Ef; simpl.
  - rewrite Hx by done. simpl. lia.
  - destruct (g x); simpl; lia.
Qed.


Lemma claim_keywords_size_positive (claim : string) :
  claim_keywords claim <> ∅ -> (0 < size (claim_keywords claim))%nat.
Proof.
  intros Hne. destruct (size (claim_keywords claim)) eqn:E; [|lia].
  destruct Hne. apply leibniz_equiv. by apply size_empty_iff.
Qed.

Lemma matching_keywords_bound (claim sources : string) :
  (length (matching_keywords claim sources) <= size (claim_keywords claim))%nat.
Proof. unfold matching_keywords. apply List.filter_length_le. Qed.

Lemma ratio_le (a b n : nat) :
  (0 < n)%nat -> (a <= b)%nat ->
  (inject_Z (Z.of_nat a) / inject_Z (Z.of_nat n)
   <= inject_Z (Z.of_nat b) / inject_Z (Z.of_nat n))%Q.
Proof.
  intros Hn Hab.
  assert (Hpos : (0 < inject_Z (Z.of_nat n))%Q).
  { change 0%Q with (inject_Z 0). rewrite <- Zlt_Qlt. lia. }
  assert (Hle : (inject_Z (Z.of_nat a) <= inject_Z (Z.of_nat b))%Q).
  { rewrite <- Zle_Qle. lia. }
  unfold Qdiv. apply Qmult_le_compat_r; [done|].
  apply Qinv_le_0_compat. lra.
Qed.

(** X1. The overlap ratio of a claim with any sources lies between 0
    and 1. *)
Theorem keyword_overlap_range (claim sources : string) :
  (0 <= keyword_overlap claim sources <= 1)%Q.
Proof.
  unfold keyword_overlap. case_bool_decide as Hempty; [lra|].
  pose proof (claim_keywords_size_positive claim Hempty) as Hsize.
  pose proof (matching_keywords_bound claim sources) as Hbound.
  split.
  - apply Qle_shift_div_l.
    + change 0%Q with (inject_Z 0). rewrite <- Zlt_Qlt. lia.
    + rewrite Qmult_0_l. change 0%Q with (inject_Z 0). rewrite <- Zle_Qle. lia.
  - apply Qle_shift_div_r.
    + change 0%Q with (inject_Z 0). rewrite <- Zlt_Qlt. lia.
    + rewrite Qmult_1_l, <- Zle_Qle. lia.
Qed.






Lemma confidence_is_monotone (claim s1 s2 : string) (n1 n2 : nat) :
  (keyword_overlap claim s1 <= keyword_overlap claim s2)%Q ->
  (confidence_score (_verify_claim_against_sources claim s1 n1)
   <= confidence_score (_verify_claim_against_sources claim s2 n2))%Q.
Proof.
  intros Hle. unfold _verify_claim_against_sources.
  destruct (Qle_bool (7 # 10) (keyword_overlap claim s1)) eqn:A1;
    destruct (Qle_bool (7 # 10) (keyword_overlap claim s2)) eqn:A2;
    destruct (Qle_bool (4 # 10) (keyword_overlap claim s1)) eqn:B1;
    destruct (Qle_bool (4 # 10) (keyword_overlap claim s2)) eqn:B2;
    simpl; try lra;
    repeat match goal with
      | H : Qle_bool _ _ = true |- _ => apply Qle_bool_iff in H
      | H : Qle_bool _ _ = false |- _ =>
          apply not_true_iff_false in H; rewrite Qle_bool_iff in H
      end; lra.
Qed.

(** X3. A second source text whose lower-cased form holds the lower-cased
    form of the first as a contiguous piece gives a claim an overlap ratio
    and a confidence that are not lower. *)
Theorem more_sources_never_lower_confidence (claim sources richer : string)
    (number : nat) :
  contains (lower richer) (lower sources) = true ->
  (keyword_overlap claim sources <= keyword_overlap claim richer)%Q
  /\ (confidence_score (_verify_claim_against_sources claim sources number)
      <= confidence_score (_verify_claim_against_sources claim richer number))%Q.
Proof.
  intros Hricher. apply contains_spec in Hricher.
  assert (Hle : (keyword_overlap claim sources <= keyword_overlap claim richer)%Q).
  { unfold keyword_overlap. case_bool_decide as Hempty; [lra|].
    apply ratio_le; [by apply claim_keywords_size_positive|].
    unfold matching_keywords. apply filter_length_mono.
    intros kw _ Hkw. apply contains_spec. apply contains_spec in Hkw.
    by eapply occurs_in_trans. }
  split; [done|]. by apply confidence_is_monotone.
Qed.

Lemma more_sources_never_lower_confidence_witness :
  (keyword_overlap "The cat sat on the mat" "A cat"
   <= keyword_overlap "The cat sat on the mat" "Look: a CAT sat on the mat")%Q.
Proof.
  apply (more_sources_never_lower_confidence "The cat sat on the mat" "A cat"
           "Look: a CAT sat on the mat" 1).
  vm_compute. reflexivity.
Defined.

(** *** The claims read from a text *)

Lemma chars_reverse (s : string) : chars (reverse s) = rev (chars s).
Proof.
  induction s as [|c s IH]; [reflexivity|].
  rewrite reverse_cons, chars_append, IH. reflexivity.
Qed.

Lemma occurs_in_reverse (a b : string) :
  occurs_in a b -> occurs_in (reverse a) (reverse b).
Proof.
  intros [p [q ->]]. exists (reverse q), (reverse p).
  by rewrite !reverse_append, append_assoc.
Qed.

Lemma lstrip_occurs (s : string) : occurs_in (lstrip s) s.
Proof.
  unfold lstrip. destruct (span_spec isspace s) as [Hs _].
  exists (fst (span isspace s)), EmptyString. by rewrite append_empty_r.
Qed.

Lemma strip_occurs (s : string) : occurs_in (strip s) s.
Proof.
  unfold strip. eapply occurs_in_trans; [|apply lstrip_occurs].
  rewrite <- (reverse_involutive (lstrip s)) at 2.
  apply occurs_in_reverse, lstrip_occurs.
Qed.

Lemma lstrip_starts_clean (s : string) : starts_clean (lstrip s).
Proof.
  unfold lstrip. destruct (span_spec isspace s) as (_ & _ & H).
  by destruct (snd (span isspace s)).
Qed.

Lemma lstrip_clean (s : string) : starts_clean s -> lstrip s = s.
Proof.
  unfold lstrip. destruct s as [|c s]; [reflexivity|]. simpl. by intros ->.
Qed.

Lemma lstrip_snoc (s : string) (c : ascii) :
  isspace c = false ->
  lstrip (String.append s (String c EmptyString))
  = String.append (lstrip s) (String c EmptyString).
Proof.
  intros Hc. unfold lstrip. induction s as [|a s IH]; simpl.
  - by rewrite Hc.
  - destruct (isspace a); [|reflexivity].
    destruct (span isspace (String.append s (String c EmptyString))) as [r1 t1].
    destruct (span isspace s) as [r2 t2]. exact IH.
Qed.

(** Stripping on the right keeps a clean start. *)
Lemma rstrip_starts_clean (s : string) :
  starts_clean s -> starts_clean (reverse (lstrip (reverse s))).
Proof.
  destruct s as [|c s]; [done|]. simpl. intros Hc.
  rewrite reverse_cons, lstrip_snoc, reverse_append by done. simpl. done.
Qed.

Lemma strip_idempotent (s : string) : strip (strip s) = strip s.
Proof.
  unfold strip. set (t := lstrip s).
  rewrite (lstrip_clean (reverse (lstrip (reverse t))))
    by apply rstrip_starts_clean, lstrip_starts_clean.
  rewrite reverse_involutive.
  by rewrite (lstrip_clean (lstrip (reverse t))) by apply lstrip_starts_clean.
Qed.

Lemma re_split_pieces (s : string) :
  forall (inside : sep_kind) (cur piece : string),
    Forall (fun c => is_separator c = false) (chars cur) ->
    In piece (re_split_from inside cur s) ->
    Forall (fun c => is_separator c = false) (chars piece).
Proof.
  induction s as [|c t IH]; intros inside cur piece Hcur Hpiece;
    cbn [re_split_from] in Hpiece.
  - destruct Hpiece as [<-|[]]. rewrite chars_reverse. by apply Forall_rev.
  - destruct (sep_of c) eqn:Hc.
    + apply (IH NoSep (String c cur)); [|done].
      constructor; [|done]. unfold is_separator. by rewrite Hc.
    + destruct (same_sep inside Punct); [by apply (IH Punct cur)|].
      destruct Hpiece as [<-|Hpiece].
      * rewrite chars_reverse. by apply Forall_rev.
      * apply (IH Punct EmptyString); [constructor|done].
    + destruct (same_sep inside Newline); [by apply (IH Newline cur)|].
      destruct Hpiece as [<-|Hpiece].
      * rewrite chars_reverse. by apply Forall_rev.
      * apply (IH Newline EmptyString); [constructor|done].
Qed.

(** X4. Every claim read from a text is longer than ten characters, has no
    white space at either end, holds no full stop, exclamation mark,
    question mark or line feed, and does not begin with [http] or [www]. *)
Theorem parsed_claims_are_clean (claims_text claim : string) :
  In claim (_parse_claims claims_text) ->
  (10 < String.length claim)%nat
  /\ strip claim = claim
  /\ Forall (fun c => is_separator c = false) (chars claim)
  /\ startswith claim "http" = false
  /\ startswith claim "www" = false.
Proof.
  unfold _parse_claims. intros Hin.
  apply List.filter_In in Hin as [Hin Hkeep].
  apply List.in_map_iff in Hin as [piece [<- Hpiece]].
  unfold keep_claim in Hkeep.
  apply andb_true_iff in Hkeep as [Hlen Hstart].
  apply Nat.ltb_lt in Hlen. apply negb_true_iff, orb_false_iff in Hstart as [H1 H2].
  repeat split; try done.
  - apply strip_idempotent.
  - apply (re_split_pieces claims_text NoSep EmptyString) in Hpiece; [|constructor].
    rewrite Forall_forall in Hpiece |- *. intros c Hc. apply Hpiece.
    apply list_elem_of_In. apply list_elem_of_In in Hc.
    eapply chars_occurs_in; [apply strip_occurs|done].
Qed.

Lemma parsed_claims_are_clean_witness :
  In "Dogs are loyal" (_parse_claims "Short. Dogs are loyal!  www.example.org")
  /\ strip "Dogs are loyal" = "Dogs are loyal".
Proof.
  assert (H : In "Dogs are loyal" (_parse_claims "Short. Dogs are loyal!  www.example.org"))
    by (vm_compute; auto).
  split; [exact H|].
  exact (proj1 (proj2 (parsed_claims_are_clean _ _ H))).
Defined.

(** *** The report of the fact checker *)

Lemma verification_echo (claim sources : string) (number : nat) :
  claim_text (_verify_claim_against_sources claim sources number) = claim
  /\ claim_number (_verify_claim_against_sources claim sources number) = number.
Proof.
  unfold _verify_claim_against_sources.
  destruct (Qle_bool (7 # 10) _); [|destruct (Qle_bool (4 # 10) _)]; by split.
Qed.

Lemma verification_consistent (claim sources : string) (number : nat) :
  consistent (_verify_claim_against_sources claim sources number).
Proof.
  unfold consistent, _verify_claim_against_sources.
  destruct (Qle_bool (7 # 10) _); [|destruct (Qle_bool (4 # 10) _)]; simpl; auto.
Qed.

Lemma check_loop (sources : string) (claim_list : list string) :
  forall (idx : nat) (results : list verification) (total : Q),
    let results' := snd (fst (fold_left (check_step sources) claim_list (idx, results, total))) in
    List.map claim_text results' = (List.map claim_text results ++ claim_list)%list
    /\ List.map claim_number results'
       = (List.map claim_number results ++ seq (S idx) (length claim_list))%list
    /\ (Forall consistent results -> Forall consistent results').
Proof.
  induction claim_list as [|claim rest IH]; intros idx results total; cbv zeta.
  - simpl. rewrite !app_nil_r. auto.
  - cbn [fold_left check_step length seq].
    destruct (IH (S idx) (results ++ [_verify_claim_against_sources claim sources (idx + 1)])%list
                (Binary64.add64 total
                   (Binary64.round64
                      (confidence_score
                         (_verify_claim_against_sources claim sources (idx + 1))))))
      as (Htext & Hnumber & Hcons).
    destruct (verification_echo claim sources (idx + 1)) as [Et En].
    split; [|split].
    + rewrite Htext, List.map_app. simpl. by rewrite Et, <- app_assoc.
    + rewrite Hnumber, List.map_app. simpl. rewrite En, <- app_assoc. simpl.
      by replace (idx + 1)%nat with (S idx) by lia.
    + intros Hres. apply Hcons. apply Forall_app. split; [done|].
      constructor; [apply verification_consistent|constructor].
Qed.

(** X5. The report of the fact checker has one verification per claim read
    from the text, in the order of the text, numbered from one; and in each
    of them status and confidence go together: strongly supported with 0.9,
    partially supported with 0.6 or insufficient evidence with 0.3, never the
    initial status [unverified]. *)
Theorem fact_checker_reports_each_claim (claims sources : string) :
  let report := fact_checker claims sources in
  total_claims report = length (verification_results report)
  /\ List.map claim_text (verification_results report) = _parse_claims claims
  /\ List.map claim_number (verification_results report) = seq 1 (total_claims report)
  /\ Forall consistent (verification_results report).
Proof.
  cbv zeta. unfold fact_checker, check_claims.
  pose proof (check_loop sources (_parse_claims claims) O [] 0%Q) as H. cbv zeta in H.
  destruct (fold_left _ _ _) as [[idx results] total]. simpl in *.
  destruct H as (Htext & Hnumber & Hcons). repeat split; try done.
  - by rewrite <- Htext, List.length_map.
  - by apply Hcons.
Qed.

(** ** The components of a citation *)

Lemma drop_prefix_spec (p s r : string) :
  drop_prefix p s = Some r -> s = String.append p r.
Proof.
  revert s. induction p as [|a p IH]; intros s; simpl.
  - congruence.
  - destruct s as [|b s]; [discriminate|].
    destruct (Ascii.eqb_spec a b) as [->|]; [|discriminate].
    intros H. simpl. f_equal. by apply IH.
Qed.

Lemma search_found {A : Type} (m : string -> option A) (s : string) (x : A) :
  search m s = Some x ->
  exists pre t, s = String.append pre t /\ m t = Some x.
Proof.
  induction s as [|c s IH]; cbn [search].
  - destruct (m EmptyString) eqn:E; [|discriminate].
    intros [= <-]. by exists EmptyString, EmptyString.
  - destruct (m (String c s)) eqn:E.
    + intros [= <-]. by exists EmptyString, (String c s).
    + intros H. destruct (IH H) as (pre & t & -> & Ht).
      by exists (String c pre), t.
Qed.

Lemma search_occurs (m : string -> option string) (s x : string) :
  (forall t y, m t = Some y -> occurs_in y t) ->
  search m s = Some x -> occurs_in x s.
Proof.
  intros Hm H. destruct (search_found m s x H) as (pre & t & -> & Ht).
  apply occurs_in_append_r. by apply Hm.
Qed.

Lemma match_url_shape (s u : string) :
  match_url s = Some u ->
  exists scheme run rest,
    u = String.append scheme (String.append "://" run)
    /\ (scheme = "http" \/ scheme = "https")
    /\ run <> EmptyString
    /\ Forall (fun c => url_char c = true) (chars run)
    /\ s = String.append u rest.
Proof.
  unfold match_url.
  destruct (drop_prefix "http" s) as [r|] eqn:Hr; [|discriminate].
  apply drop_prefix_spec in Hr. subst s.
  assert (Htail : forall scheme r' v,
             match drop_prefix "://" r' with
             | None => None
             | Some body =>
                 match fst (span url_char body) with
                 | EmptyString => None
                 | String a run => Some (String.append scheme (String.append "://" (String a run)))
                 end
             end = Some v ->
             exists run rest,
               v = String.append scheme (String.append "://" run)
               /\ run <> EmptyString
               /\ Forall (fun c => url_char c = true) (chars run)
               /\ r' = String.append "://" (String.append run rest)).
  { intros scheme r' v. destruct (drop_prefix "://" r') as [body|] eqn:Hb; [|discriminate].
    apply drop_prefix_spec in Hb. subst r'.
    destruct (span_spec url_char body) as (Hbody & Hrun & _).
    destruct (fst (span url_char body)) as [|a run] eqn:E; [discriminate|].
    intros [= <-]. exists (String a run), (snd (span url_char body)).
    repeat split; try done. by rewrite <- Hbody. }
  destruct (drop_prefix "s" r) as [r'|] eqn:Hs.
  - apply drop_prefix_spec in Hs. subst r.
    match goal with
    | |- match ?t with Some _ => _ | None => _ end = _ -> _ => destruct t as [v|] eqn:Hv
    end.
    + intros [= <-]. destruct (Htail "https" r' v Hv) as (run & rest & -> & Hne & Hrun & ->).
      exists "https", run, rest. repeat split; auto.
    + simpl. discriminate.
  - intros Hv. destruct (Htail "http" r u Hv) as (run & rest & -> & Hne & Hrun & ->).
    exists "http", run, rest. repeat split; auto.
Qed.

Lemma match_doi_shape (s d : string) :
  match_doi s = Some d ->
  exists digits run rest,
    d = String.append "10." (String.append digits (String.append "/" run))
    /\ Forall (fun c => isdigit c = true) (chars digits)
    /\ (4 <= String.length digits)%nat
    /\ run <> EmptyString
    /\ Forall (fun c => isspace c = false) (chars run)
    /\ s = String.append d rest.
Proof.
  unfold match_doi.
  destruct (drop_prefix "10." s) as [r|] eqn:Hr; [|discriminate].
  apply drop_prefix_spec in Hr. subst s.
  destruct (span_spec isdigit r) as (Hr & Hdigits & _).
  destruct (span isdigit r) as [digits r2]. simpl in Hr, Hdigits.
  destruct (4 <=? String.length digits)%nat eqn:Hlen; [|discriminate].
  apply Nat.leb_le in Hlen.
  destruct (drop_prefix "/" r2) as [r3|] eqn:H3; [|discriminate].
  apply drop_prefix_spec in H3. subst r2.
  destruct (span_spec (fun c => negb (isspace c)) r3) as (H3 & Hrun & _).
  destruct (span (fun c => negb (isspace c)) r3) as [[|a run] rest]; [discriminate|].
  simpl in H3, Hrun |- *.
  intros [= <-]. exists digits, (String a run), rest.
  repeat split; try done.
  - eapply Forall_impl; [exact Hrun|]. intros c Hc. by apply negb_true_iff in Hc.
  - subst r r3. simpl. by rewrite !append_assoc.
Qed.

Lemma match_delimited_shape (d : ascii -> bool) (s x : string) :
  match_delimited d s = Some x ->
  exists c c' rest,
    d c = true /\ d c' = true
    /\ s = String c (String.append x (String c' rest))
    /\ x <> EmptyString
    /\ Forall (fun a => d a = false) (chars x).
Proof.
  unfold match_delimited. destruct s as [|c t]; [discriminate|].
  destruct (d c) eqn:Hc; [|discriminate].
  destruct (span_spec (fun a => negb (d a)) t) as (Ht & Hrun & Hrest).
  destruct (span (fun a => negb (d a)) t) as [[|a inner] [|c' rest]]; try discriminate.
  simpl in *. intros [= <-]. exists c, c', rest. repeat split; try done.
  - by apply negb_false_iff in Hrest.
  - by rewrite Ht.
  - eapply Forall_impl; [exact Hrun|]. intros b Hb. by apply negb_true_iff in Hb.
Qed.

Lemma match_author_shape (year : string) (s a : string) :
  match_author year s = Some a ->
  a <> EmptyString
  /\ Forall (fun c => is_char "." c = false) (chars a)
  /\ exists rest, s = String.append a rest /\ match_year_paren year rest = true.
Proof.
  revert a. induction s as [|c t IH]; intros a; cbn [match_author]; [discriminate|].
  destruct (is_char "." c) eqn:Hc; [discriminate|].
  destruct (match_year_paren year t) eqn:Ht.
  - intros [= <-]. repeat split; [done|by repeat constructor|by exists t].
  - destruct (match_author year t) as [b|] eqn:Hb; [|discriminate].
    intros [= <-]. destruct (IH b eq_refl) as (_ & Hchars & rest & -> & Hrest).
    repeat split; [done|by constructor|by exists rest].
Qed.

Lemma match_year_prefix (s g : string) :
  match_year s = Some g -> exists rest, s = String.append g rest.
Proof.
  unfold match_year. destruct s as [|c1 [|c2 [|d1 [|d2 rest]]]]; try discriminate.
  destruct (_ && _); [|discriminate]. intros [= <-]. by exists (String d1 (String d2 rest)).
Qed.

Lemma findall_year_occur (s : string) :
  forall (prev_word : bool) (skip : nat) (g : string),
    In g (findall_year_from prev_word skip s) -> occurs_in g s.
Proof.
  induction s as [|c t IH]; intros prev_word skip g; cbn [findall_year_from]; [done|].
  destruct skip as [|k].
  - destruct (if prev_word then None else match_year (String c t)) as [g'|] eqn:E.
    + intros [<-|Hg].
      * destruct prev_word; [discriminate|].
        destruct (match_year_prefix _ _ E) as [rest ->].
        apply occurs_in_append_l, occurs_in_refl.
      * apply occurs_in_cons. by apply IH in Hg.
    + intros Hg. apply occurs_in_cons. by apply IH in Hg.
  - intros Hg. apply occurs_in_cons. by apply IH in Hg.
Qed.

Lemma first_match_found (patterns : list (string -> option string)) (s x : string) :
  first_match patterns s = Some x ->
  exists p, In p patterns /\ search p s = Some x.
Proof.
  induction patterns as [|p ps IH]; cbn [first_match]; [discriminate|].
  destruct (search p s) eqn:E.
  - intros [= <-]. exists p. split; [by left|done].
  - intros H. destruct (IH H) as (q & Hq & Hs). exists q. split; [by right|done].
Qed.

Lemma lookup_set_if (k k' : string) (v : option string) (d : gmap string string) (x : string) :
  set_if k v d !! k' = Some x -> (k' = k /\ v = Some x) \/ d !! k' = Some x.
Proof.
  destruct v as [y|]; simpl; [|auto].
  rewrite lookup_insert. case_decide as Hk; [|auto].
  intros [= <-]. left. by subst.
Qed.

(** Where each component comes from. *)
Lemma component_origin (citation k v : string) :
  _extract_citation_components citation !! k = Some v ->
  (k = "url" /\ search match_url citation = Some v)
  \/ (k = "year" /\ last (findall_year citation) = Some v)
  \/ (k = "doi" /\ search match_doi citation = Some v)
  \/ (k = "title" /\ first_match title_patterns citation = Some v)
  \/ (k = "author"
      /\ exists year a,
           _extract_citation_components citation !! "year" = Some year
           /\ search (match_author year) citation = Some a /\ v = strip a)
  \/ (k = "journal" /\ first_match journal_patterns citation = Some v).
Proof.
  rewrite (extracted_year citation). unfold _extract_citation_components.
  set (d4 := set_if "title" _ _).
  intros H. apply lookup_set_if in H as [[-> H]|H]; [by repeat right|].
  assert (Hyear : d4 !! "year" = last (findall_year citation)).
  { subst d4. rewrite !lookup_set_if_ne by discriminate. rewrite lookup_set_if_eq.
    destruct (last (findall_year citation)); [done|]. by rewrite lookup_set_if_ne. }
  assert (H4 : (k = "author"
                /\ exists year a, last (findall_year citation) = Some year
                     /\ search (match_author year) citation = Some a /\ v = strip a)
               \/ d4 !! k = Some v).
  { destruct (truthy (d4 !! "year")); [|by right].
    rewrite Hyear in H. destruct (last (findall_year citation)) as [year|]; [|by right].
    apply lookup_set_if in H as [[-> H]|H]; [left|by right].
    split; [done|].
    destruct (search (match_author year) citation) as [a|] eqn:Ha; [|discriminate].
    simpl in H. injection H as <-. by exists year, a. }
  destruct H4 as [H4|H4]; [by do 4 right; left|].
  subst d4.
  apply lookup_set_if in H4 as [[-> H4]|H4]; [by do 3 right; left|].
  apply lookup_set_if in H4 as [[-> H4]|H4]; [by do 2 right; left|].
  apply lookup_set_if in H4 as [[-> H4]|H4]; [by right; left|].
  apply lookup_set_if in H4 as [[-> H4]|H4]; [by left|].
  by rewrite lookup_empty in H4.
Qed.

Lemma delimited_occurs (d : ascii -> bool) (t y : string) :
  match_delimited d t = Some y -> occurs_in y t.
Proof.
  intros H. destruct (match_delimited_shape d t y H) as (c & c' & rest & _ & _ & -> & _).
  by exists (String c EmptyString), (String c' rest).
Qed.

Lemma patterns_occur (patterns : list (string -> option string)) (s x : string) :
  (forall p, In p patterns -> forall t y, p t = Some y -> occurs_in y t /\ y <> EmptyString) ->
  first_match patterns s = Some x -> occurs_in x s /\ x <> EmptyString.
Proof.
  intros Hp H. destruct (first_match_found patterns s x H) as (p & Hin & Hs).
  destruct (search_found p s x Hs) as (pre & t & -> & Ht).
  destruct (Hp p Hin t x Ht) as [Ho Hne]. split; [|done]. by apply occurs_in_append_r.
Qed.

Lemma delimited_patterns (patterns : list (string -> option string)) :
  Forall (fun p => exists d, p = match_delimited d) patterns ->
  forall p, In p patterns -> forall t y, p t = Some y -> occurs_in y t /\ y <> EmptyString.
Proof.
  intros Hall p Hin t y Hy. rewrite Forall_forall in Hall.
  destruct (Hall p) as [d ->]; [by apply list_elem_of_In|].
  split; [by eapply delimited_occurs|].
  by destruct (match_delimited_shape d t y Hy) as (_ & _ & _ & _ & _ & _ & Hne & _).
Qed.

(** X6. Every component read from a citation is filed under one of the six
    names url, year, doi, title, author and journal, and its value is a piece
    of the citation text; but for the author, which may be empty, it is not
    empty. *)
Theorem components_are_pieces_of_the_citation (citation k v : string) :
  _extract_citation_components citation !! k = Some v ->
  In k ["url"; "year"; "doi"; "title"; "author"; "journal"]
  /\ occurs_in v citation
  /\ (k <> "author" -> v <> EmptyString).
Proof.
  intros H.
  destruct (component_origin citation k v H)
    as [[-> Hv]|[[-> Hv]|[[-> Hv]|[[-> Hv]|[[-> Hv]|[-> Hv]]]]]].
  - split; [simpl; auto|].
    destruct (search_found _ _ _ Hv) as (pre & t & -> & Ht).
    destruct (match_url_shape t v Ht) as (scheme & run & rest & -> & Hscheme & _ & _ & ->).
    split.
    + apply occurs_in_append_r, occurs_in_append_l, occurs_in_refl.
    + intros _. by destruct Hscheme as [-> | ->].
  - split; [simpl; auto|].
    apply last_Some in Hv as [l' Hl].
    assert (Hin : In v (findall_year citation)).
    { rewrite Hl. apply in_or_app. right. by left. }
    split; [by apply (findall_year_occur citation false 0)|].
    intros _. pose proof (findall_year_groups citation false 0) as Hg.
    rewrite Forall_forall in Hg. destruct (Hg v) as [-> | ->]; [by apply list_elem_of_In|done|done].
  - split; [simpl; auto|].
    destruct (search_found _ _ _ Hv) as (pre & t & -> & Ht).
    destruct (match_doi_shape t v Ht) as (digits & run & rest & -> & _ & _ & _ & _ & ->).
    split.
    + apply occurs_in_append_r, occurs_in_append_l, occurs_in_refl.
    + done.
  - split; [simpl; auto 10|].
    destruct (patterns_occur title_patterns citation v) as [Ho Hne]; [|done|by split].
    apply delimited_patterns. unfold title_patterns. repeat constructor; eauto.
  - split; [simpl; auto 10|].
    destruct Hv as (year & a & _ & Ha & ->). split; [|done].
    eapply occurs_in_trans; [apply strip_occurs|].
    destruct (search_found _ _ _ Ha) as (pre & t & -> & Ht).
    destruct (match_author_shape year t a Ht) as (_ & _ & rest & -> & _).
    apply occurs_in_append_r, occurs_in_append_l, occurs_in_refl.
  - split; [simpl; auto 10|].
    destruct (patterns_occur journal_patterns citation v) as [Ho Hne]; [|done|by split].
    apply delimited_patterns. unfold journal_patterns. repeat constructor; eauto.
Qed.

Lemma components_are_pieces_of_the_citation_witness :
  _extract_citation_components Examples.full_citation !! "title" = Some "Deep Learning"
  /\ occurs_in "Deep Learning" Examples.full_citation.
Proof.
  assert (H : _extract_citation_components Examples.full_citation !! "title"
              = Some "Deep Learning") by (vm_compute; reflexivity).
  split; [exact H|].
  exact (proj1 (proj2 (components_are_pieces_of_the_citation _ _ _ H))).
Defined.

(** X7. When a citation has an author component it also has a year
    component; the author holds no full stop and has no white space at either
    end; and the citation reads: some text, then the text the author was cut
    from, which is not empty and holds no full stop, then white space or
    none, then at once the year component in parentheses. The author is that
    text without its outer white space. *)
Theorem author_shape (citation author : string) :
  _extract_citation_components citation !! "author" = Some author ->
  Forall (fun c => is_char "." c = false) (chars author)
  /\ strip author = author
  /\ exists year before raw space after,
       _extract_citation_components citation !! "year" = Some year
       /\ citation
          = String.append before
              (String.append raw
                 (String.append space (String.append (parenthesized year) after)))
       /\ author = strip raw
       /\ raw <> EmptyString
       /\ Forall (fun c => is_char "." c = false) (chars raw)
       /\ Forall (fun c => isspace c = true) (chars space).
Proof.
  intros H.
  destruct (component_origin citation "author" author H)
    as [[? _]|[[? _]|[[? _]|[[? _]|[[_ Hv]|[? _]]]]]]; try discriminate.
  destruct Hv as (year & a & Hyear & Ha & ->).
  destruct (search_found _ _ _ Ha) as (pre & t & -> & Ht).
  destruct (match_author_shape year t a Ht) as (Hne & Hdots & rest & -> & Hparen).
  repeat split.
  - rewrite Forall_forall in Hdots |- *. intros c Hc. apply Hdots.
    apply list_elem_of_In. apply list_elem_of_In in Hc.
    eapply chars_occurs_in; [apply strip_occurs|done].
  - apply strip_idempotent.
  - unfold match_year_paren in Hparen. apply prefix_spec in Hparen as [post Hpost].
    destruct (span_spec isspace rest) as (Hrest & Hspace & _).
    exists year, pre, a, (fst (span isspace rest)), post.
    repeat split; try done.
    rewrite Hrest at 1. by rewrite Hpost.
Qed.

Lemma author_shape_witness :
  _extract_citation_components Examples.author_year !! "author" = Some "Smith"
  /\ strip "Smith" = "Smith".
Proof.
  assert (H : _extract_citation_components Examples.author_year !! "author" = Some "Smith")
    by (vm_compute; reflexivity).
  split; [exact H|]. exact (proj1 (proj2 (author_shape _ _ H))).
Defined.

(** X8. The URL component of a citation begins with [http://] or
    [https://], goes on with at least one more character, and holds no white
    space, no double quote and none of the characters the pattern
    excludes. *)
Theorem url_shape (citation u : string) :
  _extract_citation_components citation !! "url" = Some u ->
  (exists rest, rest <> EmptyString
                /\ (u = String.append "http://" rest \/ u = String.append "https://" rest))
  /\ Forall (fun c => url_char c = true) (chars u).
Proof.
  intros H.
  destruct (component_origin citation "url" u H)
    as [[_ Hv]|[[? _]|[[? _]|[[? _]|[[? _]|[? _]]]]]]; try discriminate.
  destruct (search_found _ _ _ Hv) as (pre & t & -> & Ht).
  destruct (match_url_shape t u Ht) as (scheme & run & rest & -> & Hscheme & Hne & Hrun & _).
  split.
  - exists run. split; [done|]. destruct Hscheme as [-> | ->]; auto.
  - rewrite !chars_append. apply Forall_app. split; [|apply Forall_app; split; [|done]].
    + destruct Hscheme as [-> | ->]; repeat constructor.
    + repeat constructor.
Qed.

Lemma url_shape_witness :
  _extract_citation_components Examples.full_citation !! "url"
  = Some "https://example.org/paper"
  /\ Forall (fun c => url_char c = true) (chars "https://example.org/paper").
Proof.
  assert (H : _extract_citation_components Examples.full_citation !! "url"
              = Some "https://example.org/paper") by (vm_compute; reflexivity).
  split; [exact H|]. exact (proj2 (url_shape _ _ H)).
Defined.

(** ** Scoring *)

(** The loop over the required components, in closed form. *)
Lemma required_loop (components : gmap string string) (share : Q) (required : list string) :
  forall (score : Q) (r : validation_result),
    let out := fold_left (required_step components share) required (score, r) in
    fst out == score + inject_Z (Z.of_nat (length (List.filter (present components) required)))
                       * (1 / share)
    /\ issues (snd out)
       = (issues r ++ List.map (String.append "Missing ")
                        (List.filter (fun k => negb (present components k)) required))%list
    /\ strengths (snd out)
       = (strengths r ++ List.map (String.append "Has ")
                           (List.filter (present components) required))%list.
Proof.
  induction required as [|k rest IH]; intros score r; cbv zeta.
  - simpl. rewrite !app_nil_r. repeat split. ring.
  - cbn [fold_left List.filter]. unfold required_step at 2 4 6. fold (present components k).
    destruct (present components k) eqn:Hk; cbn [negb].
    + destruct (IH (score + 1 / share)%Q (add_strength (String.append "Has " k) r))
        as (Hs & Hi & Hst).
      rewrite Hs, Hi, Hst. cbn [add_strength issues strengths length List.map].
      rewrite <- app_assoc. repeat split.
      rewrite Nat2Z.inj_succ. unfold Z.succ. rewrite inject_Z_plus. ring.
    + destruct (IH score (add_issue (String.append "Missing " k) r)) as (Hs & Hi & Hst).
      rewrite Hs, Hi, Hst. cbn [add_issue issues strengths List.map].
      rewrite <- app_assoc. repeat split.
Qed.

(** The record of one citation, in closed form. *)
Lemma single_citation_record
    (check : string -> url_check) (citation style : string) (number : nat) :
  let components := _extract_citation_components citation in
  let required := _get_required_components style in
  let reachable := is_accessible (check (default EmptyString (components !! "url"))) in
  let r := _validate_single_citation check citation style number in
  quality_score r
  == Qmin (inject_Z (Z.of_nat (length (List.filter (present components) required)))
           * (1 / len_Q required)
           + bonus (present components "doi") (1 # 10)
           + bonus (present components "url") (5 # 100)
           + bonus (present components "url" && reachable) (1 # 10)) 1
  /\ is_valid r = Qle_bool (7 # 10) (quality_score r)
  /\ strengths r
     = (List.map (String.append "Has ") (List.filter (present components) required)
        ++ note (present components "doi") "Includes DOI"
        ++ note (present components "url") "Includes URL"
        ++ note (present components "url" && reachable) "URL is accessible")%list
  /\ issues r
     = (List.map (String.append "Missing ")
          (List.filter (fun k => negb (present components k)) required)
        ++ note (present components "url" && negb reachable)
             (String.append "URL not accessible: "
                (show_error (error (check (default EmptyString (components !! "url")))))))%list.
Proof.
  intros components required reachable r. subst r reachable.
  unfold _validate_single_citation, _validate_components. fold components required.
  match goal with
  | |- context [fold_left ?f required ?st] =>
      pose proof (required_loop components (len_Q required) required (fst st) (snd st)) as H;
      cbv zeta in H; cbn [fst snd] in H; destruct (fold_left f required st) as [score r1]
  end.
  cbn [fst snd set_metadata issues strengths] in H. destruct H as (Hs & Hi & Hst).
  unfold present in *.
  destruct (truthy (components !! "doi")), (truthy (components !! "url")),
    (is_accessible (check (default EmptyString (components !! "url"))));
    cbn [set_quality set_url_validation add_strength add_issue quality_score is_valid
         strengths issues bonus note andb negb];
    rewrite ?Hi, ?Hst, ?app_nil_r, <- ?app_assoc;
    (split; [apply Q.min_compat; [rewrite Hs; ring|reflexivity]|repeat split]).
Qed.

Lemma len_Q_nonneg {A : Type} (l : list A) : (0 <= len_Q l)%Q.
Proof. unfold len_Q. change 0%Q with (inject_Z 0). rewrite <- Zle_Qle. lia. Qed.

Lemma bonus_nonneg (b : bool) (q : Q) : (0 <= q)%Q -> (0 <= bonus b q)%Q.
Proof. destruct b; simpl; [done|lra]. Qed.

Lemma quality_score_bounds
    (check : string -> url_check) (citation style : string) (number : nat) :
  (0 <= quality_score (_validate_single_citation check citation style number) <= 1)%Q.
Proof.
  destruct (single_citation_record check citation style number) as [Hq _].
  cbv zeta in Hq. rewrite Hq. split; [|apply Q.le_min_r].
  apply Q.min_glb; [|lra].
  assert (H1 : (0 <= 1 / len_Q (_get_required_components style))%Q).
  { unfold Qdiv. rewrite Qmult_1_l. apply Qinv_le_0_compat, len_Q_nonneg. }
  match goal with
  | |- (0 <= inject_Z (Z.of_nat ?n) * _ + _ + _ + _)%Q =>
      assert (H0 : (0 <= inject_Z (Z.of_nat n))%Q)
        by (change 0%Q with (inject_Z 0); rewrite <- Zle_Qle; lia)
  end.
  pose proof (Qmult_le_0_compat _ _ H0 H1).
  pose proof (bonus_nonneg (present (_extract_citation_components citation) "doi") (1 # 10)).
  pose proof (bonus_nonneg (present (_extract_citation_components citation) "url") (5 # 100)).
  match goal with
  | |- context [bonus (?a && ?b) ?q] => pose proof (bonus_nonneg (a && b) q)
  end.
  lra.
Qed.

(** X9. The quality score of a citation lies between 0 and 1, whatever the
    citation, the style and the answer of the URL check; hence a citation is
    valid exactly when its score lies between 0.7 and 1. *)
Theorem quality_score_range
    (check : string -> url_check) (citation style : string) (number : nat) :
  let r := _validate_single_citation check citation style number in
  (0 <= quality_score r <= 1)%Q
  /\ (is_valid r = true <-> (7 # 10 <= quality_score r <= 1)%Q).
Proof.
  cbv zeta. pose proof (quality_score_bounds check citation style number) as Hq.
  split; [exact Hq|].
  destruct (single_citation_record check citation style number) as (_ & Hv & _).
  cbv zeta in Hv. rewrite Hv, Qle_bool_iff. tauto.
Qed.

Lemma append_injective (p a b : string) :
  String.append p a = String.append p b -> a = b.
Proof. induction p as [|c p IH]; simpl; [done|]. intros [= H]. by apply IH. Qed.

Lemma note_elem (b : bool) (msg x : string) : In x (note b msg) -> x = msg.
Proof. destruct b; simpl; [by intros [<-|[]]|done]. Qed.

(** X10. For each component the style requires, the record of a citation
    holds exactly one verdict: the strength [Has k] when the component was
    found and is not empty, the issue [Missing k] otherwise. *)
Theorem each_required_component_has_one_verdict
    (check : string -> url_check) (citation style : string) (number : nat) (k : string) :
  In k (_get_required_components style) ->
  let components := _extract_citation_components citation in
  let r := _validate_single_citation check citation style number in
  (In (String.append "Has " k) (strengths r) <-> truthy (components !! k) = true)
  /\ (In (String.append "Missing " k) (issues r) <-> truthy (components !! k) = false).
Proof.
  intros Hk components r.
  destruct (single_citation_record check citation style number) as (_ & _ & Hst & Hi).
  cbv zeta in Hst, Hi. fold components r in Hst, Hi. rewrite Hst, Hi.
  fold (present components k). split; split.
  - intros H. apply in_app_or in H as [H|H].
    + apply List.in_map_iff in H as (x & Hx & Hin).
      apply append_injective in Hx as ->. by apply List.filter_In in Hin as [_ Hin].
    + repeat (apply in_app_or in H as [H|H]); apply note_elem in H; discriminate.
  - intros H. apply in_or_app. left. apply List.in_map. by apply List.filter_In.
  - intros H. apply in_app_or in H as [H|H].
    + apply List.in_map_iff in H as (x & Hx & Hin).
      apply append_injective in Hx as ->. apply List.filter_In in Hin as [_ Hin].
      by apply negb_true_iff in Hin.
    + apply note_elem in H. discriminate.
  - intros H. apply in_or_app. left. apply List.in_map. apply List.filter_In.
    split; [done|]. by apply negb_true_iff.
Qed.

Lemma each_required_component_has_one_verdict_witness :
  In "title" (_get_required_components "MLA")
  /\ (In "Has title"
        (strengths (_validate_single_citation Examples.unreachable Examples.full_citation "MLA" 1))
      <-> truthy (_extract_citation_components Examples.full_citation !! "title") = true).
Proof.
  assert (H : In "title" (_get_required_components "MLA")) by (vm_compute; auto).
  split; [exact H|].
  exact (proj1 (each_required_component_has_one_verdict
                  Examples.unreachable Examples.full_citation "MLA" 1 "title" H)).
Defined.

(** A test that holds of the 256 characters holds of every character. *)
Lemma every_character (f : ascii -> bool) :
  forallb f (List.map ascii_of_nat (seq 0 256)) = true -> forall c, f c = true.
Proof.
  intros H c. rewrite forallb_forall in H. apply H.
  rewrite <- (ascii_nat_embedding c). apply List.in_map, in_seq.
  pose proof (nat_ascii_bounded c). lia.
Qed.

Lemma upper_char_not_lower_case (c : ascii) :
  Forall (fun a => between 97 122 a = false) (chars (upper_char c)).
Proof.
  apply Forall_forall. intros a Ha. apply list_elem_of_In in Ha.
  pose proof (every_character
                (fun c => forallb (fun a => negb (between 97 122 a)) (chars (upper_char c))))
    as H.
  assert (Hc := H ltac:(vm_compute; reflexivity) c). rewrite forallb_forall in Hc.
  by apply negb_true_iff, Hc.
Qed.

Lemma upper_not_lower_case (s : string) :
  Forall (fun a => between 97 122 a = false) (chars (upper s)).
Proof.
  induction s as [|c s IH]; simpl; [constructor|].
  rewrite chars_append. apply Forall_app. split; [apply upper_char_not_lower_case|done].
Qed.

Lemma upper_is_not_Chicago (s : string) : upper s <> "Chicago".
Proof.
  intros H. pose proof (upper_not_lower_case s) as Hall. rewrite H in Hall.
  inversion Hall as [|? ? _ Hrest]. inversion Hrest as [|? ? Hh _]. discriminate.
Qed.

Lemma required_cases (style : string) :
  _get_required_components style
  = if String.eqb (upper style) "APA" || String.eqb (upper style) "MLA"
    then ["author"; "title"; "year"; "source"]
    else ["author"; "title"; "year"].
Proof.
  unfold _get_required_components, style_requirements.
  pose proof (upper_is_not_Chicago style) as Hc.
  rewrite lookup_insert_ne by congruence.
  destruct (String.eqb_spec (upper style) "MLA") as [->|Hm].
  - by rewrite lookup_insert_eq.
  - rewrite lookup_insert_ne by congruence.
    destruct (String.eqb_spec (upper style) "APA") as [->|Ha].
    + by rewrite lookup_insert_eq.
    + by rewrite lookup_insert_ne, lookup_empty by congruence.
Qed.

(** X11. The components a style requires: author, title, year and source
    when the style is APA or MLA in any letter case; author, title and year
    for every other style. Chicago, in any letter case, is one of the
    others: its entry in the table is never reached. *)
Theorem required_components_by_style (style : string) :
  _get_required_components style
  = (if String.eqb (upper style) "APA" || String.eqb (upper style) "MLA"
     then ["author"; "title"; "year"; "source"]
     else ["author"; "title"; "year"])
  /\ (upper style = "CHICAGO" ->
      _get_required_components style = ["author"; "title"; "year"]).
Proof.
  split; [apply required_cases|]. intros Hu. rewrite required_cases, Hu. reflexivity.
Qed.

Lemma required_components_by_style_witness :
  upper "Chicago" = "CHICAGO"
  /\ _get_required_components "Chicago" = ["author"; "title"; "year"].
Proof.
  split; [reflexivity|].
  exact (proj2 (required_components_by_style "Chicago") eq_refl).
Defined.

(** X12. Validity under APA and MLA, in any letter case. A citation with
    author, title and year is valid; a valid citation has at least two of
    the three; and without DOI and URL a citation is valid exactly when it
    has all three. *)
Theorem validity_under_apa_and_mla
    (check : string -> url_check) (citation style : string) (number : nat) :
  upper style = "APA" \/ upper style = "MLA" ->
  let components := _extract_citation_components citation in
  let r := _validate_single_citation check citation style number in
  let author := truthy (components !! "author") in
  let title := truthy (components !! "title") in
  let year := truthy (components !! "year") in
  (author && title && year = true -> is_valid r = true)
  /\ (is_valid r = true ->
      (author && title) || (author && year) || (title && year) = true)
  /\ (truthy (components !! "doi") = false -> truthy (components !! "url") = false ->
      is_valid r = author && title && year).
Proof.
  intros Hstyle components r author title year. subst r author title year.
  unfold _validate_single_citation.
  rewrite (required_apa_mla style Hstyle).
  unfold _validate_components, required_step. cbn [fold_left].
  fold components. replace (components !! "source") with (@None string)
    by (symmetry; apply extracted_source).
  cbn [truthy].
  score_cases; cbn; repeat split; intros; try done; by vm_compute.
Qed.

Lemma validity_under_apa_and_mla_witness :
  upper "apa" = "APA"
  /\ is_valid (_validate_single_citation Examples.unreachable Examples.author_title_year "apa" 1)
     = true.
Proof.
  split; [reflexivity|].
  apply (proj1 (validity_under_apa_and_mla Examples.unreachable Examples.author_title_year
                  "apa" 1 (or_introl eq_refl))).
  vm_compute. reflexivity.
Defined.

(** ** Splitting a text into citations *)

Lemma split_on_pieces (sep s : string) :
  forall (cur : string) (skip : nat) (piece : string),
    skip = O \/ cur = EmptyString ->
    In piece (split_on_from sep cur skip s) ->
    occurs_in piece (String.append (reverse cur) s).
Proof.
  induction s as [|c t IH]; intros cur skip piece Hskip Hpiece;
    cbn [split_on_from] in Hpiece.
  - destruct Hpiece as [<-|[]]. rewrite append_empty_r. apply occurs_in_refl.
  - destruct skip as [|k].
    + destruct (String.prefix sep (String c t)).
      * destruct Hpiece as [<-|Hpiece]; [apply occurs_in_append_l, occurs_in_refl|].
        apply IH in Hpiece; [|by right].
        by apply occurs_in_append_r, occurs_in_cons.
      * apply IH in Hpiece; [|by left].
        by rewrite reverse_cons, append_assoc in Hpiece.
    + destruct Hskip as [Hk| ->]; [discriminate|].
      apply IH in Hpiece; [|by right]. by apply occurs_in_cons.
Qed.

Lemma split_on_without (sep s : string) :
  contains s sep = false ->
  forall cur, split_on_from sep cur 0 s = [String.append (reverse cur) s].
Proof.
  induction s as [|c t IH]; intros Hno cur; cbn [split_on_from].
  - by rewrite append_empty_r.
  - cbn [contains] in Hno. apply orb_false_iff in Hno as [Hp Ht].
    rewrite Hp, (IH Ht). by rewrite reverse_cons, append_assoc.
Qed.

Lemma split_all_pieces (text : string) (citations : list string) (seps : list string) :
  Forall (fun c => occurs_in c text) citations ->
  Forall (fun c => occurs_in c text) (fold_left split_all seps citations).
Proof.
  revert citations. induction seps as [|sep seps IH]; intros citations Hall; simpl; [done|].
  apply IH. unfold split_all. rewrite Forall_forall in Hall |- *.
  intros piece Hpiece. apply list_elem_of_In, in_flat_map in Hpiece as (c & Hc & Hpiece).
  eapply occurs_in_trans; [|apply Hall; by apply list_elem_of_In].
  by apply (split_on_pieces sep c EmptyString 0 piece (or_introl eq_refl)).
Qed.

(** X13. Every citation read from a text is longer than twenty characters,
    has no white space at either end and is a piece of the text. *)
Theorem parsed_citations_are_clean (citations_text citation : string) :
  In citation (_parse_citations citations_text) ->
  (20 < String.length citation)%nat
  /\ strip citation = citation
  /\ occurs_in citation citations_text.
Proof.
  unfold _parse_citations. intros Hin.
  apply List.in_map_iff in Hin as (piece & <- & Hpiece).
  apply List.filter_In in Hpiece as [Hpiece Hkeep].
  unfold keep_citation in Hkeep. apply andb_true_iff in Hkeep as [_ Hlen].
  apply Nat.ltb_lt in Hlen. repeat split; [done|apply strip_idempotent|].
  eapply occurs_in_trans; [apply strip_occurs|].
  assert (Hall : Forall (fun c => occurs_in c citations_text)
                    (fold_left split_all separators [citations_text])).
  { apply split_all_pieces. constructor; [apply occurs_in_refl|constructor]. }
  rewrite Forall_forall in Hall. apply Hall. by apply list_elem_of_In.
Qed.

Lemma parsed_citations_are_clean_witness :
  In "Smith (2020). Deep Learning. Nature."
    (_parse_citations "  Smith (2020). Deep Learning. Nature.  ")
  /\ (20 < String.length "Smith (2020). Deep Learning. Nature.")%nat.
Proof.
  assert (H : In "Smith (2020). Deep Learning. Nature."
                (_parse_citations "  Smith (2020). Deep Learning. Nature.  "))
    by (vm_compute; auto).
  split; [exact H|]. exact (proj1 (parsed_citations_are_clean _ _ H)).
Defined.

(** X14. A text in which none of the separators occurs, such as citations
    that follow one another on single lines, is not split: it is read as one
    citation, the stripped text, when that is longer than twenty characters,
    and as none otherwise. *)
Theorem text_without_separator_is_one_citation (citations_text : string) :
  Forall (fun sep => contains citations_text sep = false) separators ->
  _parse_citations citations_text
  = if (20 <? String.length (strip citations_text))%nat
    then [strip citations_text] else [].
Proof.
  intros Hno. unfold _parse_citations.
  assert (Hfold : forall seps,
             Forall (fun sep => contains citations_text sep = false) seps ->
             fold_left split_all seps [citations_text] = [citations_text]).
  { induction seps as [|sep seps IH]; intros Hs; [reflexivity|].
    apply Forall_cons in Hs as [Hsep Hs]. simpl. unfold split_on.
    rewrite (split_on_without sep citations_text Hsep EmptyString). simpl. by apply IH. }
  rewrite (Hfold separators Hno). simpl. unfold keep_citation.
  destruct (20 <? String.length (strip citations_text))%nat eqn:Hlen.
  - apply Nat.ltb_lt in Hlen.
    destruct (strip citations_text) eqn:E; [simpl in Hlen; lia|]. simpl. by rewrite E.
  - by rewrite andb_false_r.
Qed.

Lemma text_without_separator_is_one_citation_witness :
  _parse_citations
    (String.append "https://example.org/a-long-path"
       (String.append line_feed "https://example.org/another"))
  = [String.append "https://example.org/a-long-path"
       (String.append line_feed "https://example.org/another")].
Proof.
  rewrite text_without_separator_is_one_citation; [reflexivity|].
  repeat constructor.
Defined.

(** ** The report of the citation validator *)

Lemma required_loop_echo (components : gmap string string) (share : Q) (required : list string) :
  forall (score : Q) (r : validation_result),
    original_citation (snd (fold_left (required_step components share) required (score, r)))
    = original_citation r
    /\ citation_number (snd (fold_left (required_step components share) required (score, r)))
       = citation_number r.
Proof.
  induction required as [|k rest IH]; intros score r; [done|].
  cbn [fold_left]. unfold required_step at 2 4.
  destruct (truthy (components !! k)); by rewrite !(proj1 (IH _ _)), !(proj2 (IH _ _)).
Qed.

(** The record of a citation names the citation and its number. *)
Lemma single_citation_echo
    (check : string -> url_check) (citation style : string) (number : nat) :
  original_citation (_validate_single_citation check citation style number) = citation
  /\ citation_number (_validate_single_citation check citation style number) = number.
Proof.
  unfold _validate_single_citation, _validate_components.
  match goal with
  | |- context [fold_left ?f ?l (?s, ?r)] =>
      destruct (required_loop_echo (_extract_citation_components citation)
                  (len_Q l) l s r) as [Ho Hn];
      destruct (fold_left f l (s, r)) as [score r1]
  end.
  cbn [snd set_metadata original_citation citation_number] in Ho, Hn.
  score_cases; by cbn.
Qed.

Section ReportFacts.
Variable check : string -> url_check.

Lemma validate_loop (style : string) (citation_list : list string) :
  forall st,
    loop_invariant st ->
    let out := fold_left (validate_step check style) citation_list st in
    loop_invariant out
    /\ List.map original_citation (snd (fst (fst out)))
       = (List.map original_citation (snd (fst (fst st))) ++ citation_list)%list
    /\ forall c, In c citation_list ->
         exists n, In (_validate_single_citation check c style n) (snd (fst (fst out))).
Proof.
  induction citation_list as [|c rest IH]; intros st Hst; cbv zeta.
  - simpl. rewrite app_nil_r. repeat split; [done|]. intros c [].
  - cbn [fold_left]. destruct st as [[[idx validated] valid] found].
    destruct Hst as (Hidx & Hvalid & Hfound & Hq).
    set (r := _validate_single_citation check c style (idx + 1)).
    assert (Hnext : loop_invariant (validate_step check style (idx, validated, valid, found) c)).
    { unfold validate_step. fold r. repeat split.
      - rewrite length_app. simpl. lia.
      - rewrite List.filter_app, length_app. simpl.
        destruct (is_valid r); simpl; lia.
      - rewrite flat_map_app. simpl. by rewrite app_nil_r, Hfound.
      - apply Forall_app. split; [done|]. constructor; [|constructor].
        apply quality_score_bounds. }
    destruct (IH _ Hnext) as (Hinv & Horig & Hall). cbv zeta in Hinv, Horig, Hall.
    repeat split; [exact Hinv| |].
    + rewrite Horig. unfold validate_step. cbn [fst snd].
      rewrite List.map_app, <- app_assoc. simpl.
      by rewrite (proj1 (single_citation_echo check c style (idx + 1))).
    + intros c' [<-|Hc'].
      * exists (idx + 1)%nat.
        assert (Hin : In r (snd (fst (fst (validate_step check style
                                               (idx, validated, valid, found) c))))).
        { unfold validate_step. cbn [fst snd]. apply in_or_app. right. by left. }
        clear -Hin. revert Hin. generalize (validate_step check style (idx, validated, valid, found) c).
        induction rest as [|c2 rest IH2]; intros st Hin; [exact Hin|].
        cbn [fold_left]. apply IH2. destruct st as [[[i v] a] f].
        unfold validate_step. cbn [fst snd] in *. apply in_or_app. by left.
      * by apply Hall.
Qed.

End ReportFacts.

Lemma total_quality_bounds (records : list validation_result) :
  Forall (fun r => (0 <= quality_score r <= 1)%Q) records ->
  forall acc : Q,
    (acc <= fold_left (fun a r => (a + quality_score r)%Q) records acc
     <= acc + len_Q records)%Q.
Proof.
  induction 1 as [|r rest Hr _ IH]; intros acc.
  - unfold len_Q. cbn [fold_left length]. change (inject_Z (Z.of_nat 0)) with 0%Q. lra.
  - cbn [fold_left]. specialize (IH (acc + quality_score r)%Q).
    unfold len_Q in *. cbn [length]. pose proof (len_succ (length rest)). lra.
Qed.

Lemma overall_quality_bounds (records : list validation_result) :
  Forall (fun r => (0 <= quality_score r <= 1)%Q) records ->
  (0 <= _calculate_overall_quality records <= 1)%Q.
Proof.
  intros Hall. unfold _calculate_overall_quality.
  destruct records as [|r rest] eqn:E; [lra|]. rewrite <- E in *.
  assert (Hpos : (0 < len_Q records)%Q).
  { unfold len_Q. apply len_positive. by rewrite E. }
  pose proof (total_quality_bounds records Hall 0%Q) as [Hlo Hhi].
  unfold total_quality. split.
  - apply Qle_shift_div_l; [done|]. lra.
  - apply Qle_shift_div_r; [done|]. lra.
Qed.

(** X15. The report of the citation validator is consistent: it holds one
    record per citation read from the text, in the order of the text; the
    count of valid citations is the number of records marked valid and is at
    most the total; the validation rate and the overall quality score lie
    between 0 and 1; improvement is asked for exactly when some record is
    not valid; and the issues found are the issues of the records, in
    order. *)
Theorem report_is_consistent (check : string -> url_check) (citations style : string) :
  let report := citation_validator check citations style in
  let records := validated_citations report in
  List.map original_citation records = _parse_citations citations
  /\ total_citations (summary report) = length records
  /\ valid_citations (summary report) = length (List.filter is_valid records)
  /\ (valid_citations (summary report) <= total_citations (summary report))%nat
  /\ (0 <= validation_rate (summary report) <= 1)%Q
  /\ (0 <= overall_quality_score (summary report) <= 1)%Q
  /\ (needs_improvement (summary report) = true
      <-> exists r, In r records /\ is_valid r = false)
  /\ issues_found report = flat_map issues records.
Proof.
  cbv zeta. unfold citation_validator, validate_all.
  assert (Hinit : loop_invariant (O, [], O, [])) by (repeat split; constructor).
  destruct (validate_loop check style (_parse_citations citations) _ Hinit)
    as (Hinv & Horig & _). cbv zeta in Hinv, Horig.
  destruct (fold_left _ _ _) as [[[idx records] valid] found].
  destruct Hinv as (Hidx & Hvalid & Hfound & Hq). cbn [fst snd List.map app] in Horig.
  cbn [summary validated_citations total_citations valid_citations validation_rate
       overall_quality_score needs_improvement issues_found].
  assert (Hlen : length (_parse_citations citations) = length records)
    by (rewrite <- Horig; apply List.length_map).
  assert (Hle : (valid <= length records)%nat)
    by (rewrite Hvalid; apply List.filter_length_le).
  rewrite Hlen. repeat split; try done.
  - destruct (0 <? length records)%nat eqn:E; [|lra].
    apply Nat.ltb_lt in E. apply Qle_shift_div_l.
    + change 0%Q with (inject_Z 0). rewrite <- Zlt_Qlt. lia.
    + rewrite Qmult_0_l. change 0%Q with (inject_Z 0). rewrite <- Zle_Qle. lia.
  - destruct (0 <? length records)%nat eqn:E; [|lra].
    apply Nat.ltb_lt in E. apply Qle_shift_div_r.
    + change 0%Q with (inject_Z 0). rewrite <- Zlt_Qlt. lia.
    + rewrite Qmult_1_l, <- Zle_Qle. lia.
  - by apply overall_quality_bounds.
  - by apply overall_quality_bounds.
  - intros Hneeds. apply Nat.ltb_lt in Hneeds. rewrite Hvalid in Hneeds.
    clear -Hneeds. induction records as [|r rest IH]; simpl in Hneeds; [lia|].
    destruct (is_valid r) eqn:Hr.
    + simpl in Hneeds. destruct IH as (r' & Hin & Hr'); [lia|].
      exists r'. split; [by right|done].
    + exists r. split; [by left|done].
  - intros (r & Hin & Hr). apply Nat.ltb_lt. rewrite Hvalid.
    clear -Hin Hr. induction records as [|r' rest IH]; [destruct Hin|].
    simpl. destruct Hin as [->|Hin].
    + rewrite Hr. pose proof (List.filter_length_le is_valid rest). lia.
    + specialize (IH Hin). destruct (is_valid r'); simpl; lia.
Qed.

(** *** Recommendations *)

Lemma cond_elem (b : bool) (msg x : string) :
  In x (if b then [msg] else []) <-> b = true /\ x = msg.
Proof.
  destruct b; simpl.
  - split; [intros [H|[]]; auto|intros [_ H]; auto].
  - split; [tauto|intros [H _]; discriminate].
Qed.

(** X16. The recommendations always end with the reminder of the style, as
    it was given; the advice to review the citations is there exactly when
    the overall quality is below 0.7, the advice to use more authoritative
    sources exactly when it is below 0.5, so the second never comes without
    the first; and there are at most seven recommendations. *)
Theorem recommendations_follow_the_quality
    (found : list string) (quality : Q) (style : string) :
  let recs := _generate_recommendations found quality style in
  last recs = Some (style_reminder style)
  /\ (In "Review citations for completeness and accuracy" recs <-> (quality < 7 # 10)%Q)
  /\ (In "Consider using more authoritative sources" recs <-> (quality < 5 # 10)%Q)
  /\ (In "Consider using more authoritative sources" recs ->
      In "Review citations for completeness and accuracy" recs)
  /\ (1 <= length recs <= 7)%nat.
Proof.
  cbv zeta. unfold _generate_recommendations. fold (style_reminder style).
  assert (H7 : negb (Qle_bool (7 # 10) quality) = true <-> (quality < 7 # 10)%Q).
  { rewrite negb_true_iff, <- not_true_iff_false, Qle_bool_iff. split; [apply Qnot_le_lt|lra]. }
  assert (H5 : negb (Qle_bool (5 # 10) quality) = true <-> (quality < 5 # 10)%Q).
  { rewrite negb_true_iff, <- not_true_iff_false, Qle_bool_iff. split; [apply Qnot_le_lt|lra]. }
  assert (Hreview : In "Review citations for completeness and accuracy"
                      (_generate_recommendations found quality style)
                    <-> (quality < 7 # 10)%Q).
  { unfold _generate_recommendations. fold (style_reminder style).
    rewrite !in_app_iff, !cond_elem, H7. simpl. unfold style_reminder. simpl.
    intuition (try discriminate). }
  assert (Hconsider : In "Consider using more authoritative sources"
                        (_generate_recommendations found quality style)
                      <-> (quality < 5 # 10)%Q).
  { unfold _generate_recommendations. fold (style_reminder style).
    rewrite !in_app_iff, !cond_elem, H5. simpl. unfold style_reminder. simpl.
    intuition (try discriminate). }
  unfold _generate_recommendations in Hreview, Hconsider. fold (style_reminder style) in *.
  split; [|split; [exact Hreview|split; [exact Hconsider|split]]].
  - rewrite !app_assoc. apply last_snoc.
  - intros H. apply Hreview. apply Hconsider in H. lra.
  - rewrite !length_app.
    destruct (any_issue "Missing author" found), (any_issue "Missing year" found),
      (any_issue "Missing title" found), (any_issue "URL not accessible" found),
      (negb (Qle_bool (7 # 10) quality)), (negb (Qle_bool (5 # 10) quality)); simpl; lia.
Qed.

Lemma common_is_required (style k : string) :
  In k ["author"; "title"; "year"] -> In k (_get_required_components style).
Proof.
  rewrite required_cases. destruct (_ || _); simpl; tauto.
Qed.

Lemma any_issue_found (pattern : string) (found : list string) :
  In pattern found -> any_issue pattern found = true.
Proof.
  intros H. unfold any_issue. apply existsb_exists. exists pattern.
  split; [done|]. apply contains_spec, occurs_in_refl.
Qed.

(** X17. From the text to the advice: when a citation read from the text has
    no author, the recommendations ask for author information, whatever the
    style; when it has no year they ask for publication years, and when it
    has no title for complete titles. *)
Theorem missing_component_is_recommended
    (check : string -> url_check) (citations style citation : string) :
  In citation (_parse_citations citations) ->
  let components := _extract_citation_components citation in
  let recs := recommendations (citation_validator check citations style) in
  (truthy (components !! "author") = false ->
   In "Add author information for incomplete citations" recs)
  /\ (truthy (components !! "year") = false ->
      In "Include publication years for all sources" recs)
  /\ (truthy (components !! "title") = false ->
      In "Provide complete titles for all cited works" recs).
Proof.
  intros Hin components recs. subst recs.
  unfold citation_validator, validate_all.
  assert (Hinit : loop_invariant (O, [], O, [])) by (repeat split; constructor).
  destruct (validate_loop check style (_parse_citations citations) _ Hinit)
    as (Hinv & _ & Hall). cbv zeta in Hinv, Hall.
  destruct (Hall citation Hin) as [n Hn]. clear Hall.
  destruct (fold_left _ _ _) as [[[idx records] valid] found].
  destruct Hinv as (_ & _ & Hfound & _). cbn [fst snd] in Hn.
  cbn [recommendations]. unfold _generate_recommendations.
  assert (Hissue : forall k, In k ["author"; "title"; "year"] ->
             truthy (components !! k) = false ->
             any_issue (String.append "Missing " k) found = true).
  { intros k Hk Habsent. apply any_issue_found. rewrite Hfound.
    apply in_flat_map. exists (_validate_single_citation check citation style n).
    split; [done|].
    destruct (single_citation_record check citation style n) as (_ & _ & _ & Hi).
    cbv zeta in Hi. rewrite Hi. apply in_or_app. left. apply List.in_map.
    apply List.filter_In. split; [by apply common_is_required|].
    unfold present. fold components. by rewrite Habsent. }
  repeat split; intros Habsent.
  - pose proof (Hissue "author" ltac:(simpl; auto) Habsent) as H. simpl in H.
    rewrite H. simpl. auto.
  - pose proof (Hissue "year" ltac:(simpl; auto) Habsent) as H. simpl in H.
    rewrite H, !in_app_iff. simpl. auto.
  - pose proof (Hissue "title" ltac:(simpl; auto) Habsent) as H. simpl in H.
    rewrite H, !in_app_iff. simpl. auto.
Qed.

Lemma missing_component_is_recommended_witness :
  In "Smith wrote a long text about learning"
    (_parse_citations "Smith wrote a long text about learning")
  /\ In "Add author information for incomplete citations"
       (recommendations
          (citation_validator Examples.unreachable
             "Smith wrote a long text about learning" "APA")).
Proof.
  assert (H : In "Smith wrote a long text about learning"
                (_parse_citations "Smith wrote a long text about learning"))
    by (vm_compute; auto).
  split; [exact H|].
  apply (proj1 (missing_component_is_recommended Examples.unreachable
                  "Smith wrote a long text about learning" "APA" _ H)).
  vm_compute. reflexivity.
Defined.

(** X18. A text in which no citation is found gives a report with no record
    and no issue, zero citations, rate and quality zero and no improvement
    asked for; its recommendations are still the advice to review the
    citations, the advice to use more authoritative sources and the reminder
    of the style. *)
Theorem report_without_citations (check : string -> url_check) (citations style : string) :
  _parse_citations citations = [] ->
  let report := citation_validator check citations style in
  validated_citations report = []
  /\ issues_found report = []
  /\ total_citations (summary report) = O
  /\ valid_citations (summary report) = O
  /\ validation_rate (summary report) = 0%Q
  /\ overall_quality_score (summary report) = 0%Q
  /\ needs_improvement (summary report) = false
  /\ recommendations report
     = ["Review citations for completeness and accuracy";
        "Consider using more authoritative sources";
        style_reminder style].
Proof.
  intros Hnone. cbv zeta. unfold citation_validator. rewrite Hnone.
  repeat split.
Qed.

Lemma report_without_citations_witness :
  recommendations (citation_validator Examples.unreachable "too short" "MLA")
  = ["Review citations for completeness and accuracy";
     "Consider using more authoritative sources";
     "Ensure all citations follow MLA formatting guidelines"].
Proof.
  apply (report_without_citations Examples.unreachable "too short" "MLA"). reflexivity.
Defined.

(** ** Formatting *)

Lemma concat_cons (sep x : string) (l : list string) :
  String.concat sep (x :: l)
  = String.append x (match l with
                     | [] => EmptyString
                     | _ => String.append sep (String.concat sep l)
                     end).
Proof. destruct l; simpl; [by rewrite append_empty_r|reflexivity]. Qed.

Lemma concat_occurs (sep part : string) (parts : list string) :
  In part parts -> occurs_in part (String.concat sep parts).
Proof.
  induction parts as [|x l IH]; [done|]. rewrite concat_cons. intros [<-|Hin].
  - apply occurs_in_append_l, occurs_in_refl.
  - apply occurs_in_append_r. destruct l; [done|]. by apply occurs_in_append_r, IH.
Qed.

Lemma part_if_present (components : gmap string string) (k v : string) (f : string -> string) :
  components !! k = Some v -> v <> EmptyString -> part_if components k f = [f v].
Proof.
  intros Hk Hv. unfold part_if. rewrite Hk. simpl. by destruct v.
Qed.

Section FormatFacts.
Variable today_mla today_chicago : string.

(** X19. A formatted citation shows its components: in each of the three
    styles, and in the fallback for an unknown style, the author, the title,
    the journal and the year that are present occur in the formatted text;
    so does the URL, except under MLA, whose text does not depend on which
    URL the citation has. *)
Theorem formatted_citation_shows_components
    (components : gmap string string) (style k v : string) :
  components !! k = Some v ->
  v <> EmptyString ->
  (In k ["author"; "title"; "journal"; "year"] ->
   occurs_in v (_format_citation today_mla today_chicago components style))
  /\ (k = "url" -> upper style <> "MLA" ->
      occurs_in v (_format_citation today_mla today_chicago components style))
  /\ (k = "url" -> forall u, u <> EmptyString ->
      _format_mla_citation today_mla (<["url" := u]> components)
      = _format_mla_citation today_mla components).
Proof.
  intros Hk Hv.
  assert (Hshow : forall (f : string -> string) (sep : string) (parts : list string),
             (forall x, occurs_in x (f x)) ->
             In (f v) parts ->
             occurs_in v (String.append (String.concat sep parts) ".")).
  { intros f sep parts Hf Hin. apply occurs_in_append_l.
    eapply occurs_in_trans; [apply Hf|]. by apply concat_occurs. }
  assert (Hid : forall x : string, occurs_in x x) by apply occurs_in_refl.
  assert (Hparen : forall x, occurs_in x (parenthesized x)).
  { intros x. by exists "(", ")". }
  assert (Hquote : forall x, occurs_in x (quoted_title x)).
  { intros x. by exists (String dquote EmptyString), (String dquote EmptyString). }
  assert (Hstar : forall x, occurs_in x (starred x)).
  { intros x. by exists "*", "*". }
  assert (Hurl1 : forall x, occurs_in x (String.append "Retrieved from " x)).
  { intros x. apply occurs_in_append_r, occurs_in_refl. }
  assert (Hurl2 : forall x, occurs_in x (String.append "accessed "
                                           (String.append today_chicago (String.append ", " x)))).
  { intros x. repeat apply occurs_in_append_r. apply occurs_in_refl. }
  split; [|split].
  - intros Hin. unfold _format_citation.
    assert (Hapa : occurs_in v (_format_apa_citation components)).
    { unfold _format_apa_citation. simpl in Hin.
      destruct Hin as [<-|[<-|[<-|[<-|[]]]]].
      - apply (Hshow (fun a => a)); [done|].
        rewrite (part_if_present components "author" v) by done. simpl. tauto.
      - apply (Hshow (fun a => a)); [done|].
        rewrite (part_if_present components "title" v) by done.
        rewrite !in_app_iff. simpl. tauto.
      - apply (Hshow starred); [done|].
        rewrite (part_if_present components "journal" v) by done.
        rewrite !in_app_iff. simpl. tauto.
      - apply (Hshow parenthesized); [done|].
        rewrite (part_if_present components "year" v) by done.
        rewrite !in_app_iff. simpl. tauto. }
    destruct (String.eqb (upper style) "APA"); [done|].
    destruct (String.eqb (upper style) "MLA"); [|destruct (String.eqb (upper style) "CHICAGO"); [|done]].
    + unfold _format_mla_citation. simpl in Hin.
      destruct Hin as [<-|[<-|[<-|[<-|[]]]]].
      * apply (Hshow (fun a => a)); [done|].
        rewrite (part_if_present components "author" v) by done. simpl. tauto.
      * apply (Hshow quoted_title); [done|].
        rewrite (part_if_present components "title" v) by done.
        rewrite !in_app_iff. simpl. tauto.
      * apply (Hshow starred); [done|].
        rewrite (part_if_present components "journal" v) by done.
        rewrite !in_app_iff. simpl. tauto.
      * apply (Hshow (fun a => a)); [done|].
        rewrite (part_if_present components "year" v) by done.
        rewrite !in_app_iff. simpl. tauto.
    + unfold _format_chicago_citation. simpl in Hin.
      destruct Hin as [<-|[<-|[<-|[<-|[]]]]].
      * apply (Hshow (fun a => a)); [done|].
        rewrite (part_if_present components "author" v) by done. simpl. tauto.
      * apply (Hshow quoted_title); [done|].
        rewrite (part_if_present components "title" v) by done.
        rewrite !in_app_iff. simpl. tauto.
      * apply (Hshow starred); [done|].
        rewrite (part_if_present components "journal" v) by done.
        rewrite !in_app_iff. simpl. tauto.
      * apply (Hshow parenthesized); [done|].
        rewrite (part_if_present components "year" v) by done.
        rewrite !in_app_iff. simpl. tauto.
  - intros -> Hmla. unfold _format_citation.
    assert (Hapa : occurs_in v (_format_apa_citation components)).
    { unfold _format_apa_citation. apply (Hshow (fun u => String.append "Retrieved from " u)); [done|].
      rewrite (part_if_present components "url" v) by done.
      rewrite !in_app_iff. simpl. tauto. }
    destruct (String.eqb (upper style) "APA"); [done|].
    destruct (String.eqb_spec (upper style) "MLA"); [done|].
    destruct (String.eqb (upper style) "CHICAGO"); [|done].
    unfold _format_chicago_citation.
    apply (Hshow (fun u => String.append "accessed "
                             (String.append today_chicago (String.append ", " u)))); [done|].
    rewrite (part_if_present components "url" v) by done.
    rewrite !in_app_iff. simpl. tauto.
  - intros -> u Hu. unfold _format_mla_citation.
    rewrite (part_if_present components "url" v) by done.
    rewrite (part_if_present (<["url" := u]> components) "url" u)
      by (by rewrite ?lookup_insert_eq).
    unfold part_if. by rewrite !lookup_insert_ne by discriminate.
Qed.

End FormatFacts.

Lemma formatted_citation_shows_components_witness :
  occurs_in "Deep Learning"
    (_format_citation "03 Nov 2026" "November 03, 2026"
       (_extract_citation_components Examples.full_citation) "Chicago").
Proof.
  apply (proj1 (formatted_citation_shows_components "03 Nov 2026" "November 03, 2026"
                  (_extract_citation_components Examples.full_citation)
                  "Chicago" "title" "Deep Learning"
                  ltac:(vm_compute; reflexivity) ltac:(discriminate))).
  simpl. auto.
Defined.

(** *** Formatting and reading back *)

Lemma span_stop (p : ascii -> bool) (run : string) (c : ascii) (rest : string) :
  Forall (fun a => p a = true) (chars run) -> p c = false ->
  span p (String.append run (String c rest)) = (run, String c rest).
Proof.
  intros Hrun Hc. induction run as [|a run IH]; simpl.
  - by rewrite Hc.
  - apply Forall_cons in Hrun as [Ha Hrun]. by rewrite Ha, (IH Hrun).
Qed.

Lemma span_all (p : ascii -> bool) (run : string) :
  Forall (fun a => p a = true) (chars run) -> span p run = (run, EmptyString).
Proof.
  intros Hrun. induction run as [|a run IH]; simpl; [done|].
  apply Forall_cons in Hrun as [Ha Hrun]. by rewrite Ha, (IH Hrun).
Qed.

Lemma search_skips (d : ascii -> bool) (pre s : string) :
  Forall (fun c => d c = false) (chars pre) ->
  search (match_delimited d) (String.append pre s) = search (match_delimited d) s.
Proof.
  intros Hpre. induction pre as [|c pre IH]; [done|].
  apply Forall_cons in Hpre as [Hc Hpre]. simpl. by rewrite Hc, (IH Hpre).
Qed.

Lemma delimited_found (d : ascii -> bool) (q q' : ascii) (x rest : string) :
  d q = true -> d q' = true -> x <> EmptyString ->
  Forall (fun c => d c = false) (chars x) ->
  match_delimited d (String q (String.append x (String q' rest))) = Some x.
Proof.
  intros Hq Hq' Hx Hall. unfold match_delimited. rewrite Hq, span_stop.
  - by destruct x.
  - eapply Forall_impl; [exact Hall|]. intros c Hc. simpl in Hc. by rewrite Hc.
  - by rewrite Hq'.
Qed.

Lemma extracted_title (citation : string) :
  _extract_citation_components citation !! "title" = first_match title_patterns citation.
Proof.
  unfold _extract_citation_components.
  rewrite lookup_set_if_ne by discriminate.
  rewrite lookup_author_step by discriminate.
  rewrite lookup_set_if_eq.
  destruct (first_match title_patterns citation); [reflexivity|].
  by rewrite !lookup_set_if_ne, lookup_empty by discriminate.
Qed.

(** The title in quotes is the first quoted text of a line that begins with
    an author without quotes, or with the title. *)
Lemma quoted_title_is_read_back (author_part : list string) (t : string) (rest : list string) :
  t <> EmptyString ->
  Forall (fun c => is_char dquote c = false) (chars t) ->
  Forall (fun a => Forall (fun c => is_char dquote c = false) (chars a)) author_part ->
  (length author_part <= 1)%nat ->
  first_match title_patterns
    (String.append (String.concat ", " (author_part ++ quoted_title t :: rest)) ".")
  = Some t.
Proof.
  intros Ht Hchars Hauthor Hlen.
  assert (Hhere : forall tail,
             search (match_delimited (is_char dquote)) (String.append (quoted_title t) tail)
             = Some t).
  { intros tail. unfold quoted_title. cbn [String.append search].
    rewrite append_assoc. cbn [String.append].
    by rewrite (delimited_found (is_char dquote) dquote dquote t tail). }
  unfold title_patterns. cbn [first_match].
  destruct author_part as [|a [|b l]]; [| |simpl in Hlen; lia].
  - cbn [app]. rewrite concat_cons, append_assoc. by rewrite Hhere.
  - cbn [app]. rewrite concat_cons, !append_assoc.
    apply Forall_cons in Hauthor as [Ha _].
    rewrite search_skips by done.
    rewrite (search_skips (is_char dquote) ", ") by repeat constructor.
    rewrite concat_cons, append_assoc. by rewrite Hhere.
Qed.

Section RoundTrip.
Variable today_mla today_chicago : string.

(** X20. Formatting and reading back: when the author of a citation, if
    any, holds no double quote, the MLA text and the Chicago text of its
    components, read again as a citation, give the same title. *)
Theorem title_survives_formatting (citation t : string) :
  let components := _extract_citation_components citation in
  components !! "title" = Some t ->
  (forall a, components !! "author" = Some a ->
             Forall (fun c => is_char dquote c = false) (chars a)) ->
  _extract_citation_components (_format_mla_citation today_mla components) !! "title" = Some t
  /\ _extract_citation_components (_format_chicago_citation today_chicago components) !! "title"
     = Some t.
Proof.
  intros components Htitle Hauthor.
  assert (Hshape : t <> EmptyString /\ Forall (fun c => is_char dquote c = false) (chars t)).
  { assert (Hfirst : first_match title_patterns citation = Some t)
      by (rewrite <- extracted_title; exact Htitle).
    destruct (first_match_found _ _ _ Hfirst) as (p & Hp & Hs).
    destruct (search_found _ _ _ Hs) as (pre & s & _ & Hm).
    unfold title_patterns in Hp. destruct Hp as [<-|[<-|[]]];
      destruct (match_delimited_shape _ _ _ Hm) as (_ & _ & _ & _ & _ & _ & Hne & Hall);
      (split; [done|]).
    - done.
    - eapply Forall_impl; [exact Hall|]. intros c Hc. simpl in Hc.
      by apply orb_false_iff in Hc as [Hc _]. }
  destruct Hshape as [Hne Hchars].
  assert (Hparts : exists author_part,
             part_if components "author" (fun a => a) = author_part
             /\ (length author_part <= 1)%nat
             /\ Forall (fun a => Forall (fun c => is_char dquote c = false) (chars a))
                  author_part).
  { unfold part_if. destruct (components !! "author") as [a|] eqn:Ha; simpl.
    - destruct a as [|c a]; simpl.
      + exists []. repeat split; [simpl; lia|constructor].
      + exists [String c a]. repeat split; [simpl; lia|].
        constructor; [by apply Hauthor|constructor].
    - exists []. repeat split; [simpl; lia|constructor]. }
  destruct Hparts as (author_part & Hpart & Hlen & Hquotes).
  rewrite !extracted_title. unfold _format_mla_citation, _format_chicago_citation.
  rewrite Hpart, (part_if_present components "title" t) by done.
  split; by apply quoted_title_is_read_back.
Qed.

End RoundTrip.

Lemma title_survives_formatting_witness :
  _extract_citation_components
    (_format_mla_citation "03 Nov 2026" (_extract_citation_components Examples.author_title_year))
    !! "title"
  = Some "Deep Learning".
Proof.
  apply (title_survives_formatting "03 Nov 2026" "November 03, 2026"
           Examples.author_title_year "Deep Learning").
  - vm_compute. reflexivity.
  - intros a Ha. vm_compute in Ha. injection Ha as <-. repeat constructor.
Defined.

(** ** DOIs *)

Lemma drop_prefix_append (p r : string) : drop_prefix p (String.append p r) = Some r.
Proof. induction p as [|c p IH]; simpl; [done|]. by rewrite Ascii.eqb_refl. Qed.

Section DoiFacts.
Variable head_status : string -> option nat.

(** X21. A DOI component read from a citation has the format [validate_doi]
    asks for; so for such a DOI the answer of [validate_doi] is just whether
    the resolver answers 200 or 302. *)
Theorem extracted_doi_is_well_formed (citation doi : string) :
  _extract_citation_components citation !! "doi" = Some doi ->
  doi_format doi = true
  /\ validate_doi head_status doi
     = match head_status (String.append "https://doi.org/" doi) with
       | Some code => (code =? 200)%nat || (code =? 302)%nat
       | None => false
       end.
Proof.
  intros H.
  destruct (component_origin citation "doi" doi H)
    as [[? _]|[[? _]|[[_ Hv]|[[? _]|[[? _]|[? _]]]]]]; try discriminate.
  destruct (search_found _ _ _ Hv) as (pre & t & _ & Ht).
  destruct (match_doi_shape t doi Ht) as (digits & run & rest & -> & Hd & Hlen & Hne & Hrun & _).
  assert (Hformat : doi_format
                      (String.append "10." (String.append digits (String.append "/" run)))
                    = true).
  { unfold doi_format. rewrite drop_prefix_append.
    change (String.append "/" run) with (String "/" run).
    rewrite span_stop by done. apply Nat.leb_le in Hlen. rewrite Hlen.
    cbn [drop_prefix andb]. rewrite Ascii.eqb_refl, span_all.
    - by destruct run.
    - eapply Forall_impl; [exact Hrun|]. intros c Hc. simpl in Hc. by rewrite Hc. }
  split; [exact Hformat|]. unfold validate_doi. by rewrite Hformat.
Qed.

End DoiFacts.

Lemma extracted_doi_is_well_formed_witness :
  doi_format "10.1234/abc.def" = true.
Proof.
  apply (extracted_doi_is_well_formed (fun _ => None)
           "See doi:10.1234/abc.def for the data" "10.1234/abc.def").
  vm_compute. reflexivity.
Defined.

(** ** Searching *)

Lemma split_from_nil (s : string) :
  forall cur,
    split_from cur s = [] <->
    cur = EmptyString /\ Forall (fun c => isspace c = true) (chars s).
Proof.
  induction s as [|c t IH]; intros cur; cbn [split_from].
  - destruct cur as [|a cur].
    + split; [|done]. intros _. split; [done|constructor].
    + split; [done|]. by intros [? _].
  - change (chars (String c t)) with (c :: chars t). rewrite Forall_cons.
    destruct (isspace c) eqn:Hc.
    + destruct cur as [|a cur].
      * rewrite IH. tauto.
      * split; [done|]. by intros [? _].
    + rewrite IH. split; [by intros [? _]|]. by intros (_ & ? & _).
Qed.

Lemma isspace_lower_char (c : ascii) : isspace (lower_char c) = isspace c.
Proof.
  apply Bool.eqb_prop. revert c.
  apply (every_character (fun c => Bool.eqb (isspace (lower_char c)) (isspace c))).
  by vm_compute.
Qed.

Lemma chars_lower (s : string) : chars (lower s) = List.map lower_char (chars s).
Proof.
  induction s as [|c s IH]; [reflexivity|].
  change (chars (lower (String c s))) with (lower_char c :: chars (lower s)).
  by rewrite IH.
Qed.

(** A query has no term exactly when it is made of white space. *)
Lemma blank_query (query : string) :
  size (query_terms query) = 0%nat <-> Forall (fun c => isspace c = true) (chars query).
Proof.
  unfold query_terms, split.
  assert (Hblank : split_from EmptyString (lower query) = []
                   <-> Forall (fun c => isspace c = true) (chars query)).
  { rewrite split_from_nil, chars_lower, Forall_map.
    split.
    - intros [_ H]. eapply Forall_impl; [exact H|]. intros c Hc. simpl in Hc.
      by rewrite isspace_lower_char in Hc.
    - intros H. split; [done|]. eapply Forall_impl; [exact H|]. intros c Hc. simpl.
      by rewrite isspace_lower_char. }
  etrans; [|exact Hblank]. rewrite size_empty_iff.
  destruct (split_from EmptyString (lower query)) as [|term terms]; [done|].
  split; [|done]. intros Hempty. exfalso.
  assert (Hin : term ∈ (list_to_set (term :: terms) : gset string))
    by (apply elem_of_list_to_set, list_elem_of_In; by left).
  rewrite Hempty in Hin. by apply not_elem_of_empty in Hin.
Qed.

Lemma count_matches_bound (terms : gset string) (text : string) :
  (count_matches terms text <= size terms)%nat.
Proof. unfold count_matches. apply List.filter_length_le. Qed.

Lemma count_matches_zero (terms : gset string) (text : string) :
  count_matches terms text = 0%nat
  <-> forall term, term ∈ terms -> contains text term = false.
Proof.
  unfold count_matches. split.
  - intros Hzero term Hin. apply elem_of_elements, list_elem_of_In in Hin.
    destruct (contains text term) eqn:Hc; [|done].
    assert (Hf : In term (List.filter (fun term => contains text term) (elements terms)))
      by (apply List.filter_In; by split).
    destruct (List.filter _ (elements terms)); [done|discriminate].
  - intros Hnone.
    assert (Hnil : List.filter (fun term => contains text term) (elements terms) = []).
    { destruct (List.filter _ (elements terms)) as [|term l] eqn:E; [done|].
      assert (Hin : In term (List.filter (fun term => contains text term) (elements terms)))
        by (rewrite E; by left).
      apply List.filter_In in Hin as [Hin Hc].
      apply list_elem_of_In, elem_of_elements in Hin. by rewrite (Hnone term Hin) in Hc. }
    by rewrite Hnil.
Qed.

Lemma nat_Q_nonneg (n : nat) : (0 <= nat_Q n)%Q.
Proof. unfold nat_Q. change 0%Q with (inject_Z 0). rewrite <- Zle_Qle. lia. Qed.

Lemma nat_Q_le (a b : nat) : (a <= b)%nat -> (nat_Q a <= nat_Q b)%Q.
Proof. intros H. unfold nat_Q. rewrite <- Zle_Qle. lia. Qed.

Lemma nat_Q_positive (n : nat) : n <> 0%nat -> (0 < nat_Q n)%Q.
Proof. intros H. unfold nat_Q. change 0%Q with (inject_Z 0). rewrite <- Zlt_Qlt. lia. Qed.

Lemma nat_Q_zero (n : nat) : (nat_Q n == 0)%Q <-> n = 0%nat.
Proof.
  unfold nat_Q. split.
  - intros H. unfold Qeq in H. simpl in H. lia.
  - by intros ->.
Qed.

Lemma Qdiv_cancel (x y : Q) : (0 < y)%Q -> (x / y * y == x)%Q.
Proof.
  intros Hy. unfold Qdiv.
  rewrite <- Qmult_assoc, (Qmult_comm (/ y)), Qmult_inv_r, Qmult_1_r; [reflexivity|].
  intros E. rewrite E in Hy. lra.
Qed.

Lemma relevance_bounds (query : string) (result : hit) (relevance : Q) :
  _calculate_relevance query result = Ok relevance -> (0 <= relevance <= 1)%Q.
Proof.
  unfold _calculate_relevance.
  destruct (Nat.eqb_spec (size (query_terms query)) 0) as [|Hsize]; [discriminate|].
  intros [= <-].
  set (terms := query_terms query) in *.
  pose proof (nat_Q_positive _ Hsize) as Hn.
  pose proof (nat_Q_nonneg (count_matches terms (lower (title result)))) as Ht0.
  pose proof (nat_Q_nonneg (count_matches terms (lower (body result)))) as Hb0.
  pose proof (Q.le_min_r
                ((nat_Q (count_matches terms (lower (title result))) * (7 # 10)
                  + nat_Q (count_matches terms (lower (body result))) * (3 # 10))
                 / nat_Q (size terms)) 1) as Hcap.
  split; [|exact Hcap].
  apply Q.min_glb; [|lra]. apply Qle_shift_div_l; [done|]. lra.
Qed.

(** X22. When a relevance is returned it lies between 0 and 1, and it is 0
    exactly when no term of the query occurs in the lower-cased title and
    none in the lower-cased body. *)
Theorem relevance_range (query : string) (result : hit) (relevance : Q) :
  _calculate_relevance query result = Ok relevance ->
  (0 <= relevance <= 1)%Q
  /\ ((relevance == 0)%Q
      <-> forall term, term ∈ query_terms query ->
            contains (lower (title result)) term = false
            /\ contains (lower (body result)) term = false).
Proof.
  unfold _calculate_relevance.
  destruct (Nat.eqb_spec (size (query_terms query)) 0) as [|Hsize]; [discriminate|].
  intros [= <-].
  set (terms := query_terms query) in *.
  set (t := count_matches terms (lower (title result))).
  set (b := count_matches terms (lower (body result))).
  pose proof (nat_Q_positive _ Hsize) as Hn.
  pose proof (nat_Q_nonneg t) as Ht0. pose proof (nat_Q_nonneg b) as Hb0.
  pose proof (nat_Q_le _ _ (count_matches_bound terms (lower (title result)))) as Ht1.
  pose proof (nat_Q_le _ _ (count_matches_bound terms (lower (body result)))) as Hb1.
  fold t in Ht1. fold b in Hb1.
  set (weighted := (nat_Q t * (7 # 10) + nat_Q b * (3 # 10))%Q).
  assert (Hlow : (0 <= weighted / nat_Q (size terms))%Q).
  { apply Qle_shift_div_l; [done|]. subst weighted. lra. }
  assert (Hhigh : (weighted / nat_Q (size terms) <= 1)%Q).
  { apply Qle_shift_div_r; [done|]. subst weighted. lra. }
  assert (Hmin : (Qmin (weighted / nat_Q (size terms)) 1 == weighted / nat_Q (size terms))%Q)
    by (by apply Q.min_l).
  split.
  - rewrite Hmin. by split.
  - rewrite Hmin.
    assert (Hzero : (weighted / nat_Q (size terms) == 0)%Q <-> t = 0%nat /\ b = 0%nat).
    { split.
      - intros H.
        assert (Hw : (weighted == 0)%Q).
        { pose proof (Qdiv_cancel weighted (nat_Q (size terms)) Hn) as Hmul.
          rewrite H in Hmul. lra. }
        subst weighted. split; apply nat_Q_zero; lra.
      - intros [Ht Hb]. subst weighted.
        apply nat_Q_zero in Ht. apply nat_Q_zero in Hb. rewrite Ht, Hb.
        unfold Qdiv. lra. }
    rewrite Hzero. subst t b. rewrite !count_matches_zero. split.
    + intros [Ht Hb] term Hin. split; [by apply Ht|by apply Hb].
    + intros H. split; intros term Hin; by apply H.
Qed.

Lemma relevance_range_witness :
  (0 <= 170 # 200 <= 1)%Q.
Proof.
  apply (relevance_range "Deep learning"
           {| title := "Deep Learning for Vision"; body := "A survey of learning methods";
              href := "https://example.edu/survey" |} (170 # 200)).
  vm_compute. reflexivity.
Defined.

Lemma content_quality_bounds (result : hit) :
  (1 # 2 <= _assess_content_quality result <= 1)%Q.
Proof.
  unfold _assess_content_quality.
  destruct (100 <? String.length (body result))%nat,
           (20 <? String.length (title result))%nat,
           (any_in (href result) [".edu"; ".gov"; ".org"]),
           (any_in (href result) ["wikipedia"; "arxiv"; "scholar"]);
    split; by apply Qle_bool_iff.
Qed.

(** X23. How the two readings of an address agree: the source type is
    academic, government or organization exactly when the address holds
    .edu, .gov or .org, and then the content quality is at least 8/10; for
    an encyclopedia or a preprint it is at least 7/10; a quality below 7/10
    is only given to news and general sources. The quality is always
    between 1/2 and 1. *)
Theorem source_type_and_quality (result : hit) :
  let kind := _identify_source_type (href result) in
  let quality := _assess_content_quality result in
  (1 # 2 <= quality <= 1)%Q
  /\ (kind = "academic" \/ kind = "government" \/ kind = "organization"
      <-> any_in (href result) [".edu"; ".gov"; ".org"] = true)
  /\ (kind = "academic" \/ kind = "government" \/ kind = "organization"
      -> (8 # 10 <= quality)%Q)
  /\ (kind = "encyclopedia" \/ kind = "preprint" -> (7 # 10 <= quality)%Q)
  /\ ((quality < 7 # 10)%Q -> kind = "news" \/ kind = "general").
Proof.
  cbv zeta. split; [apply content_quality_bounds|].
  unfold _identify_source_type, _assess_content_quality.
  set (news := any_in (href result) ["bbc"; "cnn"; "reuters"; "ap"; "news"]).
  unfold any_in. cbn [existsb].
  destruct (100 <? String.length (body result))%nat,
           (20 <? String.length (title result))%nat,
           (contains (href result) ".edu"),
           (contains (href result) ".gov"),
           (contains (href result) ".org"),
           (contains (href result) "wikipedia"),
           (contains (href result) "arxiv"),
           (contains (href result) "scholar"),
           news;
    cbn [orb];
    (split; [split; [intros [H|[H|H]]; (reflexivity || discriminate H)
                    |intros H; first [discriminate H
                                     |left; reflexivity
                                     |right; left; reflexivity
                                     |right; right; reflexivity]]|]);
    (split; [intros [H|[H|H]]; first [discriminate H|by apply Qle_bool_iff]|]);
    (split; [intros [H|H]; first [discriminate H|by apply Qle_bool_iff]|]);
    intros H; apply Qlt_alt in H;
    first [discriminate H|left; reflexivity|right; reflexivity].
Qed.

(** *** The whole search *)

Lemma process_result_cases (query : string) (h : hit) :
  (size (query_terms query) = 0%nat /\ process_result query h = Raise ZeroDivisionError)
  \/ (size (query_terms query) <> 0%nat
      /\ exists relevance,
           _calculate_relevance query h = Ok relevance
           /\ process_result query h
              = Ok {| result_title := title h; snippet := body h; url := href h;
                      relevance_score := relevance;
                      content_quality := _assess_content_quality h;
                      source_type := _identify_source_type (href h) |}).
Proof.
  unfold process_result, _calculate_relevance.
  destruct (Nat.eqb_spec (size (query_terms query)) 0) as [Hsize|Hsize]; [by left|].
  right. split; [done|]. eexists. split; reflexivity.
Qed.

Lemma process_results_cases (query : string) (hits : list hit) :
  (size (query_terms query) = 0%nat /\ hits <> []
   /\ process_results query hits = Raise ZeroDivisionError)
  \/ ((size (query_terms query) <> 0%nat \/ hits = [])
      /\ exists processed,
           process_results query hits = Ok processed
           /\ Forall2 (processed_from query) hits processed).
Proof.
  induction hits as [|h rest IH].
  - right. split; [by right|]. exists []. split; [reflexivity|constructor].
  - cbn [process_results].
    destruct (process_result_cases query h) as [[Hsize ->]|(Hsize & relevance & Hrel & ->)].
    + left. by repeat split.
    + right. split; [by left|].
      destruct IH as [(Hzero & _)|(_ & processed & -> & Hall)]; [contradiction|].
      eexists. split; [reflexivity|]. constructor; [|exact Hall].
      by repeat split.
Qed.

Lemma slice_to_length {A : Type} (n : Z) (l : list A) :
  Z.of_nat (length (slice_to n l))
  = if (0 <=? n)%Z then Z.min n (Z.of_nat (length l))
    else Z.max 0 (Z.of_nat (length l) + n).
Proof.
  unfold slice_to. destruct (Z.leb_spec 0 n); rewrite length_firstn; lia.
Qed.

(** X24. The search reports a division by zero exactly when the query is
    empty or made of white space only and at least one hit of the provider
    is taken: [max_results] is positive and there is a hit, or it is
    negative and there are more than [-max_results] hits. In every other
    case it returns results. *)
Theorem search_fails_exactly_on_a_blank_query
    (query : string) (search_results : list hit) (max_results : Z) :
  search_output query search_results max_results = Raise ZeroDivisionError
  <-> Forall (fun c => isspace c = true) (chars query)
      /\ ((0 < max_results)%Z /\ search_results <> []
          \/ (max_results < 0)%Z /\ (- max_results < Z.of_nat (length search_results))%Z).
Proof.
  rewrite <- blank_query. unfold search_output, ranked_results.
  assert (Htaken : slice_to max_results search_results <> []
                   <-> (0 < max_results)%Z /\ search_results <> []
                       \/ (max_results < 0)%Z
                          /\ (- max_results < Z.of_nat (length search_results))%Z).
  { pose proof (slice_to_length max_results search_results) as Hlen.
    assert (Hhits : search_results <> [] <-> (0 < Z.of_nat (length search_results))%Z)
      by (destruct search_results; simpl; split; (done || lia)).
    assert (Hslice : slice_to max_results search_results <> []
                     <-> (0 < Z.of_nat (length (slice_to max_results search_results)))%Z)
      by (destruct (slice_to max_results search_results); simpl; split; (done || lia)).
    rewrite Hslice, Hhits, Hlen. destruct (Z.leb_spec 0 max_results); lia. }
  rewrite <- Htaken.
  destruct (process_results_cases query (slice_to max_results search_results))
    as [(Hsize & Hhits & ->)|(Hcase & processed & -> & _)].
  - split; [|done]. intros _. by split.
  - split; [done|]. intros (Hsize & Hhits). exfalso.
    by destruct Hcase as [Hcase|Hcase].
Qed.

Lemma relevance_sum_bounds (results : list search_result) :
  Forall (fun r => (0 <= relevance_score r <= 1)%Q) results ->
  forall acc : Q,
    (acc <= fold_left (fun a r => (a + relevance_score r)%Q) results acc
     <= acc + nat_Q (length results))%Q.
Proof.
  induction 1 as [|r rest Hr _ IH]; intros acc.
  - unfold nat_Q. cbn [fold_left length]. change (inject_Z (Z.of_nat 0)) with 0%Q. lra.
  - cbn [fold_left]. specialize (IH (acc + relevance_score r)%Q).
    unfold nat_Q in *. cbn [length]. pose proof (len_succ (length rest)). lra.
Qed.

Lemma average_relevance_bounds (results : list search_result) :
  Forall (fun r => (0 <= relevance_score r <= 1)%Q) results ->
  (0 <= average_relevance results <= 1)%Q.
Proof.
  intros Hall. unfold average_relevance.
  destruct results as [|r rest] eqn:E; [lra|]. rewrite <- E in *.
  assert (Hpos : (0 < nat_Q (length results))%Q).
  { apply nat_Q_positive. by rewrite E. }
  pose proof (relevance_sum_bounds results Hall 0%Q) as [Hlo Hhi].
  split.
  - apply Qle_shift_div_l; [done|]. lra.
  - apply Qle_shift_div_r; [done|]. lra.
Qed.

(** X25. When the search returns, there is one result for each hit taken
    from the provider and no other: the hits taken are the first
    [max_results] ones, and for a negative [max_results] all but the last
    [-max_results]. The results carry the titles, bodies and addresses of
    those hits, in the order of the ranking. Each relevance lies between 0
    and 1, each content quality between 1/2 and 1, and the average relevance
    of the metadata between 0 and 1. *)
Theorem search_output_covers_the_first_hits
    (query : string) (search_results : list hit) (max_results : Z)
    (metadata : search_metadata) (results : list search_result) :
  search_output query search_results max_results = Ok (metadata, results) ->
  total_results metadata = length results
  /\ Z.of_nat (length results)
     = (if (0 <=? max_results)%Z
        then Z.min max_results (Z.of_nat (length search_results))
        else Z.max 0 (Z.of_nat (length search_results) + max_results))
  /\ Permutation
       (List.map (fun r => (result_title r, snippet r, url r)) results)
       (List.map (fun h => (title h, body h, href h))
          (slice_to max_results search_results))
  /\ Forall (fun r => (0 <= relevance_score r <= 1)%Q
                      /\ (1 # 2 <= content_quality r <= 1)%Q) results
  /\ (0 <= avg_relevance metadata <= 1)%Q.
Proof.
  unfold search_output, ranked_results.
  destruct (process_results_cases query (slice_to max_results search_results))
    as [(_ & _ & ->)|(_ & processed & -> & Hall)]; [discriminate|].
  intros [= <- <-]. cbn [total_results avg_relevance].
  pose proof (sort_reverse_Permutation combined_score processed) as Hperm.
  fold (rank processed) in Hperm.
  assert (Hlen : Z.of_nat (length (rank processed))
                 = if (0 <=? max_results)%Z
                   then Z.min max_results (Z.of_nat (length search_results))
                   else Z.max 0 (Z.of_nat (length search_results) + max_results)).
  { rewrite <- (Permutation_length Hperm), <- (Forall2_length _ _ _ Hall).
    apply slice_to_length. }
  assert (Hfields : List.map (fun r => (result_title r, snippet r, url r)) processed
                    = List.map (fun h => (title h, body h, href h))
                        (slice_to max_results search_results)).
  { clear -Hall. induction Hall as [|h r hs rs (Ht & Hb & Hu & _) _ IH]; [reflexivity|].
    simpl. by rewrite Ht, Hb, Hu, IH. }
  assert (Hranges : Forall (fun r => (0 <= relevance_score r <= 1)%Q
                                     /\ (1 # 2 <= content_quality r <= 1)%Q) processed).
  { clear -Hall.
    induction Hall as [|h r hs rs (_ & _ & _ & Hrel & Hq & _) _ IH]; constructor; [|exact IH].
    split; [by apply (relevance_bounds query h)|]. rewrite Hq. apply content_quality_bounds. }
  assert (Hranked : Forall (fun r => (0 <= relevance_score r <= 1)%Q
                                     /\ (1 # 2 <= content_quality r <= 1)%Q) (rank processed)).
  { rewrite Forall_forall in Hranges |- *. intros r Hr. apply Hranges.
    apply list_elem_of_In. apply list_elem_of_In in Hr.
    by apply (Permutation_in _ (Permutation_sym Hperm)). }
  repeat split; try done.
  - rewrite <- Hfields. apply Permutation_map. by symmetry.
  - apply average_relevance_bounds. eapply Forall_impl; [exact Hranked|]. by intros r [? _].
  - apply average_relevance_bounds. eapply Forall_impl; [exact Hranked|]. by intros r [? _].
Qed.

Lemma search_output_covers_the_first_hits_witness :
  exists metadata results,
    search_output "deep learning" Examples.three_hits (-1) = Ok (metadata, results)
    /\ total_results metadata = length results
    /\ Z.of_nat (length results) = 2%Z.
Proof.
  destruct (search_output "deep learning" Examples.three_hits (-1))
    as [[metadata results]|e] eqn:E; [|vm_compute in E; discriminate E].
  exists metadata, results. split; [reflexivity|].
  destruct (search_output_covers_the_first_hits "deep learning" Examples.three_hits (-1)
              metadata results E) as (Htotal & Hlen & _).
  split; [exact Htotal|exact Hlen].
Defined.

(** ** Citations on single lines *)

Lemma contains_after_line (t c tail : string) :
  Forall (fun a => is_char new_line a = false) (chars c) ->
  contains (String.append c tail) (String new_line t) = contains tail (String new_line t).
Proof.
  intros Hc. induction c as [|a c IH]; [reflexivity|].
  change (chars (String a c)) with (a :: chars c) in Hc.
  apply Forall_cons in Hc as [Ha Hc].
  change (String.append (String a c) tail) with (String a (String.append c tail)).
  cbn [contains]. rewrite (IH Hc).
  assert (Hp : String.prefix (String new_line t) (String a (String.append c tail)) = false).
  { cbn [String.prefix]. destruct (ascii_dec new_line a) as [<-|_]; [|reflexivity].
    unfold is_char in Ha. by rewrite Ascii.eqb_refl in Ha. }
  by rewrite Hp.
Qed.

Lemma prefix_before_line (t : string) :
  Forall (fun a => is_char new_line a = false) (chars t) ->
  forall c tail,
    String.prefix t c = false -> at_line_end tail ->
    String.prefix t (String.append c tail) = false.
Proof.
  induction t as [|a t IH]; intros Ht c tail Hp Htail.
  - by destruct c.
  - change (chars (String a t)) with (a :: chars t) in Ht.
    apply Forall_cons in Ht as [Ha Ht].
    destruct c as [|b c].
    + cbn [String.append]. destruct Htail as [->|(rest & ->)]; [reflexivity|].
      cbn [String.prefix]. destruct (ascii_dec a new_line) as [->|_]; [|reflexivity].
      unfold is_char in Ha. by rewrite Ascii.eqb_refl in Ha.
    + change (String.append (String b c) tail) with (String b (String.append c tail)).
      cbn [String.prefix] in Hp |- *.
      destruct (ascii_dec a b); [|reflexivity]. by apply IH.
Qed.

Lemma joined_without (t : string) (citations : list string) :
  Forall (fun c => Forall (fun a => is_char new_line a = false) (chars c)) citations ->
  Forall (fun c => forall tail, at_line_end tail ->
                     String.prefix t (String.append c tail) = false) citations ->
  contains (String.concat line_feed citations) (String new_line t) = false.
Proof.
  induction citations as [|c rest IH]; intros Hlines Hheads; [reflexivity|].
  apply Forall_cons in Hlines as [Hc Hlines]. apply Forall_cons in Hheads as [_ Hheads].
  rewrite concat_cons, (contains_after_line t c _ Hc).
  destruct rest as [|c2 rest]; [reflexivity|].
  change (String.append line_feed (String.concat line_feed (c2 :: rest)))
    with (String new_line (String.concat line_feed (c2 :: rest))).
  cbn [contains]. rewrite (IH Hlines Hheads), orb_false_r.
  cbn [String.prefix]. destruct (ascii_dec new_line new_line) as [_|]; [|done].
  rewrite concat_cons. apply Forall_cons in Hheads as [Hc2 _]. apply Hc2.
  destruct rest; [by left|]. right. by eexists.
Qed.

Lemma joined_citations_have_no_separator (lines : list string) :
  Forall joinable lines ->
  Forall (fun sep => contains (String.concat line_feed lines) sep = false)
    separators.
Proof.
  intros Hall.
  assert (Hlines : Forall (fun c => Forall (fun a => is_char new_line a = false) (chars c))
                     lines).
  { eapply Forall_impl; [exact Hall|]. by intros c (_ & ? & _). }
  assert (Hitem : forall t,
             In t ["-"; "1."; "2."; "3."] ->
             contains (String.concat line_feed lines) (String new_line t) = false).
  { intros t Ht. apply joined_without; [exact Hlines|].
    eapply Forall_impl; [exact Hall|]. intros c (_ & _ & Hstart) tail Htail.
    apply prefix_before_line; [|by apply (proj1 (Forall_forall _ _) Hstart), list_elem_of_In|done].
    simpl in Ht. destruct Ht as [<-|[<-|[<-|[<-|[]]]]]; by repeat constructor. }
  unfold separators. repeat constructor.
  - apply (joined_without line_feed); [exact Hlines|].
    eapply Forall_impl; [exact Hall|]. intros c (Hne & Hc & _) tail _.
    destruct c as [|a c]; [done|].
    change (chars (String a c)) with (a :: chars c) in Hc.
    apply Forall_cons in Hc as [Ha _].
    cbn [String.append line_feed String.prefix].
    destruct (ascii_dec (ascii_of_N 10) a) as [<-|_]; [|reflexivity].
    unfold is_char, new_line in Ha. by rewrite Ascii.eqb_refl in Ha.
  - apply (Hitem "-"). by left.
  - apply (Hitem "1."). by right; left.
  - apply (Hitem "2."). by right; right; left.
  - apply (Hitem "3."). by right; right; right; left.
Qed.

Lemma unsplit_text (citations_text : string) :
  Forall (fun sep => contains citations_text sep = false) separators ->
  _parse_citations citations_text
  = if (20 <? String.length (strip citations_text))%nat
    then [strip citations_text] else [].
Proof.
  intros Hno. unfold _parse_citations.
  assert (Hfold : forall seps,
             Forall (fun sep => contains citations_text sep = false) seps ->
             fold_left split_all seps [citations_text] = [citations_text]).
  { induction seps as [|sep seps IH]; intros Hs; [reflexivity|].
    apply Forall_cons in Hs as [Hsep Hs]. simpl. unfold split_on.
    rewrite (split_on_without sep citations_text Hsep EmptyString). simpl. by apply IH. }
  rewrite (Hfold separators Hno). simpl. unfold keep_citation.
  destruct (20 <? String.length (strip citations_text))%nat eqn:Hlen.
  - apply Nat.ltb_lt in Hlen.
    destruct (strip citations_text) eqn:E; [simpl in Hlen; lia|]. simpl. by rewrite E.
  - by rewrite andb_false_r.
Qed.

Lemma records_follow_citations (check : string -> url_check) (citations style : string) :
  let report := citation_validator check citations style in
  List.map original_citation (validated_citations report) = _parse_citations citations
  /\ total_citations (summary report) = length (_parse_citations citations)
  /\ citation_style report = style
  /\ input_citations report = citations.
Proof.
  cbv zeta. unfold citation_validator, validate_all.
  assert (Hinit : loop_invariant (O, [], O, [])) by (repeat split; constructor).
  destruct (validate_loop check style (_parse_citations citations) _ Hinit)
    as (_ & Horig & _). cbv zeta in Horig.
  destruct (fold_left _ _ _) as [[[idx records] valid] found].
  cbn [fst snd List.map app] in Horig. by repeat split.
Qed.

(** X26. Citations written one per line are read as one citation: when each
    line is not empty, holds no line feed and does not begin with a hyphen
    or with 1., 2. or 3. (nor with a bullet, a character outside the
    alphabet of the embedding), the text of the lines joined by single line
    feeds is not split. It is read as one citation, the whole text without
    its outer white space, or as none when that has at most twenty
    characters; so the report of the validator counts one citation at most,
    whatever the number of lines. *)
Theorem lines_are_read_as_one_citation (lines : list string) :
  Forall joinable lines ->
  let text := String.concat line_feed lines in
  _parse_citations text
  = (if (20 <? String.length (strip text))%nat then [strip text] else [])
  /\ forall (check : string -> url_check) (style : string),
       let report := citation_validator check text style in
       List.map original_citation (validated_citations report)
       = (if (20 <? String.length (strip text))%nat then [strip text] else [])
       /\ total_citations (summary report)
          = (if (20 <? String.length (strip text))%nat then 1%nat else 0%nat).
Proof.
  intros Hall text.
  assert (Hparse : _parse_citations text
                   = if (20 <? String.length (strip text))%nat then [strip text] else [])
    by apply unsplit_text, joined_citations_have_no_separator, Hall.
  split; [exact Hparse|]. intros check style.
  destruct (records_follow_citations check text style) as (Horig & Htotal & _).
  cbv zeta in Horig, Htotal |- *. rewrite Horig, Htotal, Hparse.
  split; [reflexivity|]. by destruct (20 <? String.length (strip text))%nat.
Qed.

Lemma lines_are_read_as_one_citation_witness :
  _parse_citations
    (String.concat line_feed
       ["Smith (2020). Deep Learning."; "10.1234/abc.def"; "https://example.org/paper"])
  = [String.concat line_feed
       ["Smith (2020). Deep Learning."; "10.1234/abc.def"; "https://example.org/paper"]].
Proof.
  refine (proj1 (lines_are_read_as_one_citation
                   ["Smith (2020). Deep Learning."; "10.1234/abc.def";
                    "https://example.org/paper"] _)).
  repeat constructor; discriminate.
Defined.
